(** * Filestore Snapshot Scheduler: a shallow embedding and its properties

    The development follows the two modules of the scheduler:

    - [scheduler/filestore_instance.py]: the [retry] decorator, the
      [FilestoreInstance] class and [get_resource_name];
    - [scheduler/main.py]: the request validators and the entry point [main].

    Python values that come from the request body are kept dynamically typed
    ([json]); bodies answered by the Filestore API are typed records, as the
    discovery document of the service types them.  Everything the code does to
    the outside world (API requests, [time.sleep], [time.strftime]) is recorded
    as a list of [event]s, and the answers of the outside world are given by an
    environment [Env] that may look at everything that happened before. *)

From Stdlib Require Import String Ascii ZArith List Bool Lia QArith.
Import ListNotations.
Set Warnings "-register-all".
Open Scope string_scope.
Open Scope list_scope.
Open Scope Z_scope.

(** ** Python values and the primitives the code uses on them *)

Module Py.

(** The exceptions that occur in the two modules.  [GoogleApiError] stands for
    [googleapiclient.errors.Error] (with the status and reason that
    [log_gcp_api_err] prints) and [SocketTimeout] for [socket.timeout]; these
    two are the ones [retry] catches. *)
Inductive exn : Type :=
| ValueError
| TypeError
| KeyError
| AttributeError
| OverflowError
| BadRequest
| InstanceNotFoundError
| GoogleApiError (status_code : Z) (reason : string)
| SocketTimeout
| OtherException (what : string).

(** The outcome of evaluating a Python expression or call. *)
Inductive result (A : Type) : Type :=
| Ret (a : A)
| Raise (x : exn).
Arguments Ret {A} a.
Arguments Raise {A} x.

Definition rbind {A B} (r : result A) (k : A -> result B) : result B :=
  match r with
  | Ret a => k a
  | Raise x => Raise x
  end.

(** A Python [float]: the value it denotes, or one of the special values. *)
Inductive pyfloat : Type :=
| FNan
| FInf (negative : bool)
| FFinite (q : Q).

(** What [request.get_json] hands to [main].  A character of a [string] is one
    code point (below 256); a [JObj] is a [dict] in insertion order whose
    lookup takes the first binding of a key. *)
Inductive json : Type :=
| JNull
| JBool (b : bool)
| JInt (n : Z)
| JFloat (x : pyfloat)
| JStr (s : string)
| JArr (items : list json)
| JObj (fields : list (string * json)).

(** [bool(v)], the test behind [if v:] and [if not v:]. *)
Definition truthy (v : json) : bool :=
  match v with
  | JNull => false
  | JBool b => b
  | JInt n => negb (n =? 0)
  | JFloat FNan => true
  | JFloat (FInf _) => true
  | JFloat (FFinite q) => negb (Qnum q =? 0)
  | JStr s => negb (s =? "")%string
  | JArr items => match items with [] => false | _ :: _ => true end
  | JObj fields => match fields with [] => false | _ :: _ => true end
  end.

Fixpoint lookup {V} (k : string) (fields : list (string * V)) : option V :=
  match fields with
  | [] => None
  | (k', v) :: rest => if (k =? k')%string then Some v else lookup k rest
  end.

(** [d.get(k)]: [None] when the key is missing; only a [dict] has [get]. *)
Definition get (d : json) (k : string) : result json :=
  match d with
  | JObj fields =>
      match lookup k fields with
      | Some v => Ret v
      | None => Ret JNull
      end
  | _ => Raise AttributeError
  end.

(** [d[k]] for a string key. *)
Definition getitem (d : json) (k : string) : result json :=
  match d with
  | JObj fields =>
      match lookup k fields with
      | Some v => Ret v
      | None => Raise KeyError
      end
  | _ => Raise TypeError
  end.

(** [len(v)]. *)
Definition len (v : json) : result Z :=
  match v with
  | JStr s => Ret (Z.of_nat (String.length s))
  | JArr items => Ret (Z.of_nat (List.length items))
  | JObj fields => Ret (Z.of_nat (List.length fields))
  | _ => Raise TypeError
  end.

(** *** [int(v)] *)

Definition is_digit (c : ascii) : bool :=
  let n := nat_of_ascii c in ((48 <=? n) && (n <=? 57))%nat.

Definition digit_value (c : ascii) : Z := Z.of_nat (nat_of_ascii c - 48).

(** [str.isspace] on one code point below 256. *)
Definition is_space (c : ascii) : bool :=
  let n := nat_of_ascii c in
  (((9 <=? n) && (n <=? 13)) || ((28 <=? n) && (n <=? 32))
   || (n =? 133) || (n =? 160))%nat.

Fixpoint lstrip_space (s : string) : string :=
  match s with
  | String c rest => if is_space c then lstrip_space rest else s
  | EmptyString => EmptyString
  end.

Fixpoint rstrip_space (s : string) : string :=
  match s with
  | String c rest =>
      match rstrip_space rest with
      | EmptyString => if is_space c then EmptyString else String c EmptyString
      | rest' => String c rest'
      end
  | EmptyString => EmptyString
  end.

(** Decimal digits, with single underscores allowed between two digits. *)
Fixpoint parse_digits (acc : Z) (after_digit : bool) (s : string) : option Z :=
  match s with
  | EmptyString => if after_digit then Some acc else None
  | String c rest =>
      if is_digit c then parse_digits (10 * acc + digit_value c) true rest
      else if (Ascii.eqb c "_" && after_digit)%bool then parse_digits acc false rest
      else None
  end.

(** [int(s)] for a [str]: blanks around, an optional sign, then the digits. *)
Definition int_of_str (s : string) : result Z :=
  let body := rstrip_space (lstrip_space s) in
  let signed :=
    match body with
    | String "-" rest => option_map Z.opp (parse_digits 0 false rest)
    | String "+" rest => parse_digits 0 false rest
    | _ => parse_digits 0 false body
    end in
  match signed with
  | Some n => Ret n
  | None => Raise ValueError
  end.

(** [int(v)]: a [float] is truncated towards zero. *)
Definition int (v : json) : result Z :=
  match v with
  | JNull => Raise TypeError
  | JBool b => Ret (if b then 1 else 0)
  | JInt n => Ret n
  | JFloat FNan => Raise ValueError
  | JFloat (FInf _) => Raise OverflowError
  | JFloat (FFinite q) => Ret (Z.quot (Qnum q) (Zpos (Qden q)))
  | JStr s => int_of_str s
  | JArr _ => Raise TypeError
  | JObj _ => Raise TypeError
  end.

(** *** [str] methods *)

(** [s.lstrip(c)] and [s.strip(c)] for a one-character argument. *)
Fixpoint lstrip (c : ascii) (s : string) : string :=
  match s with
  | String c' rest => if Ascii.eqb c' c then lstrip c rest else s
  | EmptyString => EmptyString
  end.

Fixpoint rstrip (c : ascii) (s : string) : string :=
  match s with
  | String c' rest =>
      match rstrip c rest with
      | EmptyString => if Ascii.eqb c' c then EmptyString else String c' EmptyString
      | rest' => String c' rest'
      end
  | EmptyString => EmptyString
  end.

Definition strip (c : ascii) (s : string) : string := rstrip c (lstrip c s).

(** [s.split(sep)] for a one-character separator: never an empty list. *)
Fixpoint split (sep : ascii) (s : string) : list string :=
  match s with
  | EmptyString => [EmptyString]
  | String c rest =>
      if Ascii.eqb c sep then EmptyString :: split sep rest
      else
        match split sep rest with
        | piece :: pieces => String c piece :: pieces
        | [] => [String c EmptyString]
        end
  end.

(** [sub in s]. *)
Fixpoint contains (sub s : string) : bool :=
  String.prefix sub s
  || match s with
     | EmptyString => false
     | String _ rest => contains sub rest
     end.

(** [s[n:]] for [n >= 0]. *)
Fixpoint drop (n : nat) (s : string) : string :=
  match n, s with
  | O, _ => s
  | S n', String _ rest => drop n' rest
  | S _, EmptyString => EmptyString
  end.

(** The receiver of a [str] method call must be a [str]. *)
Definition as_str (v : json) : result string :=
  match v with
  | JStr s => Ret s
  | _ => Raise AttributeError
  end.

(** ["/" in s], [s.startswith(c)] and [s.endswith(c)] for one character. *)
Fixpoint has_slash (s : string) : bool :=
  match s with
  | EmptyString => false
  | String c rest => Ascii.eqb c "/" || has_slash rest
  end.

Definition starts_with (c : ascii) (s : string) : bool :=
  match s with
  | String c' _ => Ascii.eqb c' c
  | EmptyString => false
  end.

Fixpoint ends_with (c : ascii) (s : string) : bool :=
  match s with
  | EmptyString => false
  | String c' EmptyString => Ascii.eqb c' c
  | String _ rest => ends_with c rest
  end.

End Py.
Import Py.

(** ** The outside world: the Filestore API, the clock and the trace *)

Module World.

(** A snapshot as [snapshots.list] reports it: the two keys the code reads. *)
Record Snapshot : Type := {
  snap_name : string;
  snap_state : string
}.

(** The [error] of a long-running operation. *)
Record Status : Type := {
  err_code : Z;
  err_message : string
}.

(** A long-running operation: [name] is always there, the other keys are read
    with [get] and may be missing. *)
Record Operation : Type := {
  op_name : string;
  op_done : option bool;
  op_response : option (list (string * string));
  op_error : option Status
}.

(** The instance details, a [dict[str:str]]. *)
Definition Instance : Type := list (string * string).

(** The requests that go out through the API client. *)
Inductive call : Type :=
| Build
| InstancesGet (name : string)
| OperationsGet (name : string)
| SnapshotsList (parent : string)
| SnapshotsCreate (parent snapshotId : string)
| SnapshotsDelete (name : option string).

(** The methods decorated with [@retry]. *)
Inductive opname : Type :=
| OpGetInstance
| OpGetOperation
| OpListSnapshots
| OpCreateSnapshot
| OpDeleteSnapshot.

(** What a recording service sees, in order: a decorated method is entered
    ([retry_wrapper] starts with [attempts = 0]), a request is executed and
    either answered or failed with an exception, the process sleeps, the clock
    is read. *)
Inductive event : Type :=
| Enter (op : opname)
| Request (c : call) (failure : option exn)
| Sleep (seconds : Z)
| Strftime (stamp : string).

(** The environment answers every request, knowing all earlier events.
    [strftime] is [time.strftime(TIME_PATTERN)]; [epoch date] is
    [int(time.mktime(time.strptime(date, TIME_PATTERN)))], which depends on the
    time zone of the process. *)
Record Env : Type := {
  build : list event -> result unit;
  instances_get : list event -> string -> result Instance;
  operations_get : list event -> string -> result Operation;
  snapshots_list : list event -> string -> result (option (list Snapshot));
  snapshots_create : list event -> string -> string -> result Operation;
  snapshots_delete : list event -> option string -> result Operation;
  strftime : list event -> string;
  epoch : string -> result Z
}.

(** The result of running a piece of code: the object it ran on, the events it
    added, and its outcome. *)
Record out (S A : Type) : Type := {
  st : S;
  evs : list event;
  res : result A
}.
Arguments st {S A} o.
Arguments evs {S A} o.
Arguments res {S A} o.

(** Code that runs on a state [S] (the object [self], or nothing) after the
    events [h]. *)
Definition M (S A : Type) : Type := S -> list event -> out S A.

Definition ret {S A} (a : A) : M S A :=
  fun s _ => {| st := s; evs := []; res := Ret a |}.

Definition raise {S A} (x : exn) : M S A :=
  fun s _ => {| st := s; evs := []; res := Raise x |}.

Definition bind {S A B} (m : M S A) (k : A -> M S B) : M S B :=
  fun s h =>
    let o := m s h in
    match res o with
    | Ret a =>
        let o' := k a (st o) (h ++ evs o) in
        {| st := st o'; evs := evs o ++ evs o'; res := res o' |}
    | Raise x => {| st := st o; evs := evs o; res := Raise x |}
    end.

(** A pure expression evaluated inside the code. *)
Definition lift {S A} (r : result A) : M S A :=
  fun s _ => {| st := s; evs := []; res := r |}.

Definition emit {S} (e : event) : M S unit :=
  fun s _ => {| st := s; evs := [e]; res := Ret tt |}.

Definition get_self {S} : M S S :=
  fun s _ => {| st := s; evs := []; res := Ret s |}.

Definition modify {S} (f : S -> S) : M S unit :=
  fun s _ => {| st := f s; evs := []; res := Ret tt |}.

(** [request.execute()]: the answer of the environment, recorded. *)
Definition execute {S A} (c : call) (answer : list event -> result A) : M S A :=
  fun s h =>
    match answer h with
    | Ret a => {| st := s; evs := [Request c None]; res := Ret a |}
    | Raise x => {| st := s; evs := [Request c (Some x)]; res := Raise x |}
    end.

(** [time.strftime(TIME_PATTERN)]: the clock is read, and the reading
    recorded. *)
Definition read_clock {S} (clock : list event -> string) : M S string :=
  fun s h => {| st := s; evs := [Strftime (clock h)]; res := Ret (clock h) |}.

(** [try: ... except <handled>:]: the handled exceptions become values. *)
Definition try {S A} (m : M S A) (handled : exn -> bool) : M S (A + exn) :=
  fun s h =>
    let o := m s h in
    match res o with
    | Ret a => {| st := st o; evs := evs o; res := Ret (inl a) |}
    | Raise x =>
        {| st := st o; evs := evs o;
           res := if handled x then Ret (inr x) else Raise x |}
    end.

(** A method called on the object [self] from code that has no object. *)
Definition on {S A} (self : S) (m : M S A) : M unit (S * A) :=
  fun _ h =>
    let o := m self h in
    {| st := tt; evs := evs o;
       res := match res o with Ret a => Ret (st o, a) | Raise x => Raise x end |}.

End World.
Import World.

Notation "x <- m ;; k" := (bind m (fun x => k))
  (at level 61, m at next level, right associativity).
Notation "m ;; k" := (bind m (fun _ => k))
  (at level 61, right associativity).

(** ** scheduler/filestore_instance.py *)

Module filestore_instance.

Definition SNAP_PREFIX : string := "sched-".
Definition SUPPORTED_TIERS : list string := ["ENTERPRISE"; "HIGH_SCALE_SSD"].
Definition MAX_NUMBER_OF_SNAPSHOTS : Z := 240.
Definition MAX_RETRIES : Z := 3.

(** [resource_url.split("/")[-1]] *)
Definition get_resource_name (resource_url : string) : string :=
  last (split "/" resource_url) EmptyString.

(** The two [except] clauses of [retry_wrapper]. *)
Definition caught (x : exn) : bool :=
  match x with
  | GoogleApiError _ _ => true
  | SocketTimeout => true
  | _ => false
  end.

(** The [while attempts < retries] loop of [retry_wrapper]; [remaining] is
    [retries - attempts].  Falling out of the loop returns [None]. *)
Fixpoint retry_loop {S A} (func : M S (option A)) (retries backoff : Z)
    (remaining : nat) : M S (option A) :=
  match remaining with
  | O => ret None
  | Datatypes.S remaining' =>
      let attempts := retries - Z.of_nat remaining in
      r <- try func caught ;;
      match r with
      | inl a => ret a
      | inr _ =>
          let sleep := backoff ^ (attempts + 1) in
          emit (Sleep sleep) ;;
          retry_loop func retries backoff remaining'
      end
  end.

(** [retry(func, retries, backoff)] applied to the arguments of a call.  The
    methods below are decorated with a bare [@retry], that is with
    [retries = MAX_RETRIES] and [backoff = 2]. *)
Definition retry {S A} (op : opname) (func : M S (option A))
    (retries backoff : Z) : M S (option A) :=
  emit (Enter op) ;;
  retry_loop func retries backoff (Z.to_nat retries).

(** The attributes of a [FilestoreInstance] that hold data.  An attribute that
    holds the result of a decorated method is [None] when the retries were
    exhausted. *)
Record FilestoreInstance : Type := {
  retention_policy : string;
  url : string;
  name : string;
  max_snapshots : Z;
  filestore_instance_json : option Instance;
  snapshots : option (list Snapshot);
  scheduler_snapshots : list string;
  oldest_sched_snapshot : option string
}.

(** The object before [__init__] has assigned anything. *)
Definition blank : FilestoreInstance :=
  {| retention_policy := EmptyString; url := EmptyString; name := EmptyString;
     max_snapshots := 0; filestore_instance_json := None; snapshots := None;
     scheduler_snapshots := []; oldest_sched_snapshot := None |}.

Definition set_retention_policy (v : string) (self : FilestoreInstance) :=
  {| retention_policy := v; url := url self; name := name self;
     max_snapshots := max_snapshots self;
     filestore_instance_json := filestore_instance_json self;
     snapshots := snapshots self;
     scheduler_snapshots := scheduler_snapshots self;
     oldest_sched_snapshot := oldest_sched_snapshot self |}.

Definition set_url (v : string) (self : FilestoreInstance) :=
  {| retention_policy := retention_policy self; url := v; name := name self;
     max_snapshots := max_snapshots self;
     filestore_instance_json := filestore_instance_json self;
     snapshots := snapshots self;
     scheduler_snapshots := scheduler_snapshots self;
     oldest_sched_snapshot := oldest_sched_snapshot self |}.

Definition set_name (v : string) (self : FilestoreInstance) :=
  {| retention_policy := retention_policy self; url := url self; name := v;
     max_snapshots := max_snapshots self;
     filestore_instance_json := filestore_instance_json self;
     snapshots := snapshots self;
     scheduler_snapshots := scheduler_snapshots self;
     oldest_sched_snapshot := oldest_sched_snapshot self |}.

Definition set_max_snapshots (v : Z) (self : FilestoreInstance) :=
  {| retention_policy := retention_policy self; url := url self;
     name := name self; max_snapshots := v;
     filestore_instance_json := filestore_instance_json self;
     snapshots := snapshots self;
     scheduler_snapshots := scheduler_snapshots self;
     oldest_sched_snapshot := oldest_sched_snapshot self |}.

Definition set_filestore_instance_json (v : option Instance)
    (self : FilestoreInstance) :=
  {| retention_policy := retention_policy self; url := url self;
     name := name self; max_snapshots := max_snapshots self;
     filestore_instance_json := v; snapshots := snapshots self;
     scheduler_snapshots := scheduler_snapshots self;
     oldest_sched_snapshot := oldest_sched_snapshot self |}.

Definition set_snapshots (v : option (list Snapshot)) (self : FilestoreInstance) :=
  {| retention_policy := retention_policy self; url := url self;
     name := name self; max_snapshots := max_snapshots self;
     filestore_instance_json := filestore_instance_json self; snapshots := v;
     scheduler_snapshots := scheduler_snapshots self;
     oldest_sched_snapshot := oldest_sched_snapshot self |}.

Definition set_scheduler_snapshots (v : list string) (self : FilestoreInstance) :=
  {| retention_policy := retention_policy self; url := url self;
     name := name self; max_snapshots := max_snapshots self;
     filestore_instance_json := filestore_instance_json self;
     snapshots := snapshots self; scheduler_snapshots := v;
     oldest_sched_snapshot := oldest_sched_snapshot self |}.

Definition set_oldest_sched_snapshot (v : option string)
    (self : FilestoreInstance) :=
  {| retention_policy := retention_policy self; url := url self;
     name := name self; max_snapshots := max_snapshots self;
     filestore_instance_json := filestore_instance_json self;
     snapshots := snapshots self;
     scheduler_snapshots := scheduler_snapshots self;
     oldest_sched_snapshot := v |}.

(** The properties [tier] and [state]: [self.filestore_instance_json.get(...)]. *)
Definition tier (self : FilestoreInstance) : result (option string) :=
  match filestore_instance_json self with
  | Some details => Ret (lookup "tier" details)
  | None => Raise AttributeError
  end.

Definition state (self : FilestoreInstance) : result (option string) :=
  match filestore_instance_json self with
  | Some details => Ret (lookup "state" details)
  | None => Raise AttributeError
  end.

(** [x in SUPPORTED_TIERS] and [x == "READY"], where [x] may be [None]. *)
Definition is_in (x : option string) (l : list string) : bool :=
  match x with
  | Some s => existsb (String.eqb s) l
  | None => false
  end.

Definition equals (x : option string) (s : string) : bool :=
  match x with
  | Some s' => String.eqb s' s
  | None => false
  end.

(** [len(self.snapshots)] *)
Definition len_snapshots (self : FilestoreInstance) : result Z :=
  match snapshots self with
  | Some l => Ret (Z.of_nat (List.length l))
  | None => Raise TypeError
  end.

Definition deletion_needed (self : FilestoreInstance) : bool :=
  if Z.of_nat (List.length (scheduler_snapshots self)) =? max_snapshots self
  then true
  else if Z.of_nat (List.length (scheduler_snapshots self)) >? max_snapshots self
  then true
  else false.

Definition validate_instance_requirements (self : FilestoreInstance)
    : result bool :=
  rbind (tier self) (fun t =>
  if negb (is_in t SUPPORTED_TIERS) then Ret false
  else
    rbind (len_snapshots self) (fun n =>
    if n =? MAX_NUMBER_OF_SNAPSHOTS then Ret false
    else
      rbind (state self) (fun s =>
      if negb (equals s "READY") then Ret false
      else Ret true))).

(** The body of the [for] loop of [get_scheduler_snapshots_list]. *)
Fixpoint scheduler_snapshots_loop (marker : string) (l : list Snapshot)
    : list string :=
  match l with
  | [] => []
  | snapshot :: rest =>
      if contains marker (snap_name snapshot) then
        if String.eqb (snap_state snapshot) "READY"
        then snap_name snapshot :: scheduler_snapshots_loop marker rest
        else scheduler_snapshots_loop marker rest
      else scheduler_snapshots_loop marker rest
  end.

(** Iterating over [None] is a [TypeError]. *)
Definition get_scheduler_snapshots_list (self : FilestoreInstance)
    : result (list string) :=
  match snapshots self with
  | Some l =>
      Ret (scheduler_snapshots_loop
             (SNAP_PREFIX ++ retention_policy self ++ "-")%string l)
  | None => Raise TypeError
  end.

(** [epoch_dict[k] = v] on a [dict] kept in insertion order. *)
Fixpoint dict_set (k : string) (v : Z) (d : list (string * Z))
    : list (string * Z) :=
  match d with
  | [] => [(k, v)]
  | (k', v') :: rest =>
      if String.eqb k k' then (k, v) :: rest else (k', v') :: dict_set k v rest
  end.

(** [min(d, key=d.get)] after the first key: the first key of least value. *)
Fixpoint min_from (best : string * Z) (d : list (string * Z)) : string :=
  match d with
  | [] => fst best
  | (k, v) :: rest =>
      if v <? snd best then min_from (k, v) rest else min_from best rest
  end.

Definition dict_min (d : list (string * Z)) : result string :=
  match d with
  | [] => Raise ValueError
  | first :: rest => Ret (min_from first rest)
  end.

Section WithEnv.

Variable env : Env.

(** The [for] loop of [get_oldest_scheduler_snapshot]. *)
Fixpoint epoch_loop (snapshot_string_len : nat) (l : list string)
    (epoch_dict : list (string * Z)) : result (list (string * Z)) :=
  match l with
  | [] => Ret epoch_dict
  | snapshot :: rest =>
      let snapshot_date := drop snapshot_string_len (get_resource_name snapshot) in
      rbind (epoch env snapshot_date) (fun e =>
      epoch_loop snapshot_string_len rest (dict_set snapshot e epoch_dict))
  end.

Definition get_oldest_scheduler_snapshot (self : FilestoreInstance)
    : result (option string) :=
  match scheduler_snapshots self with
  | [] => Ret None
  | _ :: _ =>
      let snapshot_string_len :=
        (String.length (SNAP_PREFIX ++ retention_policy self)%string + 1)%nat in
      rbind (epoch_loop snapshot_string_len (scheduler_snapshots self) [])
        (fun epoch_dict =>
      rbind (dict_min epoch_dict) (fun oldest => Ret (Some oldest)))
  end.

(** [discovery.build] with the default credentials; the resources derived
    from it ([project], [location], [operation], [instance], [snapshot]) are
    the handles through which the requests below go. *)
Definition _filestore_build : M FilestoreInstance unit :=
  execute Build (build env).

Definition _get_instance : M FilestoreInstance (option Instance) :=
  retry OpGetInstance
    (self <- get_self ;;
     response <- execute (InstancesGet (url self))
                   (fun h => instances_get env h (url self)) ;;
     ret (Some response))
    MAX_RETRIES 2.

Definition _get_operation (operation_url : string)
    : M FilestoreInstance (option Operation) :=
  retry OpGetOperation
    (response <- execute (OperationsGet operation_url)
                   (fun h => operations_get env h operation_url) ;;
     ret (Some response))
    MAX_RETRIES 2.

(** [response.get("snapshots", [])] *)
Definition _list_snapshots : M FilestoreInstance (option (list Snapshot)) :=
  retry OpListSnapshots
    (self <- get_self ;;
     response <- execute (SnapshotsList (url self))
                   (fun h => snapshots_list env h (url self)) ;;
     ret (Some (match response with Some l => l | None => [] end)))
    MAX_RETRIES 2.

Definition _create_snapshot : M FilestoreInstance (option string) :=
  retry OpCreateSnapshot
    (self <- get_self ;;
     stamp <- read_clock (strftime env) ;;
     let snap_name :=
       (SNAP_PREFIX ++ retention_policy self ++ "-" ++ stamp)%string in
     response <- execute (SnapshotsCreate (url self) snap_name)
                   (fun h => snapshots_create env h (url self) snap_name) ;;
     let operation_url := op_name response in
     if negb (String.eqb operation_url EmptyString)
     then ret (Some operation_url)
     else ret None)
    MAX_RETRIES 2.

(** The [while attempt <= monitor_attempts] loop of [_monitor_operation];
    [remaining] is [monitor_attempts - attempt + 1]. *)
Fixpoint monitor_loop (operation_url : string) (monitor_attempts : Z)
    (remaining : nat) : M FilestoreInstance bool :=
  match remaining with
  | O => ret false
  | Datatypes.S remaining' =>
      let attempt := monitor_attempts - Z.of_nat remaining + 1 in
      operation_details <- _get_operation operation_url ;;
      match operation_details with
      | Some details =>
          let next :=
            (if attempt <? monitor_attempts
             then emit (Sleep (2 ^ attempt))
             else ret tt) ;;
            monitor_loop operation_url monitor_attempts remaining' in
          match op_done details with
          | Some true =>
              match op_response details with
              | Some (_ :: _) => ret true
              | _ =>
                  match op_error details with
                  | Some err => ret false
                  | None => next
                  end
              end
          | _ => next
          end
      | None => ret false
      end
  end.

Definition _monitor_operation (operation_url : string)
    : M FilestoreInstance bool :=
  let monitor_attempts := 8 in
  monitor_loop operation_url monitor_attempts (Z.to_nat monitor_attempts).

Definition _delete_snapshot : M FilestoreInstance (option bool) :=
  retry OpDeleteSnapshot
    (self <- get_self ;;
     response <- execute (SnapshotsDelete (oldest_sched_snapshot self))
                   (fun h => snapshots_delete env h (oldest_sched_snapshot self)) ;;
     let operation_id := get_resource_name (op_name response) in
     ret (Some (negb (String.eqb operation_id EmptyString))))
    MAX_RETRIES 2.

(** [if operation_url:] holds for a handle that is neither [None] nor empty. *)
Definition increment_retention : M FilestoreInstance unit :=
  operation_url <- _create_snapshot ;;
  match operation_url with
  | Some operation_url =>
      if negb (String.eqb operation_url EmptyString) then
        creation_completed <- _monitor_operation operation_url ;;
        if creation_completed then
          self <- get_self ;;
          if deletion_needed self then _delete_snapshot ;; ret tt else ret tt
        else ret tt
      else ret tt
  | None => ret tt
  end.

(** [FilestoreInstance.__init__], run on the new object. *)
Definition __init__ (instance_data : json) (retention_policy : string)
    : M FilestoreInstance unit :=
  modify (set_retention_policy retention_policy) ;;
  instance_path <- lift (rbind (get instance_data "instance_path") as_str) ;;
  modify (set_url (strip "/" (lstrip "/" instance_path))) ;;
  self <- get_self ;;
  modify (set_name (get_resource_name (url self))) ;;
  requested <- lift (rbind (get instance_data "snapshots") int) ;;
  modify (set_max_snapshots requested) ;;
  _filestore_build ;;
  details <- _get_instance ;;
  modify (set_filestore_instance_json details) ;;
  match details with
  | Some (_ :: _) =>
      listed <- _list_snapshots ;;
      modify (set_snapshots listed) ;;
      self <- get_self ;;
      sched <- lift (get_scheduler_snapshots_list self) ;;
      modify (set_scheduler_snapshots sched) ;;
      self <- get_self ;;
      oldest <- lift (get_oldest_scheduler_snapshot self) ;;
      modify (set_oldest_sched_snapshot oldest)
  | _ => raise InstanceNotFoundError
  end.

(** The call [FilestoreInstance(instance_data, retention_policy)]. *)
Definition new (instance_data : json) (retention_policy : string)
    : M unit FilestoreInstance :=
  r <- on blank (__init__ instance_data retention_policy) ;;
  ret (fst r).

End WithEnv.

End filestore_instance.

(** ** scheduler/main.py *)

Module main.

Import filestore_instance.

Definition RETENTION_NAME_LENGTH : Z := 50.
Definition MAX_INSTANCES : Z := 8.

(** [jsonschema.validate] against the schema of the source: an object whose
    [retention_policy], when present, is a string and whose [instances], when
    present, is an array. *)
Definition validate_json_schema (request_json : json) : bool :=
  match request_json with
  | JObj fields =>
      match lookup "retention_policy" fields with
      | Some (JStr _) => true
      | Some _ => false
      | None => true
      end
      && match lookup "instances" fields with
         | Some (JArr _) => true
         | Some _ => false
         | None => true
         end
  | _ => false
  end.

Definition validate_json (request_json : json) : result bool :=
  if negb (validate_json_schema request_json) then Ret false
  else
    rbind (get request_json "retention_policy") (fun retention_policy =>
    if negb (truthy retention_policy) then Ret false
    else
      rbind (len retention_policy) (fun n =>
      if n >? RETENTION_NAME_LENGTH then Ret false
      else
        rbind (get request_json "instances") (fun instances =>
        if negb (truthy instances) then Ret false
        else
          rbind (len instances) (fun k =>
          if k >? MAX_INSTANCES then Ret false
          else Ret true)))).

Definition validate_instance_input (instance_data : json) : result bool :=
  rbind (get instance_data "instance_path") (fun path =>
  if negb (truthy path) then Ret false
  else
    rbind (getitem instance_data "instance_path") (fun instance_path =>
    rbind (get instance_data "snapshots") (fun requested_snapshots =>
    if negb (truthy requested_snapshots) then Ret false
    else
      rbind (int requested_snapshots) (fun n =>
      if n <=? 0 then Ret false
      else
        rbind (int requested_snapshots) (fun n' =>
        if n' >? MAX_NUMBER_OF_SNAPSHOTS then Ret false
        else Ret true))))).

Section WithEnv.

Variable env : Env.

Definition is_instance_not_found (x : exn) : bool :=
  match x with
  | InstanceNotFoundError => true
  | _ => false
  end.

(** The [for instance_data in request_json["instances"]] loop of [main]. *)
Fixpoint main_loop (retention_policy : string) (instances : list json)
    : M unit unit :=
  match instances with
  | [] => ret tt
  | instance_data :: rest =>
      valid <- lift (validate_instance_input instance_data) ;;
      (if valid then
         instance_path <- lift (getitem instance_data "instance_path") ;;
         r <- try (new env instance_data retention_policy)
                is_instance_not_found ;;
         match r with
         | inl filer =>
             meets <- lift (validate_instance_requirements filer) ;;
             if meets then on filer (increment_retention env) ;; ret tt
             else ret tt
         | inr _ => ret tt
         end
       else ret tt) ;;
      main_loop retention_policy rest
  end.

(** [main(request)]; [request] is the outcome of
    [request.get_json(force=True)].  After [validate_json] the policy is a
    [str] and the instances are a [list]. *)
Definition main (request : result json) : M unit string :=
  match request with
  | Raise BadRequest => ret "done with error"
  | Raise x => raise x
  | Ret request_json =>
      valid <- lift (validate_json request_json) ;;
      if negb valid then ret "done with error"
      else
        retention_policy <- lift (get request_json "retention_policy") ;;
        instances <- lift (getitem request_json "instances") ;;
        match retention_policy, instances with
        | JStr policy, JArr items => main_loop policy items ;; ret "done"
        | _, _ => raise TypeError
        end
  end.

End WithEnv.

End main.

(** ** Reading a trace *)

Module Trace.

Definition count (p : event -> bool) (l : list event) : nat :=
  List.length (filter p l).

Definition is_enter (op : opname) (e : event) : bool :=
  match e, op with
  | Enter OpGetInstance, OpGetInstance => true
  | Enter OpGetOperation, OpGetOperation => true
  | Enter OpListSnapshots, OpListSnapshots => true
  | Enter OpCreateSnapshot, OpCreateSnapshot => true
  | Enter OpDeleteSnapshot, OpDeleteSnapshot => true
  | _, _ => false
  end.

Definition is_request (e : event) : bool :=
  match e with
  | Request _ _ => true
  | _ => false
  end.

(** A [snapshots.delete] request, and one that the service answered. *)
Definition is_delete_request (e : event) : bool :=
  match e with
  | Request (SnapshotsDelete _) _ => true
  | _ => false
  end.

Definition is_acked_delete (e : event) : bool :=
  match e with
  | Request (SnapshotsDelete _) None => true
  | _ => false
  end.

(** A [snapshots.create] request that the service answered. *)
Definition is_acked_create (e : event) : bool :=
  match e with
  | Request (SnapshotsCreate _ _) None => true
  | _ => false
  end.

(** Anything that belongs to [_delete_snapshot]. *)
Definition is_delete (e : event) : bool :=
  is_enter OpDeleteSnapshot e || is_delete_request e.

Definition is_create (e : event) : bool :=
  match e with
  | Enter OpCreateSnapshot => true
  | Request (SnapshotsCreate _ _) _ => true
  | _ => false
  end.

(** A poll of the operation: [operations.get]. *)
Definition is_poll_request (e : event) : bool :=
  match e with
  | Request (OperationsGet _) _ => true
  | _ => false
  end.

(** Anything that fetches the state of the instance again. *)
Definition is_fetch (e : event) : bool :=
  match e with
  | Enter OpGetInstance => true
  | Enter OpListSnapshots => true
  | Request (InstancesGet _) _ => true
  | Request (SnapshotsList _) _ => true
  | Request Build _ => true
  | _ => false
  end.

(** The seconds slept, in order. *)
Definition sleeps (l : list event) : list Z :=
  flat_map (fun e => match e with Sleep n => [n] | _ => [] end) l.

(** The sum of a weight over a trace; the seconds slept are one such sum. *)
Definition total (w : event -> Z) (l : list event) : Z :=
  fold_right (fun e acc => w e + acc) 0 l.

Definition seconds (e : event) : Z :=
  match e with
  | Sleep n => n
  | _ => 0
  end.

Definition slept (l : list event) : Z := total seconds l.

Definition one_if (p : event -> bool) (e : event) : Z :=
  if p e then 1 else 0.

(** What a poll tells [_monitor_operation]: the operation is done and has a
    response, it is done and has an error, or neither. *)
Definition verdict (details : Operation) : option bool :=
  match op_done details with
  | Some true =>
      match op_response details with
      | Some (_ :: _) => Some true
      | _ =>
          match op_error details with
          | Some _ => Some false
          | None => None
          end
      end
  | _ => None
  end.

(** The trace of a poll that is answered at once, followed by the pause of
    the monitor loop, and the trace of [k] such polls in a row, the last of
    which is attempt number [monitor_attempts]. *)
Definition poll_round (operation_url : string) (monitor_attempts attempt : Z)
    : list event :=
  [Enter OpGetOperation; Request (OperationsGet operation_url) None]
  ++ (if attempt <? monitor_attempts then [Sleep (2 ^ attempt)] else []).

Definition patient_trace (operation_url : string) (monitor_attempts : Z)
    (k : nat) : list event :=
  flat_map
    (fun i => poll_round operation_url monitor_attempts
                (monitor_attempts - Z.of_nat k + Z.of_nat i))
    (seq 1 k).

End Trace.
Import Trace.

(** ** Invariants used in the proofs *)

Module Invariant.

Import filestore_instance.

(** The entries of [epoch_dict] hold the epoch of the slice of their key. *)
Definition dated (env : Env) (n : nat) (d : list (string * Z)) : Prop :=
  forall k v, In (k, v) d -> epoch env (drop n (get_resource_name k)) = Ret v.

(** When code started on an object that satisfies [P] returns [a], the
    object satisfies [Q a]. *)
Definition hoare {S A} (P : S -> Prop) (m : M S A) (Q : A -> S -> Prop) : Prop :=
  forall s h a, P s -> res (m s h) = Ret a -> Q a (st (m s h)).

(** Every event of code started on an object that satisfies [P] satisfies
    [Ev]. *)
Definition emits {S A} (P : S -> Prop) (m : M S A) (Ev : event -> Prop) : Prop :=
  forall s h, P s -> Forall Ev (evs (m s h)).

(** The weight of the events of code started on an object that satisfies
    [P] is at most [n]. *)
Definition bounded {S A} (P : S -> Prop) (m : M S A) (w : event -> Z) (n : Z)
    : Prop :=
  forall s h, P s -> total w (evs (m s h)) <= n.

(** The seconds the loop of [_monitor_operation] pauses when none of its [k]
    remaining polls reaches a verdict. *)
Fixpoint monitor_pauses (monitor_attempts : Z) (k : nat) : Z :=
  match k with
  | O => 0
  | Datatypes.S k' =>
      let attempt := monitor_attempts - Z.of_nat k + 1 in
      (if attempt <? monitor_attempts then 2 ^ attempt else 0)
      + monitor_pauses monitor_attempts k'
  end.

(** The instance details know no supported tier. *)
Definition unsupported (details : option Instance) : Prop :=
  forall d, details = Some d -> is_in (lookup "tier" d) SUPPORTED_TIERS = false.

(** The attributes of an object [__init__] has completed on: the scheduler
    snapshots were filtered from the listing, and the oldest was chosen among
    them. *)
Definition built (env : Env) (self : FilestoreInstance) : Prop :=
  exists listing,
    snapshots self = Some listing
    /\ scheduler_snapshots self
       = scheduler_snapshots_loop
           (SNAP_PREFIX ++ retention_policy self ++ "-")%string listing
    /\ get_oldest_scheduler_snapshot env self = Ret (oldest_sched_snapshot self).

End Invariant.
Import Invariant.

(** ** The words of the specification *)

Module Spec.

Import filestore_instance.

Definition all_digits (s : string) : bool :=
  forallb is_digit (list_ascii_of_string s).

(** [YYYYMMDD-HHMMSS]: eight digits, a dash, six digits. *)
Definition is_timestamp (s : string) : bool :=
  (String.length s =? 15)%nat
  && all_digits (substring 0 8 s)
  && String.eqb (substring 8 1 s) "-"
  && all_digits (substring 9 6 s).

(** The naming convention [sched-<retention_policy>-<timestamp>] on the
    snapshot's resource name. *)
Definition matches_convention (policy snapshot : string) : bool :=
  let marker := (SNAP_PREFIX ++ policy ++ "-")%string in
  String.prefix marker (get_resource_name snapshot)
  && is_timestamp (drop (String.length marker) (get_resource_name snapshot)).

(** A scheduler snapshot, as the specification defines it. *)
Definition is_scheduler_snapshot (policy : string) (snapshot : Snapshot) : bool :=
  matches_convention policy (snap_name snapshot)
  && String.eqb (snap_state snapshot) "READY".

(** The request the specification accepts. *)
Definition valid_request (request_json : json) : Prop :=
  exists fields policy instances,
    request_json = JObj fields
    /\ lookup "retention_policy" fields = Some (JStr policy)
    /\ (1 <= String.length policy <= 50)%nat
    /\ lookup "instances" fields = Some (JArr instances)
    /\ (1 <= List.length instances <= 8)%nat.

End Spec.

(** ** A service to run the code against *)

Module Fake.

Import filestore_instance.

(** Days from 1970-01-01 to a date of the proleptic Gregorian calendar. *)
Definition days_from_civil (y m d : Z) : Z :=
  let y' := if m <=? 2 then y - 1 else y in
  let era := y' / 400 in
  let yoe := y' - era * 400 in
  let doy := (153 * (if m >? 2 then m - 3 else m + 9) + 2) / 5 + d - 1 in
  let doe := yoe * 365 + yoe / 4 - yoe / 100 + doy in
  era * 146097 + doe - 719468.

Definition is_leap (y : Z) : bool :=
  ((y mod 4 =? 0) && negb (y mod 100 =? 0)) || (y mod 400 =? 0).

Definition days_in_month (y m : Z) : Z :=
  if m =? 2 then (if is_leap y then 29 else 28)
  else if (m =? 4) || (m =? 6) || (m =? 9) || (m =? 11) then 30
  else 31.

Definition number (s : string) : Z :=
  match parse_digits 0 false s with
  | Some n => n
  | None => 0
  end.

(** [int(time.mktime(time.strptime(date, "%Y%m%d-%H%M%S")))] for a process
    whose time zone is UTC, on zero-padded timestamps. *)
Definition utc_epoch (date : string) : result Z :=
  if Spec.is_timestamp date then
    let y := number (substring 0 4 date) in
    let m := number (substring 4 2 date) in
    let d := number (substring 6 2 date) in
    let hh := number (substring 9 2 date) in
    let mm := number (substring 11 2 date) in
    let ss := number (substring 13 2 date) in
    if (1 <=? y) && (1 <=? m) && (m <=? 12) && (1 <=? d)
       && (d <=? days_in_month y m) && (hh <=? 23) && (mm <=? 59)
       && (ss <=? 61)
    then Ret (days_from_civil y m d * 86400 + hh * 3600 + mm * 60 + ss)
    else Raise ValueError
  else Raise ValueError.

Definition instance_url : string := "projects/p/locations/l/instances/i".

Definition snapshot_url (id : string) : string :=
  (instance_url ++ "/snapshots/" ++ id)%string.

Definition ready (id : string) : Snapshot :=
  {| snap_name := snapshot_url id; snap_state := "READY" |}.

Definition enterprise : Instance :=
  [("name", instance_url); ("tier", "ENTERPRISE"); ("state", "READY")].

Definition running (id : string) : Operation :=
  {| op_name := ("projects/p/locations/l/operations/" ++ id)%string;
     op_done := None; op_response := None; op_error := None |}.

Definition succeeded (id : string) : Operation :=
  {| op_name := ("projects/p/locations/l/operations/" ++ id)%string;
     op_done := Some true;
     op_response := Some [("name", snapshot_url "sched-daily-20220103-000000")];
     op_error := None |}.

(** Done, with neither a response nor an error. *)
Definition hollow (id : string) : Operation :=
  {| op_name := ("projects/p/locations/l/operations/" ++ id)%string;
     op_done := Some true; op_response := None; op_error := None |}.

(** A service that answers every request: the instance is [details], its
    snapshots are [listing], every poll of an operation answers [polled], and
    the clock stands at 2022-01-03 00:00:00. *)
Definition service (details : Instance) (listing : list Snapshot)
    (polled : Operation) : Env :=
  {| build := fun _ => Ret tt;
     instances_get := fun _ _ => Ret details;
     operations_get := fun _ _ => Ret polled;
     snapshots_list := fun _ _ => Ret (Some listing);
     snapshots_create := fun _ _ _ => Ret (running "create-1");
     snapshots_delete := fun _ _ => Ret (running "delete-1");
     strftime := fun _ => "20220103-000000";
     epoch := utc_epoch |}.

(** A service no request reaches: every one of them times out. *)
Definition unreachable : Env :=
  {| build := fun _ => Ret tt;
     instances_get := fun _ _ => Raise SocketTimeout;
     operations_get := fun _ _ => Raise SocketTimeout;
     snapshots_list := fun _ _ => Raise SocketTimeout;
     snapshots_create := fun _ _ _ => Raise SocketTimeout;
     snapshots_delete := fun _ _ => Raise SocketTimeout;
     strftime := fun _ => "20220103-000000";
     epoch := utc_epoch |}.

Definition two_daily : list Snapshot :=
  [ready "sched-daily-20220101-000000"; ready "sched-daily-20220102-000000"].

(** A controller as [__init__] leaves it on [two_daily]. *)
Definition filer (max : Z) : FilestoreInstance :=
  {| retention_policy := "daily"; url := instance_url; name := "i";
     max_snapshots := max; filestore_instance_json := Some enterprise;
     snapshots := Some two_daily;
     scheduler_snapshots := map snap_name two_daily;
     oldest_sched_snapshot := Some (snapshot_url "sched-daily-20220101-000000") |}.

Definition spec_of (path : string) (snapshots : json) : json :=
  JObj [("instance_path", JStr path); ("snapshots", snapshots)].

Definition request_of (policy : string) (instances : list json) : json :=
  JObj [("retention_policy", JStr policy); ("instances", JArr instances)].

(** 241 snapshots taken by hand, [manual-000] to [manual-240]. *)
Definition three_digits (n : nat) : string :=
  String (ascii_of_nat (48 + n / 100))
    (String (ascii_of_nat (48 + (n / 10) mod 10))
       (String (ascii_of_nat (48 + n mod 10)) EmptyString)).

Definition crowded : list Snapshot :=
  map (fun n => ready ("manual-" ++ three_digits n)%string) (seq 0 241).

(** The controller of an instance that holds [crowded]. *)
Definition crowded_filer : FilestoreInstance :=
  {| retention_policy := "daily"; url := instance_url; name := "i";
     max_snapshots := 2; filestore_instance_json := Some enterprise;
     snapshots := Some crowded; scheduler_snapshots := [];
     oldest_sched_snapshot := None |}.

(** A snapshot of the policy [daily] beside one of the policy [daily-eu]. *)
Definition mixed : list Snapshot :=
  [ready "sched-daily-20220101-000000"; ready "sched-daily-eu-20220102-000000"].

(** The object as it stands when [__init__] calls
    [get_scheduler_snapshots_list] on [mixed], and when it goes on to
    [get_oldest_scheduler_snapshot]. *)
Definition mixed_listed : FilestoreInstance :=
  {| retention_policy := "daily"; url := instance_url; name := "i";
     max_snapshots := 2; filestore_instance_json := Some enterprise;
     snapshots := Some mixed; scheduler_snapshots := [];
     oldest_sched_snapshot := None |}.

Definition mixed_filtered : FilestoreInstance :=
  set_scheduler_snapshots (map snap_name mixed) mixed_listed.

(** A service on which listing the snapshots always times out. *)
Definition listing_down : Env :=
  {| build := fun _ => Ret tt;
     instances_get := fun _ _ => Ret enterprise;
     operations_get := fun _ _ => Ret (succeeded "create-1");
     snapshots_list := fun _ _ => Raise SocketTimeout;
     snapshots_create := fun _ _ _ => Ret (running "create-1");
     snapshots_delete := fun _ _ => Ret (running "delete-1");
     strftime := fun _ => "20220103-000000";
     epoch := utc_epoch |}.

(** A request whose first instance asks for ["abc"] snapshots. *)
Definition other_url : string := "projects/p/locations/l/instances/j".

Definition misspelt_request : json :=
  request_of "daily"
    [spec_of instance_url (JStr "abc"); spec_of other_url (JStr "2")].

Definition plain_request : json :=
  request_of "daily" [spec_of instance_url (JStr "2")].

(** A request that names nine instances. *)
Definition ninefold_request : json :=
  request_of "daily" (repeat (spec_of instance_url (JStr "2")) 9).

End Fake.

(** * Properties *)

Import filestore_instance.

(** ** Request validation *)

(** On a well-shaped request [validate_json] is the conjunction of the four
    bounds. *)
Lemma validate_json_shaped (fields : list (string * json)) (policy : string)
    (instances : list json) :
  lookup "retention_policy" fields = Some (JStr policy) ->
  lookup "instances" fields = Some (JArr instances) ->
  main.validate_json (JObj fields)
  = Ret ((1 <=? String.length policy)%nat && (String.length policy <=? 50)%nat
         && (1 <=? List.length instances)%nat
         && (List.length instances <=? 8)%nat).
Proof.
  intros Hp Hi.
  unfold main.validate_json, main.validate_json_schema, get, rbind, len.
  rewrite Hp, Hi. cbn [negb andb].
  destruct policy as [|c policy].
  - reflexivity.
  - cbn [truthy String.eqb negb].
    change (1 <=? String.length (String c policy))%nat with true.
    cbn [andb].
    destruct (Z.of_nat (String.length (String c policy))
              >? main.RETENTION_NAME_LENGTH) eqn:Hlen.
    + apply Z.gtb_lt in Hlen. unfold main.RETENTION_NAME_LENGTH in Hlen.
      replace (String.length (String c policy) <=? 50)%nat with false
        by (symmetry; apply Nat.leb_gt; lia).
      reflexivity.
    + rewrite Z.gtb_ltb, Z.ltb_ge in Hlen.
      unfold main.RETENTION_NAME_LENGTH in Hlen.
      replace (String.length (String c policy) <=? 50)%nat with true
        by (symmetry; apply Nat.leb_le; lia).
      destruct instances as [|i instances].
      * reflexivity.
      * cbn [truthy negb andb].
        change (1 <=? List.length (i :: instances))%nat with true.
        cbn [andb].
        destruct (Z.of_nat (List.length (i :: instances)) >? main.MAX_INSTANCES)
          eqn:Hn.
        -- apply Z.gtb_lt in Hn. unfold main.MAX_INSTANCES in Hn.
           replace (List.length (i :: instances) <=? 8)%nat with false
             by (symmetry; apply Nat.leb_gt; lia).
           reflexivity.
        -- rewrite Z.gtb_ltb, Z.ltb_ge in Hn. unfold main.MAX_INSTANCES in Hn.
           replace (List.length (i :: instances) <=? 8)%nat with true
             by (symmetry; apply Nat.leb_le; lia).
           reflexivity.
Qed.

(** Anything else is refused. *)
Lemma validate_json_misshaped (request_json : json) :
  (forall fields policy instances,
      request_json = JObj fields ->
      lookup "retention_policy" fields = Some (JStr policy) ->
      lookup "instances" fields = Some (JArr instances) -> False) ->
  main.validate_json request_json = Ret false.
Proof.
  intros Hno.
  destruct request_json as [| | | | |items|fields]; try reflexivity.
  unfold main.validate_json, main.validate_json_schema, get, rbind.
  destruct (lookup "retention_policy" fields) as [[| | | |p| |]|] eqn:Hp;
    try reflexivity;
    destruct (lookup "instances" fields) as [[| | | | |l|]|] eqn:Hi;
    try reflexivity;
    try (exfalso; eapply Hno; eauto; fail);
    cbn [negb andb]; destruct (truthy (JStr p)); cbn [negb]; try reflexivity;
    unfold len; destruct (_ >? _); reflexivity.
Qed.

Lemma validate_json_total (request_json : json) :
  main.validate_json request_json = Ret true
  \/ main.validate_json request_json = Ret false.
Proof.
  destruct request_json as [| | | | |items|fields]; try (right; reflexivity).
  destruct (lookup "retention_policy" fields) as [[| | | |p| |]|] eqn:Hp;
    try (right; apply validate_json_misshaped; intros ? ? ? [= <-] ? ?;
         congruence).
  destruct (lookup "instances" fields) as [[| | | | |l|]|] eqn:Hi;
    try (right; apply validate_json_misshaped; intros ? ? ? [= <-] ? ?;
         congruence).
  rewrite (validate_json_shaped _ _ _ Hp Hi).
  destruct (_ && _); auto.
Qed.

Lemma validate_json_true_iff (request_json : json) :
  main.validate_json request_json = Ret true <-> Spec.valid_request request_json.
Proof.
  split.
  - intros Hv.
    destruct request_json as [| | | | |items|fields]; try discriminate.
    destruct (lookup "retention_policy" fields) as [[| | | |p| |]|] eqn:Hp;
      try (rewrite validate_json_misshaped in Hv;
           [discriminate | intros ? ? ? [= <-] ? ?; congruence]).
    destruct (lookup "instances" fields) as [[| | | | |l|]|] eqn:Hi;
      try (rewrite validate_json_misshaped in Hv;
           [discriminate | intros ? ? ? [= <-] ? ?; congruence]).
    rewrite (validate_json_shaped _ _ _ Hp Hi) in Hv.
    assert (Hb : (1 <=? String.length p)%nat && (String.length p <=? 50)%nat
                 && (1 <=? List.length l)%nat && (List.length l <=? 8)%nat
                 = true) by congruence.
    clear Hv. rename Hb into Hv.
    apply andb_prop in Hv as [Hv H4]. apply andb_prop in Hv as [Hv H3].
    apply andb_prop in Hv as [H1 H2].
    apply Nat.leb_le in H1, H2, H3, H4.
    exists fields, p, l. repeat split; assumption.
  - intros (fields & p & l & -> & Hp & [H1 H2] & Hi & [H3 H4]).
    rewrite (validate_json_shaped _ _ _ Hp Hi).
    apply Nat.leb_le in H1, H2, H3, H4. rewrite H1, H2, H3, H4. reflexivity.
Qed.

Lemma main_rejects (env : Env) (request_json : json) (h : list event) :
  main.validate_json request_json = Ret false ->
  main.main env (Ret request_json) tt h
  = {| st := tt; evs := []; res := Ret "done with error" |}.
Proof.
  intros Hv. unfold main.main, bind, lift. cbn [res st evs]. rewrite Hv.
  reflexivity.
Qed.

(** C9.  [validate_json] answers [True] exactly on the requests the
    specification accepts: an object whose [retention_policy] is a string of 1
    to 50 characters and whose [instances] is an array of 1 to 8 entries.  On
    every other request it answers [False] (it never raises), and [main] then
    returns ["done with error"] without having processed an instance or sent a
    request. *)
Theorem validate_json_accepts_exactly (env : Env) (request_json : json)
    (h : list event) :
  (main.validate_json request_json = Ret true
   <-> Spec.valid_request request_json)
  /\ (~ Spec.valid_request request_json ->
      main.validate_json request_json = Ret false
      /\ main.main env (Ret request_json) tt h
         = {| st := tt; evs := []; res := Ret "done with error" |}).
Proof.
  split.
  - apply validate_json_true_iff.
  - intros Hno.
    assert (Hf : main.validate_json request_json = Ret false).
    { destruct (validate_json_total request_json) as [Ht | Hf]; [|exact Hf].
      apply validate_json_true_iff in Ht. contradiction. }
    split; [exact Hf | apply main_rejects; exact Hf].
Qed.

(** A request with nine instances is refused as a whole. *)
Lemma validate_json_accepts_exactly_witness :
  main.validate_json Fake.ninefold_request = Ret false
  /\ main.main Fake.unreachable (Ret Fake.ninefold_request) tt []
     = {| st := tt; evs := []; res := Ret "done with error" |}.
Proof.
  refine (proj2 (validate_json_accepts_exactly Fake.unreachable
                   Fake.ninefold_request []) _).
  intros (fields & policy & instances & Heq & _ & _ & Hi & Hlen).
  injection Heq as <-. vm_compute in Hi. injection Hi as <-.
  vm_compute in Hlen. destruct Hlen as [_ Hlen].
  repeat apply le_S_n in Hlen. inversion Hlen.
Defined.

(** ** Traces and the basic combinators *)

Lemma count_app (p : event -> bool) (l1 l2 : list event) :
  count p (l1 ++ l2) = (count p l1 + count p l2)%nat.
Proof.
  unfold count. rewrite filter_app, length_app. reflexivity.
Qed.

Lemma count_zero_iff (p : event -> bool) (l : list event) :
  count p l = 0%nat <-> Forall (fun e => p e = false) l.
Proof.
  unfold count. induction l as [|e l IH]; simpl.
  - split; intros; [constructor | reflexivity].
  - destruct (p e) eqn:He; simpl.
    + split; [discriminate | intros H; inversion H; congruence].
    + rewrite IH. split; intros H; [constructor; assumption | inversion H; assumption].
Qed.

Lemma sleeps_app (l1 l2 : list event) :
  sleeps (l1 ++ l2) = sleeps l1 ++ sleeps l2.
Proof.
  unfold sleeps. apply flat_map_app.
Qed.

Lemma bind_run {S A B} (m : M S A) (k : A -> M S B) (s : S) (h : list event) :
  bind m k s h
  = match res (m s h) with
    | Ret a =>
        {| st := st (k a (st (m s h)) (h ++ evs (m s h)));
           evs := evs (m s h) ++ evs (k a (st (m s h)) (h ++ evs (m s h)));
           res := res (k a (st (m s h)) (h ++ evs (m s h))) |}
    | Raise x => {| st := st (m s h); evs := evs (m s h); res := Raise x |}
    end.
Proof.
  reflexivity.
Qed.

Lemma get_self_run {S} (s : S) (h : list event) :
  get_self s h = {| st := s; evs := []; res := Ret s |}.
Proof.
  reflexivity.
Qed.

Lemma lift_run {S A} (r : result A) (s : S) (h : list event) :
  lift r s h = {| st := s; evs := []; res := r |}.
Proof.
  reflexivity.
Qed.

Lemma try_run {S A} (m : M S A) (handled : exn -> bool) (s : S)
    (h : list event) :
  try m handled s h
  = {| st := st (m s h); evs := evs (m s h);
       res := match res (m s h) with
              | Ret a => Ret (inl a)
              | Raise x => if handled x then Ret (inr x) else Raise x
              end |}.
Proof.
  unfold try. destruct (res (m s h)); reflexivity.
Qed.

Lemma ret_run {S A} (a : A) (s : S) (h : list event) :
  ret a s h = {| st := s; evs := []; res := Ret a |}.
Proof.
  reflexivity.
Qed.

Lemma flat_map_after_map {X Y Z} (f : Y -> list Z) (g : X -> Y) (l : list X) :
  flat_map f (map g l) = flat_map (fun x => f (g x)) l.
Proof.
  induction l as [|x l IH]; cbn; [reflexivity | rewrite IH; reflexivity].
Qed.

(** One turn of the loop of [retry_wrapper]. *)
Lemma retry_loop_step {S A} (func : M S (option A)) (retries backoff : Z)
    (k : nat) (s : S) (h : list event) :
  retry_loop func retries backoff (Datatypes.S k) s h
  = match res (func s h) with
    | Ret a =>
        {| st := st (func s h); evs := evs (func s h) ++ []; res := Ret a |}
    | Raise x =>
        if caught x then
          let pause := Sleep (backoff ^ (retries - Z.of_nat (Datatypes.S k) + 1)) in
          let o' := retry_loop func retries backoff k (st (func s h))
                      ((h ++ evs (func s h)) ++ [pause]) in
          {| st := st o'; evs := evs (func s h) ++ pause :: evs o';
             res := res o' |}
        else {| st := st (func s h); evs := evs (func s h); res := Raise x |}
    end.
Proof.
  cbn [retry_loop]. unfold bind, try, ret, emit. cbn [res st evs].
  destruct (res (func s h)) as [a | x]; cbn [res st evs].
  - reflexivity.
  - destruct (caught x); cbn [res st evs]; reflexivity.
Qed.

Lemma retry_run {S A} (op : opname) (func : M S (option A))
    (retries backoff : Z) (s : S) (h : list event) :
  retry op func retries backoff s h
  = let o := retry_loop func retries backoff (Z.to_nat retries) s
               (h ++ [Enter op]) in
    {| st := st o; evs := Enter op :: evs o; res := res o |}.
Proof.
  reflexivity.
Qed.

Section RetryLoop.

Context {S A : Type}.
Variable func : M S (option A).
Variables retries backoff : Z.

(** A function that leaves the object alone is retried without touching it. *)
Lemma retry_loop_st (k : nat) :
  (forall s h, st (func s h) = s) ->
  forall s h, st (retry_loop func retries backoff k s h) = s.
Proof.
  intros Hst. induction k as [|k IH]; intros s h.
  - reflexivity.
  - rewrite retry_loop_step.
    destruct (res (func s h)) as [a | x]; cbn [st].
    + apply Hst.
    + destruct (caught x); cbn [st]; [rewrite IH|]; apply Hst.
Qed.

(** Every event of the retried call is one of the function's or a sleep. *)
Lemma retry_loop_Forall (P : event -> Prop) (k : nat) (s : S) :
  (forall s h, st (func s h) = s) ->
  (forall h, Forall P (evs (func s h))) ->
  (forall z, P (Sleep z)) ->
  forall h, Forall P (evs (retry_loop func retries backoff k s h)).
Proof.
  intros Hst Hf Hs. induction k as [|k IH]; intros h.
  - constructor.
  - rewrite retry_loop_step.
    destruct (res (func s h)) as [a | x]; cbn [evs].
    + rewrite app_nil_r. apply Hf.
    + destruct (caught x); cbn [evs].
      * apply Forall_app. split; [apply Hf|].
        constructor; [apply Hs | rewrite Hst; apply IH].
      * apply Hf.
Qed.

(** The function runs at most [k] times. *)
Lemma retry_loop_count (p : event -> bool) (n k : nat) :
  (forall s h, (count p (evs (func s h)) <= n)%nat) ->
  (forall z, p (Sleep z) = false) ->
  forall s h,
    (count p (evs (retry_loop func retries backoff k s h)) <= k * n)%nat.
Proof.
  intros Hf Hs. induction k as [|k IH]; intros s h.
  - cbn. lia.
  - rewrite retry_loop_step. specialize (Hf s h).
    destruct (res (func s h)) as [a | x]; cbn [evs].
    + rewrite app_nil_r. lia.
    + destruct (caught x); cbn [evs]; [|lia].
      rewrite count_app.
      change (?e :: ?l) with ([e] ++ l). rewrite count_app.
      unfold count at 2. cbn [filter]. rewrite Hs. cbn [List.length].
      specialize (IH (st (func s h))
                    ((h ++ evs (func s h))
                     ++ [Sleep (backoff ^ (retries - Z.of_nat (Datatypes.S k) + 1))])).
      lia.
Qed.

(** Events that only a run that was not retried can leave occur at most as
    often as in one run. *)
Lemma retry_loop_count_last (p : event -> bool) (n k : nat) :
  (forall s h, (count p (evs (func s h)) <= n)%nat) ->
  (forall s h x, res (func s h) = Raise x -> caught x = true ->
                 count p (evs (func s h)) = 0%nat) ->
  (forall z, p (Sleep z) = false) ->
  forall s h,
    (count p (evs (retry_loop func retries backoff k s h)) <= n)%nat.
Proof.
  intros Hf Hr Hs. induction k as [|k IH]; intros s h.
  - cbn. lia.
  - rewrite retry_loop_step. specialize (Hf s h). specialize (Hr s h).
    destruct (res (func s h)) as [a | x]; cbn [evs].
    + rewrite app_nil_r. lia.
    + destruct (caught x) eqn:Hx; cbn [evs]; [|lia].
      rewrite count_app, (Hr x eq_refl Hx).
      change (?e :: ?l) with ([e] ++ l). rewrite count_app.
      unfold count at 1. cbn [filter]. rewrite Hs. cbn [List.length].
      apply IH.
Qed.

(** When every run fails with an exception that [retry_wrapper] catches, the
    call falls out of the loop: it returns [None], having run the function
    [k] times and slept after each of them. *)
Lemma retry_loop_exhausted (k : nat) :
  (forall s h, exists x, res (func s h) = Raise x /\ caught x = true) ->
  (forall s h, sleeps (evs (func s h)) = []) ->
  forall s h,
    res (retry_loop func retries backoff k s h) = Ret None
    /\ sleeps (evs (retry_loop func retries backoff k s h))
       = map (fun i => backoff ^ (retries - Z.of_nat k + Z.of_nat i)) (seq 1 k).
Proof.
  intros Hf Hq. induction k as [|k IH]; intros s h.
  - split; reflexivity.
  - rewrite retry_loop_step.
    destruct (Hf s h) as (x & Hx & Hc). rewrite Hx, Hc. cbn [res evs].
    destruct (IH (st (func s h))
                ((h ++ evs (func s h))
                 ++ [Sleep (backoff ^ (retries - Z.of_nat (Datatypes.S k) + 1))]))
      as [IHr IHs].
    split; [exact IHr|].
    rewrite sleeps_app, Hq. cbn [app].
    change (?e :: ?l) with ([e] ++ l). rewrite sleeps_app, IHs.
    cbn [sleeps flat_map app seq map].
    apply f_equal2.
    + f_equal; lia.
    + rewrite <- (seq_shift k 1), map_map. apply map_ext. intros i.
      f_equal; lia.
Qed.

End RetryLoop.

(** ** The decorated methods *)

Section Retry.

Context {S A : Type}.
Variable op : opname.
Variable func : M S (option A).
Variables retries backoff : Z.

Lemma retry_st :
  (forall s h, st (func s h) = s) ->
  forall s h, st (retry op func retries backoff s h) = s.
Proof.
  intros Hst s h. rewrite retry_run. cbn [st]. apply retry_loop_st, Hst.
Qed.

Lemma retry_Forall (P : event -> Prop) (s : S) :
  (forall s h, st (func s h) = s) ->
  (forall h, Forall P (evs (func s h))) ->
  (forall z, P (Sleep z)) ->
  P (Enter op) ->
  forall h, Forall P (evs (retry op func retries backoff s h)).
Proof.
  intros Hst Hf Hs He h. rewrite retry_run. cbn [evs].
  constructor; [exact He | apply retry_loop_Forall; assumption].
Qed.

Lemma retry_count (p : event -> bool) (n : nat) :
  (forall s h, (count p (evs (func s h)) <= n)%nat) ->
  (forall z, p (Sleep z) = false) ->
  p (Enter op) = false ->
  forall s h,
    (count p (evs (retry op func retries backoff s h))
     <= Z.to_nat retries * n)%nat.
Proof.
  intros Hf Hs He s h. rewrite retry_run. cbn [evs].
  change (?e :: ?l) with ([e] ++ l). rewrite count_app.
  unfold count at 1. cbn [filter]. rewrite He. cbn [List.length].
  apply retry_loop_count; assumption.
Qed.

Lemma retry_count_last (p : event -> bool) (n : nat) :
  (forall s h, (count p (evs (func s h)) <= n)%nat) ->
  (forall s h x, res (func s h) = Raise x -> caught x = true ->
                 count p (evs (func s h)) = 0%nat) ->
  (forall z, p (Sleep z) = false) ->
  p (Enter op) = false ->
  forall s h, (count p (evs (retry op func retries backoff s h)) <= n)%nat.
Proof.
  intros Hf Hr Hs He s h. rewrite retry_run. cbn [evs].
  change (?e :: ?l) with ([e] ++ l). rewrite count_app.
  unfold count at 1. cbn [filter]. rewrite He. cbn [List.length].
  apply retry_loop_count_last; assumption.
Qed.

(** A decorated method is entered once per call. *)
Lemma retry_entered (op' : opname) :
  (forall s h, count (is_enter op') (evs (func s h)) = 0%nat) ->
  forall s h,
    count (is_enter op') (evs (retry op func retries backoff s h))
    = if is_enter op' (Enter op) then 1%nat else 0%nat.
Proof.
  intros Hf s h. rewrite retry_run. cbn [evs].
  change (?e :: ?l) with ([e] ++ l). rewrite count_app.
  assert (H0 : count (is_enter op')
                 (evs (retry_loop func retries backoff (Z.to_nat retries) s
                         (h ++ [Enter op]))) = 0%nat).
  { pose proof (retry_loop_count func retries backoff (is_enter op') 0
                  (Z.to_nat retries)) as H.
    assert (Hle : (count (is_enter op')
                     (evs (retry_loop func retries backoff (Z.to_nat retries) s
                             (h ++ [Enter op]))) <= Z.to_nat retries * 0)%nat).
    { apply H; [intros; rewrite Hf; lia | intros; destruct op'; reflexivity]. }
    lia. }
  rewrite H0. unfold count. cbn [filter].
  destruct (is_enter op' (Enter op)); reflexivity.
Qed.

Lemma retry_exhausted :
  (forall s h, exists x, res (func s h) = Raise x /\ caught x = true) ->
  (forall s h, sleeps (evs (func s h)) = []) ->
  forall s h,
    res (retry op func retries backoff s h) = Ret None
    /\ sleeps (evs (retry op func retries backoff s h))
       = map (fun i => backoff ^ (retries - Z.of_nat (Z.to_nat retries)
                                  + Z.of_nat i))
           (seq 1 (Z.to_nat retries)).
Proof.
  intros Hf Hq s h. rewrite retry_run. cbn [res evs].
  change (?e :: ?l) with ([e] ++ l). rewrite sleeps_app. cbn [sleeps flat_map app].
  apply retry_loop_exhausted; assumption.
Qed.

End Retry.

(** The body of a decorated method sends one request, and does nothing else
    to the object or the trace but, for [_create_snapshot], read the clock. *)
Ltac run_body :=
  intros; unfold bind, get_self, read_clock, execute, ret; cbn [res st evs];
  repeat match goal with
    | |- context [match ?r with Ret _ => _ | Raise _ => _ end] =>
        destruct r; cbn [res st evs]
    | |- context [if ?b then _ else _] => destruct b; cbn [res st evs]
    end;
  cbn [app].

Section Methods.

Variable env : Env.

Lemma get_operation_st (operation_url : string) (s : FilestoreInstance)
    (h : list event) :
  st (_get_operation env operation_url s h) = s.
Proof.
  unfold _get_operation. apply retry_st. run_body; reflexivity.
Qed.

Lemma get_instance_st (s : FilestoreInstance) (h : list event) :
  st (_get_instance env s h) = s.
Proof.
  unfold _get_instance. apply retry_st. run_body; reflexivity.
Qed.

Lemma list_snapshots_st (s : FilestoreInstance) (h : list event) :
  st (_list_snapshots env s h) = s.
Proof.
  unfold _list_snapshots. apply retry_st. run_body; reflexivity.
Qed.

Lemma create_snapshot_st (s : FilestoreInstance) (h : list event) :
  st (_create_snapshot env s h) = s.
Proof.
  unfold _create_snapshot. apply retry_st. run_body; reflexivity.
Qed.

Lemma delete_snapshot_st (s : FilestoreInstance) (h : list event) :
  st (_delete_snapshot env s h) = s.
Proof.
  unfold _delete_snapshot. apply retry_st. run_body; reflexivity.
Qed.

End Methods.

Section Alphabets.

Variable env : Env.
Variable P : event -> Prop.
Hypothesis P_sleep : forall z, P (Sleep z).

(** The events of the decorated methods, for any property that holds of the
    events a method can add. *)
Lemma get_operation_events (operation_url : string) :
  P (Enter OpGetOperation) ->
  (forall f, P (Request (OperationsGet operation_url) f)) ->
  forall s h, Forall P (evs (_get_operation env operation_url s h)).
Proof.
  intros He Hr s. unfold _get_operation. apply retry_Forall; try assumption.
  - run_body; reflexivity.
  - run_body; repeat constructor; apply Hr.
Qed.

Lemma create_snapshot_events :
  P (Enter OpCreateSnapshot) ->
  (forall stamp, P (Strftime stamp)) ->
  (forall parent id f, P (Request (SnapshotsCreate parent id) f)) ->
  forall s h, Forall P (evs (_create_snapshot env s h)).
Proof.
  intros He Hc Hr s. unfold _create_snapshot. apply retry_Forall; try assumption.
  - run_body; reflexivity.
  - run_body; repeat constructor; try apply Hc; apply Hr.
Qed.

Lemma delete_snapshot_events (s : FilestoreInstance) :
  P (Enter OpDeleteSnapshot) ->
  (forall f, P (Request (SnapshotsDelete (oldest_sched_snapshot s)) f)) ->
  forall h, Forall P (evs (_delete_snapshot env s h)).
Proof.
  intros He Hr. unfold _delete_snapshot. apply retry_Forall; try assumption.
  - run_body; reflexivity.
  - run_body; repeat constructor; apply Hr.
Qed.

Lemma get_instance_events (s : FilestoreInstance) :
  P (Enter OpGetInstance) ->
  (forall f, P (Request (InstancesGet (url s)) f)) ->
  forall h, Forall P (evs (_get_instance env s h)).
Proof.
  intros He Hr. unfold _get_instance. apply retry_Forall; try assumption.
  - run_body; reflexivity.
  - run_body; repeat constructor; apply Hr.
Qed.

Lemma list_snapshots_events (s : FilestoreInstance) :
  P (Enter OpListSnapshots) ->
  (forall f, P (Request (SnapshotsList (url s)) f)) ->
  forall h, Forall P (evs (_list_snapshots env s h)).
Proof.
  intros He Hr. unfold _list_snapshots. apply retry_Forall; try assumption.
  - run_body; reflexivity.
  - run_body; repeat constructor; apply Hr.
Qed.

End Alphabets.

(** ** The monitor loop *)

Section Monitor.

Variable env : Env.
Variable operation_url : string.

(** One turn of the loop of [_monitor_operation]: the poll, then the verdict
    on what it answered. *)
Lemma monitor_loop_step (monitor_attempts : Z) (k : nat)
    (s : FilestoreInstance) (h : list event) :
  monitor_loop env operation_url monitor_attempts (Datatypes.S k) s h
  = let p := _get_operation env operation_url s h in
    match res p with
    | Raise x => {| st := st p; evs := evs p; res := Raise x |}
    | Ret None => {| st := st p; evs := evs p; res := Ret false |}
    | Ret (Some details) =>
        match verdict details with
        | Some b => {| st := st p; evs := evs p; res := Ret b |}
        | None =>
            let attempt := monitor_attempts - Z.of_nat (Datatypes.S k) + 1 in
            let pause :=
              if attempt <? monitor_attempts then [Sleep (2 ^ attempt)] else [] in
            let o := monitor_loop env operation_url monitor_attempts k (st p)
                       ((h ++ evs p) ++ pause) in
            {| st := st o; evs := evs p ++ pause ++ evs o; res := res o |}
        end
    end.
Proof.
  cbn [monitor_loop]. unfold bind at 1. cbn zeta.
  destruct (res (_get_operation env operation_url s h)) as [[details|]|x];
    cbn [res st evs]; rewrite ?app_nil_r; try reflexivity.
  unfold verdict.
  destruct (op_done details) as [[|]|].
  - destruct (op_response details) as [[|r rs]|].
    + destruct (op_error details); unfold ret; cbn [res st evs];
        rewrite ?app_nil_r; try reflexivity.
      unfold bind, emit, ret.
      destruct (_ <? _); cbn [res st evs app]; rewrite ?app_nil_r; reflexivity.
    + unfold ret; cbn [res st evs]; rewrite ?app_nil_r; reflexivity.
    + destruct (op_error details); unfold ret; cbn [res st evs];
        rewrite ?app_nil_r; try reflexivity.
      unfold bind, emit, ret.
      destruct (_ <? _); cbn [res st evs app]; rewrite ?app_nil_r; reflexivity.
  - unfold bind, emit, ret.
    destruct (_ <? _); cbn [res st evs app]; rewrite ?app_nil_r; reflexivity.
  - unfold bind, emit, ret.
    destruct (_ <? _); cbn [res st evs app]; rewrite ?app_nil_r; reflexivity.
Qed.

Lemma monitor_loop_st (monitor_attempts : Z) (k : nat) :
  forall s h, st (monitor_loop env operation_url monitor_attempts k s h) = s.
Proof.
  induction k as [|k IH]; intros s h.
  - reflexivity.
  - rewrite monitor_loop_step. cbn zeta.
    pose proof (get_operation_st env operation_url s h) as Hp.
    destruct (res (_get_operation env operation_url s h)) as [[details|]|x];
      cbn [st]; try exact Hp.
    destruct (verdict details); cbn [st]; [exact Hp|].
    rewrite IH. exact Hp.
Qed.

Lemma monitor_loop_events (P : event -> Prop) (monitor_attempts : Z) (k : nat) :
  (forall z, P (Sleep z)) ->
  P (Enter OpGetOperation) ->
  (forall f, P (Request (OperationsGet operation_url) f)) ->
  forall s h, Forall P (evs (monitor_loop env operation_url monitor_attempts k s h)).
Proof.
  intros Hs He Hr. induction k as [|k IH]; intros s h.
  - constructor.
  - rewrite monitor_loop_step. cbn zeta.
    pose proof (get_operation_events env P Hs operation_url He Hr s h) as Hp.
    destruct (res (_get_operation env operation_url s h)) as [[details|]|x];
      cbn [evs]; try exact Hp.
    destruct (verdict details); cbn [evs]; [exact Hp|].
    apply Forall_app. split; [exact Hp|].
    apply Forall_app. split; [|apply IH].
    destruct (_ <? _); repeat constructor. apply Hs.
Qed.

(** The loop polls at most [k] times, and each poll sends at most
    [MAX_RETRIES] requests. *)
Lemma monitor_loop_polls (monitor_attempts : Z) (k : nat) :
  forall s h,
    (count (is_enter OpGetOperation)
       (evs (monitor_loop env operation_url monitor_attempts k s h)) <= k)%nat
    /\ (count is_request
          (evs (monitor_loop env operation_url monitor_attempts k s h))
        <= k * 3)%nat.
Proof.
  induction k as [|k IH]; intros s h.
  - split; cbn; lia.
  - rewrite monitor_loop_step. cbn zeta.
    assert (Hen : count (is_enter OpGetOperation)
                    (evs (_get_operation env operation_url s h)) = 1%nat).
    { unfold _get_operation. rewrite retry_entered; [reflexivity|].
      run_body; reflexivity. }
    assert (Hrq : (count is_request
                     (evs (_get_operation env operation_url s h)) <= 3)%nat).
    { unfold _get_operation.
      pose proof (fun func => @retry_count FilestoreInstance Operation
                    OpGetOperation func MAX_RETRIES 2 is_request 1) as H.
      cbn in H. eapply Nat.le_trans; [apply H|]; try reflexivity; try lia.
      run_body; cbn; lia. }
    destruct (res (_get_operation env operation_url s h)) as [[details|]|x];
      cbn [evs]; try (split; lia).
    destruct (verdict details); cbn [evs]; try (split; lia).
    rewrite !count_app.
    destruct (IH (st (_get_operation env operation_url s h))
                ((h ++ evs (_get_operation env operation_url s h))
                 ++ (if monitor_attempts - Z.of_nat (Datatypes.S k) + 1
                        <? monitor_attempts
                     then [Sleep (2 ^ (monitor_attempts
                                       - Z.of_nat (Datatypes.S k) + 1))]
                     else []))) as [IH1 IH2].
    destruct (_ <? _); cbn [count filter is_enter is_request List.length] in *;
      split; lia.
Qed.

End Monitor.

Section MonitorExhausted.

Variable env : Env.
Variable operation_url : string.

(** A poll that the service answers at the first attempt. *)
Lemma get_operation_answered (s : FilestoreInstance) (h : list event)
    (details : Operation) :
  operations_get env (h ++ [Enter OpGetOperation]) operation_url = Ret details ->
  _get_operation env operation_url s h
  = {| st := s;
       evs := [Enter OpGetOperation; Request (OperationsGet operation_url) None];
       res := Ret (Some details) |}.
Proof.
  intros Ha. unfold _get_operation. rewrite retry_run.
  change (Z.to_nat MAX_RETRIES) with 3%nat. rewrite retry_loop_step.
  unfold bind, execute, ret. cbn [res st evs]. rewrite Ha. reflexivity.
Qed.

(** While the polls are answered and give no verdict, the loop goes on to its
    last attempt and then returns [False]. *)
Lemma monitor_loop_patient (monitor_attempts : Z) (k : nat) :
  (forall h, exists details,
      operations_get env h operation_url = Ret details
      /\ verdict details = None) ->
  forall s h,
    monitor_loop env operation_url monitor_attempts k s h
    = {| st := s; evs := patient_trace operation_url monitor_attempts k;
         res := Ret false |}.
Proof.
  intros Hq. induction k as [|k IH]; intros s h.
  - reflexivity.
  - rewrite monitor_loop_step. cbn zeta.
    destruct (Hq (h ++ [Enter OpGetOperation])) as (details & Ha & Hv).
    rewrite (get_operation_answered s h details Ha). cbn [res st evs].
    rewrite Hv, IH. cbn [res st evs].
    f_equal. unfold patient_trace. cbn [seq flat_map].
    replace (monitor_attempts - Z.of_nat (Datatypes.S k) + Z.of_nat 1)
      with (monitor_attempts - Z.of_nat (Datatypes.S k) + 1) by lia.
    unfold poll_round. cbn [app]. do 3 f_equal.
    rewrite <- (seq_shift k 1), flat_map_after_map.
    apply flat_map_ext. intros i.
    replace (monitor_attempts - Z.of_nat (Datatypes.S k)
             + Z.of_nat (Datatypes.S i))
      with (monitor_attempts - Z.of_nat k + Z.of_nat i) by lia.
    reflexivity.
Qed.

End MonitorExhausted.

(** ** [increment_retention] *)

Section RetryResult.

Context {S A : Type}.
Variable op : opname.
Variable func : M S (option A).
Variables retries backoff : Z.

(** What a decorated method returns is [None] or what its body returned. *)
Lemma retry_loop_res (Q : option A -> Prop) (k : nat) :
  (forall s h a, res (func s h) = Ret a -> Q a) ->
  Q None ->
  forall s h a, res (retry_loop func retries backoff k s h) = Ret a -> Q a.
Proof.
  intros Hf Hn. induction k as [|k IH]; intros s h a.
  - cbn. intros [= <-]. exact Hn.
  - rewrite retry_loop_step.
    destruct (res (func s h)) as [a' | x] eqn:Hr; cbn [res].
    + intros [= <-]. eapply Hf, Hr.
    + destruct (caught x); cbn [res]; [apply IH | discriminate].
Qed.

Lemma retry_res (Q : option A -> Prop) :
  (forall s h a, res (func s h) = Ret a -> Q a) ->
  Q None ->
  forall s h a, res (retry op func retries backoff s h) = Ret a -> Q a.
Proof.
  intros Hf Hn s h a. rewrite retry_run. cbn [res].
  apply retry_loop_res; assumption.
Qed.

End RetryResult.

Section Increment.

Variable env : Env.

(** The handle [_create_snapshot] returns is never the empty string. *)
Lemma create_snapshot_handle (s : FilestoreInstance) (h : list event)
    (operation_url : string) :
  res (_create_snapshot env s h) = Ret (Some operation_url) ->
  operation_url <> EmptyString.
Proof.
  unfold _create_snapshot. intros Hres.
  refine (retry_res OpCreateSnapshot _ MAX_RETRIES 2
            (fun a => a = Some operation_url -> operation_url <> EmptyString)
            _ _ s h _ Hres eq_refl); [|discriminate].
  clear s h Hres. intros s h a. unfold bind, get_self, read_clock, execute, ret.
  cbn [res st evs].
  destruct (snapshots_create env _ _ _) as [response | x]; cbn [res st evs];
    [|discriminate].
  destruct (String.eqb (op_name response) EmptyString) eqn:He; cbn [negb res];
    intros [= <-]; [discriminate|].
  intros [= <-]. apply String.eqb_neq. exact He.
Qed.


Lemma monitor_operation_st (operation_url : string) (s : FilestoreInstance)
    (h : list event) :
  st (_monitor_operation env operation_url s h) = s.
Proof.
  apply monitor_loop_st.
Qed.

(** The three steps of [increment_retention], with what each leads to. *)
Lemma increment_retention_run (s : FilestoreInstance) (h : list event) :
  increment_retention env s h
  = let c := _create_snapshot env s h in
    match res c with
    | Raise x => {| st := s; evs := evs c; res := Raise x |}
    | Ret None => {| st := s; evs := evs c; res := Ret tt |}
    | Ret (Some operation_url) =>
        let m := _monitor_operation env operation_url s (h ++ evs c) in
        match res m with
        | Raise x => {| st := s; evs := evs c ++ evs m; res := Raise x |}
        | Ret false => {| st := s; evs := evs c ++ evs m; res := Ret tt |}
        | Ret true =>
            if deletion_needed s then
              let d := _delete_snapshot env s ((h ++ evs c) ++ evs m) in
              {| st := s; evs := evs c ++ evs m ++ evs d;
                 res := match res d with
                        | Ret _ => Ret tt
                        | Raise x => Raise x
                        end |}
            else {| st := s; evs := evs c ++ evs m; res := Ret tt |}
        end
    end.
Proof.
  unfold increment_retention. rewrite bind_run. cbn zeta.
  rewrite (create_snapshot_st env s h).
  pose proof (create_snapshot_handle s h) as Hu.
  destruct (res (_create_snapshot env s h)) as [[operation_url|]|x].
  2: { rewrite ret_run. cbn [res st evs]. rewrite app_nil_r. reflexivity. }
  2: { reflexivity. }
  specialize (Hu operation_url eq_refl). apply String.eqb_neq in Hu.
  rewrite Hu. cbn [negb].
  rewrite bind_run, !monitor_operation_st.
  destruct (res (_monitor_operation env operation_url s
                   (h ++ evs (_create_snapshot env s h)))) as [[|]|x];
    cbn [res st evs].
  - rewrite bind_run, get_self_run. cbn [res st evs].
    rewrite !app_nil_r. cbn [app].
    destruct (deletion_needed s).
    + rewrite bind_run, delete_snapshot_st.
      destruct (res (_delete_snapshot env s _)) as [b|x];
        rewrite ?ret_run; cbn [res st evs]; rewrite ?app_nil_r; reflexivity.
    + rewrite ret_run. cbn [res st evs]. rewrite !app_nil_r. reflexivity.
  - rewrite ret_run. cbn [res st evs]. rewrite !app_nil_r. reflexivity.
  - reflexivity.
Qed.

End Increment.

Section Deletion.

Variable env : Env.

Lemma create_snapshot_no_delete (s : FilestoreInstance) (h : list event) :
  count is_delete (evs (_create_snapshot env s h)) = 0%nat.
Proof.
  apply count_zero_iff. apply create_snapshot_events; reflexivity.
Qed.

Lemma monitor_operation_no_delete (operation_url : string)
    (s : FilestoreInstance) (h : list event) :
  count is_delete (evs (_monitor_operation env operation_url s h)) = 0%nat.
Proof.
  apply count_zero_iff. apply monitor_loop_events; reflexivity.
Qed.

Lemma count_weaker (p q : event -> bool) (l : list event) :
  (forall e, p e = true -> q e = true) ->
  (count p l <= count q l)%nat.
Proof.
  intros Hpq. unfold count. induction l as [|e l IH]; cbn [filter].
  - lia.
  - destruct (p e) eqn:Hp.
    + rewrite (Hpq e Hp). cbn [List.length]. lia.
    + destruct (q e); cbn [List.length]; lia.
Qed.

Lemma count_zero_weaker (p q : event -> bool) (l : list event) :
  (forall e, p e = true -> q e = true) ->
  count q l = 0%nat -> count p l = 0%nat.
Proof.
  intros Hpq Hq. pose proof (count_weaker p q l Hpq). lia.
Qed.

Lemma is_delete_of_enter (e : event) :
  is_enter OpDeleteSnapshot e = true -> is_delete e = true.
Proof.
  unfold is_delete. intros ->. reflexivity.
Qed.

Lemma is_delete_of_request (e : event) :
  is_delete_request e = true -> is_delete e = true.
Proof.
  unfold is_delete. intros ->. apply orb_true_r.
Qed.

Lemma is_delete_of_acked (e : event) :
  is_acked_delete e = true -> is_delete e = true.
Proof.
  intros H. apply is_delete_of_request.
  destruct e as [| [] [] | |]; try discriminate; reflexivity.
Qed.

(** One call of [_delete_snapshot]: it is entered once, sends at most
    [MAX_RETRIES] requests, and at most one of them is answered. *)
Lemma delete_snapshot_counts (s : FilestoreInstance) (h : list event) :
  count (is_enter OpDeleteSnapshot) (evs (_delete_snapshot env s h)) = 1%nat
  /\ (count is_delete_request (evs (_delete_snapshot env s h)) <= 3)%nat
  /\ (count is_acked_delete (evs (_delete_snapshot env s h)) <= 1)%nat.
Proof.
  unfold _delete_snapshot. split; [|split].
  - rewrite retry_entered; [reflexivity|]. run_body; reflexivity.
  - change 3%nat with (Z.to_nat MAX_RETRIES * 1)%nat.
    apply retry_count; try reflexivity. run_body; cbn; lia.
  - apply retry_count_last; try reflexivity.
    + run_body; cbn; lia.
    + intros s' h' x. unfold bind, get_self, read_clock, execute, ret. cbn [res st evs].
      destruct (snapshots_delete env _ _); cbn [res st evs app];
        [discriminate | reflexivity].
Qed.

Lemma delete_snapshot_target (s : FilestoreInstance) (h : list event)
    (target : option string) (failure : option exn) :
  In (Request (SnapshotsDelete target) failure) (evs (_delete_snapshot env s h)) ->
  target = oldest_sched_snapshot s.
Proof.
  intros Hin.
  assert (H : Forall (fun e => forall t f, e = Request (SnapshotsDelete t) f ->
                                           t = oldest_sched_snapshot s)
                (evs (_delete_snapshot env s h))).
  { apply delete_snapshot_events.
    - discriminate.
    - discriminate.
    - intros f t f' [= <- _]. reflexivity. }
  rewrite Forall_forall in H. exact (H _ Hin _ _ eq_refl).
Qed.

Lemma no_delete_not_in (l : list event) (target : option string)
    (failure : option exn) :
  count is_delete l = 0%nat ->
  ~ In (Request (SnapshotsDelete target) failure) l.
Proof.
  intros H0 Hin. apply count_zero_iff in H0.
  eapply Forall_forall in H0; [|exact Hin]. discriminate.
Qed.

End Deletion.

Ltac contradict_delete Hin :=
  exfalso; eapply no_delete_not_in; [|exact Hin]; assumption.

(** C1.  One call of [increment_retention] calls [_delete_snapshot] at most
    once: the decorated method is entered at most once, so at most
    [MAX_RETRIES] delete requests go out, at most one of which the service
    answers, and every one of them names [oldest_sched_snapshot], the snapshot
    computed beforehand.  Anything of [_delete_snapshot] shows in the trace
    only if [_create_snapshot] returned a non-empty handle and
    [_monitor_operation] returned [True] on it; when the handle is [None], or
    when monitoring returns [False], the trace holds no delete at all. *)
Theorem increment_retention_deletes_at_most_once (env : Env)
    (self : FilestoreInstance) (h : list event) :
  let run := increment_retention env self h in
  let created := _create_snapshot env self h in
  (count (is_enter OpDeleteSnapshot) (evs run) <= 1)%nat
  /\ (count is_delete_request (evs run) <= 3)%nat
  /\ (count is_acked_delete (evs run) <= 1)%nat
  /\ (forall target failure,
         In (Request (SnapshotsDelete target) failure) (evs run) ->
         target = oldest_sched_snapshot self)
  /\ (count is_delete (evs run) <> 0%nat ->
      exists operation_url,
        res created = Ret (Some operation_url)
        /\ operation_url <> EmptyString
        /\ res (_monitor_operation env operation_url self (h ++ evs created))
           = Ret true)
  /\ (res created = Ret None -> count is_delete (evs run) = 0%nat)
  /\ (forall operation_url,
         res created = Ret (Some operation_url) ->
         res (_monitor_operation env operation_url self (h ++ evs created))
         = Ret false ->
         count is_delete (evs run) = 0%nat).
Proof.
  intros run created. subst run created.
  rewrite increment_retention_run. cbn zeta.
  pose proof (create_snapshot_no_delete env self h) as Hc.
  pose proof (create_snapshot_handle env self h) as Hu.
  assert (Hc' : forall p, (forall e, p e = true -> is_delete e = true) ->
                          count p (evs (_create_snapshot env self h)) = 0%nat)
    by (intros p Hp; eapply count_zero_weaker; eassumption).
  pose proof (Hc' _ is_delete_of_enter) as Hc1.
  pose proof (Hc' _ is_delete_of_request) as Hc2.
  pose proof (Hc' _ is_delete_of_acked) as Hc3.
  destruct (res (_create_snapshot env self h)) as [[operation_url|]|x];
    cbn [evs].
  2, 3: repeat split; try lia; try discriminate; try tauto;
    intros t f Hin; contradict_delete Hin.
  specialize (Hu operation_url eq_refl).
  pose proof (monitor_operation_no_delete env operation_url self
                (h ++ evs (_create_snapshot env self h))) as Hm.
  assert (Hm' : forall p, (forall e, p e = true -> is_delete e = true) ->
                  count p (evs (_monitor_operation env operation_url self
                                  (h ++ evs (_create_snapshot env self h))))
                  = 0%nat)
    by (intros p Hp; eapply count_zero_weaker; eassumption).
  pose proof (Hm' _ is_delete_of_enter) as Hm1.
  pose proof (Hm' _ is_delete_of_request) as Hm2.
  pose proof (Hm' _ is_delete_of_acked) as Hm3.
  destruct (res (_monitor_operation env operation_url self
                   (h ++ evs (_create_snapshot env self h))))
    as [[|]|x] eqn:Hrm; cbn [evs].
  2, 3: rewrite !count_app; repeat split; try lia; try discriminate;
    try (intros t f Hin; apply in_app_or in Hin as [Hin | Hin]; contradict_delete Hin);
    try (intros [= <-]; congruence).
  destruct (deletion_needed self); cbn [evs].
  - destruct (delete_snapshot_counts env self
                ((h ++ evs (_create_snapshot env self h))
                 ++ evs (_monitor_operation env operation_url self
                           (h ++ evs (_create_snapshot env self h)))))
      as (Hd1 & Hd2 & Hd3).
    rewrite !count_app. repeat split; try lia; try discriminate.
    + intros t f Hin. apply in_app_or in Hin as [Hin | Hin];
        [contradict_delete Hin|].
      apply in_app_or in Hin as [Hin | Hin];
        [contradict_delete Hin|].
      eapply delete_snapshot_target, Hin.
    + intros _. exists operation_url. repeat split; assumption.
    + intros u [= <-]. congruence.
  - rewrite !count_app. repeat split; try lia; try discriminate.
    intros t f Hin. apply in_app_or in Hin as [Hin | Hin]; contradict_delete Hin.
Qed.

(** Against a service no request reaches the snapshot is not created, and
    nothing is deleted. *)
Lemma increment_retention_deletes_at_most_once_witness :
  count is_delete (evs (increment_retention Fake.unreachable (Fake.filer 2) []))
  = 0%nat.
Proof.
  refine (proj1 (proj2 (proj2 (proj2 (proj2 (proj2
            (increment_retention_deletes_at_most_once Fake.unreachable
               (Fake.filer 2) [])))))) _).
  vm_compute. reflexivity.
Defined.

(** ** Reasoning about the object and the trace *)

Section Hoare.

Context {S : Type}.

Lemma hoare_bind {A B} (P : S -> Prop) (R : A -> S -> Prop)
    (Q : B -> S -> Prop) (m : M S A) (k : A -> M S B) :
  hoare P m R -> (forall a, hoare (R a) (k a) Q) -> hoare P (bind m k) Q.
Proof.
  intros Hm Hk s h b Hp. rewrite bind_run.
  destruct (res (m s h)) as [a | x] eqn:Hr; cbn [res st]; [|discriminate].
  intros Hb. eapply Hk; [|exact Hb]. eapply Hm; eassumption.
Qed.

Lemma hoare_weaken {A} (P : S -> Prop) (Q Q' : A -> S -> Prop) (m : M S A) :
  hoare P m Q -> (forall a s, Q a s -> Q' a s) -> hoare P m Q'.
Proof.
  intros Hm Hq s h a Hp Hr. eapply Hq, Hm; eassumption.
Qed.

Lemma hoare_any {A} (P : S -> Prop) (m : M S A) :
  hoare P m (fun _ _ => True).
Proof.
  intros s h a _ _. exact I.
Qed.

Lemma hoare_modify (f : S -> S) (Q : unit -> S -> Prop) :
  hoare (fun s => Q tt (f s)) (modify f) Q.
Proof.
  intros s h [] Hq _. exact Hq.
Qed.

Lemma hoare_get_self (P : S -> Prop) :
  hoare P get_self (fun a s => a = s /\ P s).
Proof.
  intros s h a Hp [= <-]. split; [reflexivity | exact Hp].
Qed.

Lemma hoare_lift {A} (P : S -> Prop) (r : result A) :
  hoare P (lift r) (fun a s => r = Ret a /\ P s).
Proof.
  intros s h a Hp Hr. split; [exact Hr | exact Hp].
Qed.

Lemma hoare_raise {A} (P : S -> Prop) (x : exn) (Q : A -> S -> Prop) :
  hoare P (raise x) Q.
Proof.
  intros s h a _ [=].
Qed.

(** Code that leaves the object alone keeps what holds of it. *)
Lemma hoare_frame {A} (P : S -> Prop) (m : M S A) :
  (forall s h, st (m s h) = s) -> hoare P m (fun _ s => P s).
Proof.
  intros Hst s h a Hp _. rewrite Hst. exact Hp.
Qed.

End Hoare.

(** ** The loop of [main] *)

Section Emits.

Context {S : Type}.

Lemma emits_bind {A B} (P : S -> Prop) (R : A -> S -> Prop) (Ev : event -> Prop)
    (m : M S A) (k : A -> M S B) :
  emits P m Ev -> hoare P m R -> (forall a, emits (R a) (k a) Ev) ->
  emits P (bind m k) Ev.
Proof.
  intros Hm Hr Hk s h Hp. rewrite bind_run.
  destruct (res (m s h)) as [a | x] eqn:Hres; cbn [evs].
  - apply Forall_app. split; [apply Hm, Hp|].
    apply Hk. eapply Hr; eassumption.
  - apply Hm, Hp.
Qed.

Lemma emits_silent {A} (P : S -> Prop) (Ev : event -> Prop) (m : M S A) :
  (forall s h, evs (m s h) = []) -> emits P m Ev.
Proof.
  intros Hm s h _. rewrite Hm. constructor.
Qed.

End Emits.

Section MainLoop.

Variable env : Env.

(** The events of a construction: the client is built, the instance is
    fetched, the snapshots are listed. *)
Lemma init_emits (instance_data : json) (policy : string) :
  emits (fun _ => True) (__init__ env instance_data policy)
    (fun e => is_fetch e = true \/ exists z, e = Sleep z).
Proof.
  unfold __init__.
  assert (Hsilent : forall A (m : M FilestoreInstance A),
             (forall s h, evs (m s h) = []) ->
             emits (fun _ => True) m
               (fun e => is_fetch e = true \/ exists z, e = Sleep z))
    by (intros; apply emits_silent; assumption).
  do 7 (eapply emits_bind;
        [apply Hsilent; reflexivity | apply hoare_any | intros ?]).
  eapply emits_bind; [|apply hoare_any | intros ?].
  { intros s h _. unfold _filestore_build, execute.
    destruct (build env h); repeat constructor; left; reflexivity. }
  eapply emits_bind; [|apply hoare_any | intros details].
  { intros s h _. apply get_instance_events; eauto. }
  eapply emits_bind; [apply Hsilent; reflexivity | apply hoare_any | intros ?].
  destruct details as [[|field fields]|];
    try (apply Hsilent; reflexivity).
  eapply emits_bind; [|apply hoare_any | intros listed].
  { intros s h _. apply list_snapshots_events; eauto. }
  do 6 (eapply emits_bind;
        [apply Hsilent; reflexivity | apply hoare_any | intros ?]).
  apply Hsilent; reflexivity.
Qed.

Lemma new_emits (instance_data : json) (policy : string) (h : list event) :
  Forall (fun e => is_fetch e = true \/ exists z, e = Sleep z)
    (evs (new env instance_data policy tt h)).
Proof.
  unfold new. rewrite bind_run. unfold on at 1 2 3.
  cbn [res st evs].
  pose proof (init_emits instance_data policy blank h I) as Hinit.
  destruct (res (__init__ env instance_data policy blank h)); cbn [evs];
    [rewrite ret_run; cbn [evs]; rewrite app_nil_r|]; exact Hinit.
Qed.

(** What [_get_instance] returns is what the service answered. *)
Lemma get_instance_answer (Q : option Instance -> Prop) :
  (forall h n d, instances_get env h n = Ret d -> Q (Some d)) ->
  Q None ->
  hoare (fun _ => True) (_get_instance env) (fun details _ => Q details).
Proof.
  intros Hq Hn s h details _. unfold _get_instance.
  apply (retry_res OpGetInstance _ MAX_RETRIES 2 Q); [|exact Hn].
  clear s h details. intros s h a. unfold bind, get_self, read_clock, execute, ret.
  cbn [res st evs].
  destruct (instances_get env (h ++ []) (url s)) as [d | x] eqn:Hd;
    cbn [res]; [|discriminate].
  intros [= <-]. eapply Hq, Hd.
Qed.

(** The details an object is constructed with are those the service
    answered. *)
Lemma init_details (Q : option Instance -> Prop) (instance_data : json)
    (policy : string) :
  (forall h n d, instances_get env h n = Ret d -> Q (Some d)) ->
  Q None ->
  hoare (fun _ => True) (__init__ env instance_data policy)
    (fun _ self => Q (filestore_instance_json self)).
Proof.
  intros Hq Hn. unfold __init__.
  do 8 (eapply hoare_bind; [apply hoare_any | intros ?]).
  eapply hoare_bind; [apply (get_instance_answer Q Hq Hn) | intros details].
  eapply hoare_bind.
  { eapply hoare_weaken with
      (Q := fun _ s => Q (filestore_instance_json s));
      [|intros ? ? H; exact H].
    intros s h [] Hd _. exact Hd. }
  intros ?.
  destruct details as [[|field fields]|]; try apply hoare_raise.
  eapply hoare_bind; [apply hoare_frame; apply list_snapshots_st | intros ?].
  eapply hoare_bind.
  { eapply hoare_weaken with
      (Q := fun _ s => Q (filestore_instance_json s));
      [|intros ? ? H; exact H].
    intros s h [] Hd _. exact Hd. }
  intros ?.
  eapply hoare_bind; [apply hoare_frame; reflexivity | intros ?].
  eapply hoare_bind; [apply hoare_frame; reflexivity | intros ?].
  eapply hoare_bind.
  { eapply hoare_weaken with
      (Q := fun _ s => Q (filestore_instance_json s));
      [|intros ? ? H; exact H].
    intros s h [] Hd _. exact Hd. }
  intros ?.
  eapply hoare_bind; [apply hoare_frame; reflexivity | intros ?].
  eapply hoare_bind; [apply hoare_frame; reflexivity | intros ?].
  intros s h [] Hd _. exact Hd.
Qed.

Lemma new_details (Q : option Instance -> Prop) (instance_data : json)
    (policy : string) (h : list event) (filer : FilestoreInstance) :
  (forall h n d, instances_get env h n = Ret d -> Q (Some d)) ->
  Q None ->
  res (new env instance_data policy tt h) = Ret filer ->
  Q (filestore_instance_json filer).
Proof.
  intros Hq Hn. unfold new. rewrite bind_run. unfold on at 1 2 3 4.
  cbn [res st evs].
  destruct (res (__init__ env instance_data policy blank h)) as [[]|x] eqn:Hr;
    [|discriminate].
  rewrite ret_run. cbn [res fst]. intros [= <-].
  eapply (init_details Q instance_data policy Hq Hn blank h tt I Hr).
Qed.

(** An object whose tier is not supported does not meet the requirements. *)
Lemma unsupported_not_met (self : FilestoreInstance) (meets : bool) :
  unsupported (filestore_instance_json self) ->
  validate_instance_requirements self = Ret meets -> meets = false.
Proof.
  unfold unsupported, validate_instance_requirements, tier.
  destruct (filestore_instance_json self) as [d|]; [|discriminate].
  intros Hu. cbn [rbind]. rewrite (Hu d eq_refl). cbn [negb]. congruence.
Qed.

(** One turn of the loop on an entry that [validate_instance_input] refuses:
    the entry is skipped, the loop goes on with the others. *)
Lemma main_loop_skips (policy : string) (instance_data : json)
    (rest : list json) (h : list event) :
  main.validate_instance_input instance_data = Ret false ->
  main.main_loop env policy (instance_data :: rest) tt h
  = main.main_loop env policy rest tt h.
Proof.
  intros Hv. cbn [main.main_loop]. rewrite bind_run, !lift_run.
  cbn [res st evs]. rewrite Hv. rewrite bind_run, !ret_run. cbn [res st evs].
  rewrite !app_nil_r. cbn [app].
  destruct (main.main_loop env policy rest tt h). reflexivity.
Qed.

(** Against a service whose instances are of no supported tier,
    the loop only fetches; it reaches neither the creation nor the deletion
    of a snapshot. *)
Lemma main_loop_unsupported_tier (policy : string) (instances : list json) :
  (forall h n d, instances_get env h n = Ret d ->
                 is_in (lookup "tier" d) SUPPORTED_TIERS = false) ->
  emits (fun _ => True) (main.main_loop env policy instances)
    (fun e => is_fetch e = true \/ exists z, e = Sleep z).
Proof.
  intros Htier.
  assert (Hsilent : forall A (m : M unit A),
             (forall s h, evs (m s h) = []) ->
             forall P, emits P m
               (fun e => is_fetch e = true \/ exists z, e = Sleep z))
    by (intros; apply emits_silent; assumption).
  induction instances as [|instance_data rest IH]; cbn [main.main_loop].
  - apply Hsilent. reflexivity.
  - eapply emits_bind; [apply Hsilent; reflexivity | apply hoare_any
                       | intros valid].
    eapply emits_bind; [|apply hoare_any | intros ?; exact IH].
    destruct valid; [|apply Hsilent; reflexivity].
    eapply emits_bind; [apply Hsilent; reflexivity | apply hoare_any
                       | intros instance_path].
    eapply emits_bind with
      (R := fun r _ => match r with
                       | inl filer => unsupported (filestore_instance_json filer)
                       | inr _ => True
                       end).
    + intros s h _. rewrite try_run. cbn [evs]. destruct s.
      apply new_emits.
    + intros [] h r _. rewrite try_run. cbn [res st].
      destruct (res (new env instance_data policy tt h)) as [filer | x] eqn:Hn.
      * intros [= <-].
        apply (new_details unsupported instance_data policy h filer);
          [| intros d [=] | exact Hn].
        intros h' n d Hd d' [= <-]. eapply Htier, Hd.
      * destruct (main.is_instance_not_found x); [|discriminate].
        intros [= <-]. exact I.
    + intros [filer | x]; [|apply Hsilent; reflexivity].
      eapply emits_bind with
        (R := fun meets _ => meets = false).
      * apply Hsilent. reflexivity.
      * intros s h meets Hu Hm. eapply unsupported_not_met; eassumption.
      * intros meets s h ->. constructor.
Qed.

Lemma fetch_is_quiet (e : event) :
  is_fetch e = true \/ (exists z, e = Sleep z) ->
  is_create e = false /\ is_delete e = false.
Proof.
  intros [He | [z ->]]; [|split; reflexivity].
  destruct e as [[]|[] ?| |]; try discriminate; split; reflexivity.
Qed.

(** The same for a whole request. *)
Lemma main_unsupported_tier (request : result json) (h : list event) :
  (forall h n d, instances_get env h n = Ret d ->
                 is_in (lookup "tier" d) SUPPORTED_TIERS = false) ->
  count is_create (evs (main.main env request tt h)) = 0%nat
  /\ count is_delete (evs (main.main env request tt h)) = 0%nat.
Proof.
  intros Htier.
  assert (Hmain : Forall (fun e => is_fetch e = true \/ exists z, e = Sleep z)
                    (evs (main.main env request tt h))).
  { unfold main.main.
    destruct request as [request_json | x];
      [|destruct x; constructor].
    assert (Hsilent : forall A (m : M unit A),
               (forall s h, evs (m s h) = []) ->
               forall P, emits P m
                 (fun e => is_fetch e = true \/ exists z, e = Sleep z))
      by (intros; apply emits_silent; assumption).
    refine (_ tt h I). change (emits (fun _ : unit => True)
      (valid <- lift (main.validate_json request_json) ;;
       if negb valid then ret "done with error"
       else
         retention_policy <- lift (get request_json "retention_policy") ;;
         instances <- lift (getitem request_json "instances") ;;
         match retention_policy, instances with
         | JStr policy, JArr items =>
             main.main_loop env policy items ;; ret "done"
         | _, _ => raise TypeError
         end)
      (fun e => is_fetch e = true \/ exists z, e = Sleep z)).
    eapply emits_bind; [apply Hsilent; reflexivity | apply hoare_any
                       | intros valid].
    destruct valid; cbn [negb]; [|apply Hsilent; reflexivity].
    eapply emits_bind; [apply Hsilent; reflexivity | apply hoare_any
                       | intros policy].
    eapply emits_bind; [apply Hsilent; reflexivity | apply hoare_any
                       | intros instances].
    destruct policy; try (apply Hsilent; reflexivity).
    destruct instances; try (apply Hsilent; reflexivity).
    eapply emits_bind; [apply main_loop_unsupported_tier, Htier | apply hoare_any
                       | intros ?].
    apply Hsilent. reflexivity. }
  split; apply count_zero_iff; eapply Forall_impl; try exact Hmain;
    intros e He; apply fetch_is_quiet in He; tauto.
Qed.

(** [main] returns one of its two strings whenever it returns. *)
Lemma main_returns (request : result json) (h : list event) (answer : string) :
  res (main.main env request tt h) = Ret answer ->
  answer = "done" \/ answer = "done with error".
Proof.
  unfold main.main.
  destruct request as [request_json | []]; try discriminate.
  2: { rewrite ret_run. intros [= <-]. right. reflexivity. }
  rewrite bind_run, !lift_run. cbn [res st evs].
  destruct (main.validate_json request_json) as [[|]|x]; cbn [negb res];
    try discriminate.
  2: { rewrite ret_run. intros [= <-]. right. reflexivity. }
  rewrite bind_run, !lift_run. cbn [res st evs].
  destruct (get request_json "retention_policy") as [policy | x];
    cbn [res]; [|discriminate].
  rewrite bind_run, !lift_run. cbn [res st evs].
  destruct (getitem request_json "instances") as [instances | x];
    cbn [res]; [|discriminate].
  destruct policy; try discriminate. destruct instances; try discriminate.
  rewrite bind_run.
  destruct (res (main.main_loop env s items tt _)); cbn [res];
    [|discriminate].
  rewrite ret_run. intros [= <-]. left. reflexivity.
Qed.

End MainLoop.

Section NotFound.

Variable env : Env.

Lemma res_bind {S A B} (m : M S A) (k : A -> M S B) (s : S) (h : list event) :
  res (bind m k s h)
  = match res (m s h) with
    | Ret a => res (k a (st (m s h)) (h ++ evs (m s h)))
    | Raise x => Raise x
    end.
Proof.
  rewrite bind_run. destruct (res (m s h)); reflexivity.
Qed.

(** An entry that [validate_instance_input] accepts has a count that [int]
    converts. *)
Lemma validate_instance_input_count (instance_data : json) :
  main.validate_instance_input instance_data = Ret true ->
  exists n, rbind (get instance_data "snapshots") int = Ret n.
Proof.
  unfold main.validate_instance_input.
  destruct (get instance_data "instance_path") as [path | x]; cbn [rbind];
    [|discriminate].
  destruct (truthy path); cbn [negb]; [|discriminate].
  destruct (getitem instance_data "instance_path"); cbn [rbind]; [|discriminate].
  destruct (get instance_data "snapshots") as [requested | x]; cbn [rbind];
    [|discriminate].
  destruct (truthy requested); cbn [negb]; [|discriminate].
  destruct (int requested) as [n | x]; cbn [rbind]; [|discriminate].
  intros _. exists n. reflexivity.
Qed.

(** When every attempt to fetch the instance fails, the construction raises
    [InstanceNotFoundError]. *)
Lemma new_not_found (instance_data : json) (policy path : string)
    (h : list event) :
  get instance_data "instance_path" = Ret (JStr path) ->
  main.validate_instance_input instance_data = Ret true ->
  (forall h', build env h' = Ret tt) ->
  (forall h' n, exists x, instances_get env h' n = Raise x /\ caught x = true) ->
  res (new env instance_data policy tt h) = Raise InstanceNotFoundError.
Proof.
  intros Hpath Hvalid Hbuild Hdown.
  destruct (validate_instance_input_count instance_data Hvalid) as [n Hn].
  assert (Hget : forall s h', res (_get_instance env s h') = Ret None).
  { intros s h'. unfold _get_instance. apply retry_exhausted.
    - intros s' h''. unfold bind, get_self, execute. cbn [res st evs].
      destruct (Hdown (h'' ++ []) (url s')) as (x & Hx & Hc).
      rewrite Hx. cbn [res]. eauto.
    - intros s' h''. unfold bind, get_self, read_clock, execute, ret. cbn [res st evs].
      destruct (instances_get env (h'' ++ []) (url s')); reflexivity. }
  unfold new. rewrite res_bind.
  assert (Hinit : res (__init__ env instance_data policy blank h)
                  = Raise InstanceNotFoundError).
  { unfold __init__.
    rewrite res_bind. cbn [modify res st evs].
    rewrite res_bind, lift_run. cbn [res st evs]. rewrite Hpath. cbn [rbind as_str].
    rewrite res_bind. cbn [modify res st evs].
    rewrite res_bind, get_self_run. cbn [res st evs].
    rewrite res_bind. cbn [modify res st evs].
    rewrite res_bind, lift_run. cbn [res st evs]. rewrite Hn.
    rewrite res_bind. cbn [modify res st evs].
    rewrite res_bind. unfold _filestore_build, execute. rewrite !Hbuild.
    cbn [res st evs].
    rewrite res_bind, Hget.
    rewrite res_bind. cbn [modify res st evs]. reflexivity. }
  unfold on. cbn [res]. rewrite Hinit. reflexivity.
Qed.

(** ... and the loop of [main] goes on with the next entry. *)
Lemma main_loop_not_found (instance_data : json) (policy path : string)
    (rest : list json) (h : list event) :
  get instance_data "instance_path" = Ret (JStr path) ->
  main.validate_instance_input instance_data = Ret true ->
  res (new env instance_data policy tt h) = Raise InstanceNotFoundError ->
  res (main.main_loop env policy (instance_data :: rest) tt h)
  = res (main.main_loop env policy rest tt
           (h ++ evs (new env instance_data policy tt h))).
Proof.
  intros Hpath Hvalid Hnew.
  assert (Hitem : getitem instance_data "instance_path" = Ret (JStr path)).
  { unfold get in Hpath. unfold getitem.
    destruct instance_data; try discriminate.
    destruct (lookup "instance_path" fields); [exact Hpath | discriminate]. }
  cbn [main.main_loop].
  rewrite res_bind, lift_run. cbn [res st evs]. rewrite Hvalid.
  rewrite res_bind, bind_run, lift_run. cbn [res st evs]. rewrite Hitem.
  rewrite !app_nil_r.
  rewrite bind_run, !try_run. cbn [res st evs].
  rewrite Hnew. cbn [main.is_instance_not_found res st evs].
  rewrite !ret_run. cbn [res st evs app]. rewrite !app_nil_r.
  destruct (st (new env instance_data policy tt h)). reflexivity.
Qed.

End NotFound.

(** ** The retention count *)

Lemma deletion_needed_iff (self : FilestoreInstance) :
  deletion_needed self = true
  <-> max_snapshots self <= Z.of_nat (List.length (scheduler_snapshots self)).
Proof.
  unfold deletion_needed.
  destruct (Z.eqb_spec (Z.of_nat (List.length (scheduler_snapshots self)))
              (max_snapshots self)) as [He | Hne].
  - split; [lia | reflexivity].
  - rewrite Z.gtb_ltb.
    destruct (Z.ltb_spec (max_snapshots self)
                (Z.of_nat (List.length (scheduler_snapshots self)))).
    + split; [lia | reflexivity].
    + split; [discriminate | lia].
Qed.

(** The run in which the snapshot was created, the creation was confirmed
    and the retention count is reached: one [_delete_snapshot] follows. *)
Lemma increment_retention_deleting (env : Env) (self : FilestoreInstance)
    (h : list event) (operation_url : string) :
  res (_create_snapshot env self h) = Ret (Some operation_url) ->
  res (_monitor_operation env operation_url self
         (h ++ evs (_create_snapshot env self h))) = Ret true ->
  deletion_needed self = true ->
  evs (increment_retention env self h)
  = evs (_create_snapshot env self h)
    ++ evs (_monitor_operation env operation_url self
              (h ++ evs (_create_snapshot env self h)))
    ++ evs (_delete_snapshot env self
              ((h ++ evs (_create_snapshot env self h))
               ++ evs (_monitor_operation env operation_url self
                         (h ++ evs (_create_snapshot env self h))))).
Proof.
  intros Hc Hm Hd. rewrite increment_retention_run. cbn zeta.
  rewrite Hc, Hm, Hd. reflexivity.
Qed.

(** C6.  [deletion_needed] is [True] exactly when the number of scheduler
    snapshots is at least [max_snapshots], so also when the two are equal.
    Whenever it is [True] in a run whose snapshot was created and confirmed,
    be the count equal to [max_snapshots] or any amount above it,
    [_delete_snapshot] is called exactly once: at most one delete request is
    answered, and all of them name [oldest_sched_snapshot]. *)
Theorem deletion_needed_at_or_above_retention (env : Env)
    (self : FilestoreInstance) (h : list event) :
  let count_sched := Z.of_nat (List.length (scheduler_snapshots self)) in
  let run := increment_retention env self h in
  let created := _create_snapshot env self h in
  (deletion_needed self = true <-> count_sched >= max_snapshots self)
  /\ (deletion_needed self = false <-> count_sched < max_snapshots self)
  /\ (count_sched = max_snapshots self -> deletion_needed self = true)
  /\ (forall operation_url,
         res created = Ret (Some operation_url) ->
         res (_monitor_operation env operation_url self (h ++ evs created))
         = Ret true ->
         count_sched >= max_snapshots self ->
         count (is_enter OpDeleteSnapshot) (evs run) = 1%nat
         /\ (count is_acked_delete (evs run) <= 1)%nat
         /\ forall target failure,
              In (Request (SnapshotsDelete target) failure) (evs run) ->
              target = oldest_sched_snapshot self).
Proof.
  intros count_sched run created. subst count_sched run created.
  pose proof (deletion_needed_iff self) as Hiff.
  split; [rewrite Hiff; lia|].
  split.
  { destruct (deletion_needed self) eqn:E; rewrite ?E in Hiff.
    - split; [discriminate|]. intros Hlt.
      assert (max_snapshots self
              <= Z.of_nat (List.length (scheduler_snapshots self)))
        by (apply Hiff; reflexivity).
      lia.
    - split; [|reflexivity]. intros _.
      destruct (Z.lt_ge_cases
                  (Z.of_nat (List.length (scheduler_snapshots self)))
                  (max_snapshots self)) as [Hlt | Hge]; [exact Hlt|].
      apply Hiff in Hge. discriminate. }
  split; [intros He; apply Hiff; lia|].
  intros operation_url Hc Hm Hge.
  assert (Hd : deletion_needed self = true) by (apply Hiff; lia).
  rewrite (increment_retention_deleting env self h operation_url Hc Hm Hd).
  pose proof (create_snapshot_no_delete env self h) as Hc0.
  pose proof (monitor_operation_no_delete env operation_url self
                (h ++ evs (_create_snapshot env self h))) as Hm0.
  destruct (delete_snapshot_counts env self
              ((h ++ evs (_create_snapshot env self h))
               ++ evs (_monitor_operation env operation_url self
                         (h ++ evs (_create_snapshot env self h)))))
    as (Hd1 & _ & Hd3).
  rewrite !count_app.
  rewrite (count_zero_weaker _ _ _ is_delete_of_enter Hc0),
    (count_zero_weaker _ _ _ is_delete_of_enter Hm0),
    (count_zero_weaker _ _ _ is_delete_of_acked Hc0),
    (count_zero_weaker _ _ _ is_delete_of_acked Hm0).
  repeat split; try lia.
  intros t f Hin. apply in_app_or in Hin as [Hin | Hin];
    [contradict_delete Hin|].
  apply in_app_or in Hin as [Hin | Hin]; [contradict_delete Hin|].
  eapply delete_snapshot_target, Hin.
Qed.

(** Two scheduler snapshots against a retention count of one: the count is
    strictly above the target, and one snapshot is deleted. *)
Lemma deletion_needed_at_or_above_retention_witness :
  count (is_enter OpDeleteSnapshot)
    (evs (increment_retention
            (Fake.service Fake.enterprise Fake.two_daily (Fake.succeeded "create-1"))
            (Fake.filer 1) [])) = 1%nat.
Proof.
  refine (proj1 (proj2 (proj2 (proj2
            (deletion_needed_at_or_above_retention
               (Fake.service Fake.enterprise Fake.two_daily
                  (Fake.succeeded "create-1"))
               (Fake.filer 1) [])))
            "projects/p/locations/l/operations/create-1" _ _ _)).
  - vm_compute. reflexivity.
  - vm_compute. reflexivity.
  - vm_compute. discriminate.
Defined.

(** ** Bounded attempts *)

Section Bounded.

Variable env : Env.

Lemma get_operation_requests (operation_url : string) (s : FilestoreInstance)
    (h : list event) :
  count (is_enter OpGetOperation) (evs (_get_operation env operation_url s h))
  = 1%nat
  /\ (count is_request (evs (_get_operation env operation_url s h)) <= 3)%nat.
Proof.
  unfold _get_operation. split.
  - rewrite retry_entered; [reflexivity|]. run_body; reflexivity.
  - change 3%nat with (Z.to_nat MAX_RETRIES * 1)%nat.
    apply retry_count; try reflexivity. run_body; cbn; lia.
Qed.

Lemma get_instance_requests (s : FilestoreInstance) (h : list event) :
  (count is_request (evs (_get_instance env s h)) <= 3)%nat.
Proof.
  unfold _get_instance. change 3%nat with (Z.to_nat MAX_RETRIES * 1)%nat.
  apply retry_count; try reflexivity. run_body; cbn; lia.
Qed.

Lemma list_snapshots_requests (s : FilestoreInstance) (h : list event) :
  (count is_request (evs (_list_snapshots env s h)) <= 3)%nat.
Proof.
  unfold _list_snapshots. change 3%nat with (Z.to_nat MAX_RETRIES * 1)%nat.
  apply retry_count; try reflexivity. run_body; cbn; lia.
Qed.

Lemma create_snapshot_requests (s : FilestoreInstance) (h : list event) :
  (count is_request (evs (_create_snapshot env s h)) <= 3)%nat.
Proof.
  unfold _create_snapshot. change 3%nat with (Z.to_nat MAX_RETRIES * 1)%nat.
  apply retry_count; try reflexivity. run_body; cbn; lia.
Qed.

Lemma delete_snapshot_requests (s : FilestoreInstance) (h : list event) :
  (count is_request (evs (_delete_snapshot env s h)) <= 3)%nat.
Proof.
  unfold _delete_snapshot. change 3%nat with (Z.to_nat MAX_RETRIES * 1)%nat.
  apply retry_count; try reflexivity. run_body; cbn; lia.
Qed.

(** A turn of the monitor loop starts by entering [_get_operation]. *)
Lemma monitor_loop_starts (operation_url : string) (monitor_attempts : Z)
    (k : nat) (s : FilestoreInstance) (h : list event) :
  exists rest,
    evs (monitor_loop env operation_url monitor_attempts (Datatypes.S k) s h)
    = Enter OpGetOperation :: rest.
Proof.
  rewrite monitor_loop_step. cbn zeta.
  assert (Hp : exists rest, evs (_get_operation env operation_url s h)
                            = Enter OpGetOperation :: rest)
    by (unfold _get_operation; rewrite retry_run; cbn [evs]; eauto).
  destruct Hp as [rest Hp].
  destruct (res (_get_operation env operation_url s h)) as [[details|]|x];
    cbn [evs]; eauto.
  destruct (verdict details); cbn [evs]; eauto.
  rewrite Hp. cbn [app]. eauto.
Qed.

(** A poll that returned nothing ends the monitoring with [False]. *)
Lemma monitor_loop_poll_failed (operation_url : string) (monitor_attempts : Z)
    (k : nat) (s : FilestoreInstance) (h : list event) :
  res (_get_operation env operation_url s h) = Ret None ->
  res (monitor_loop env operation_url monitor_attempts (Datatypes.S k) s h)
  = Ret false.
Proof.
  intros Hp. rewrite monitor_loop_step. cbn zeta. rewrite Hp. reflexivity.
Qed.

End Bounded.

(** C7.  Every path through the API is bounded.  [retry_wrapper] runs the
    wrapped function at most [MAX_RETRIES = 3] times (whatever is counted in
    one run is found at most three times as often in the whole call), so each
    of the five decorated methods sends at most three requests; when every run
    fails with an exception the wrapper catches, the call returns [None] after
    sleeping 2, 4 and 8 seconds.  The callers take [None] as the failure of the
    step: [increment_retention] stops after [_create_snapshot] without
    monitoring or deleting, the construction of an object whose instance
    cannot be fetched raises [InstanceNotFoundError] and [main] goes on with
    the next entry, and [_monitor_operation] returns [False] when a poll
    returned nothing.  [_monitor_operation] polls at most 8 times, that
    is sends at most 24 requests; when no poll reaches a verdict it returns
    [False] after the eighth, having slept [2 ^ attempt] seconds after
    attempts 1 to 7. *)
Theorem remote_calls_are_bounded (env : Env) (self : FilestoreInstance)
    (operation_url : string) (h : list event) :
  (forall (A : Type) (op : opname) (func : M FilestoreInstance (option A))
          (p : event -> bool) (n : nat),
      (forall s h', (count p (evs (func s h')) <= n)%nat) ->
      (forall z, p (Sleep z) = false) ->
      p (Enter op) = false ->
      (count p (evs (retry op func MAX_RETRIES 2 self h)) <= 3 * n)%nat)
  /\ ((count is_request (evs (_get_instance env self h)) <= 3)%nat
      /\ (count is_request (evs (_get_operation env operation_url self h)) <= 3)%nat
      /\ (count is_request (evs (_list_snapshots env self h)) <= 3)%nat
      /\ (count is_request (evs (_create_snapshot env self h)) <= 3)%nat
      /\ (count is_request (evs (_delete_snapshot env self h)) <= 3)%nat)
  /\ (forall (A : Type) (op : opname) (func : M FilestoreInstance (option A)),
         (forall s h', exists x, res (func s h') = Raise x /\ caught x = true) ->
         (forall s h', sleeps (evs (func s h')) = []) ->
         res (retry op func MAX_RETRIES 2 self h) = Ret None
         /\ sleeps (evs (retry op func MAX_RETRIES 2 self h)) = [2; 4; 8])
  /\ (res (_create_snapshot env self h) = Ret None ->
      res (increment_retention env self h) = Ret tt
      /\ evs (increment_retention env self h) = evs (_create_snapshot env self h))
  /\ (forall instance_data policy path rest,
         get instance_data "instance_path" = Ret (JStr path) ->
         main.validate_instance_input instance_data = Ret true ->
         (forall h', build env h' = Ret tt) ->
         (forall h' n, exists x,
             instances_get env h' n = Raise x /\ caught x = true) ->
         res (new env instance_data policy tt h) = Raise InstanceNotFoundError
         /\ res (main.main_loop env policy (instance_data :: rest) tt h)
            = res (main.main_loop env policy rest tt
                     (h ++ evs (new env instance_data policy tt h))))
  /\ (res (_get_operation env operation_url self h) = Ret None ->
      res (_monitor_operation env operation_url self h) = Ret false)
  /\ ((count (is_enter OpGetOperation)
         (evs (_monitor_operation env operation_url self h)) <= 8)%nat
      /\ (count is_request
            (evs (_monitor_operation env operation_url self h)) <= 24)%nat)
  /\ ((forall h', exists details,
          operations_get env h' operation_url = Ret details
          /\ verdict details = None) ->
      res (_monitor_operation env operation_url self h) = Ret false
      /\ evs (_monitor_operation env operation_url self h)
         = patient_trace operation_url 8 8
      /\ count (is_enter OpGetOperation)
           (evs (_monitor_operation env operation_url self h)) = 8%nat
      /\ sleeps (evs (_monitor_operation env operation_url self h))
         = [2; 4; 8; 16; 32; 64; 128]).
Proof.
  split.
  { intros A op func p n Hf Hs He.
    change 3%nat with (Z.to_nat MAX_RETRIES). apply retry_count; assumption. }
  split.
  { repeat split.
    - apply get_instance_requests.
    - apply get_operation_requests.
    - apply list_snapshots_requests.
    - apply create_snapshot_requests.
    - apply delete_snapshot_requests. }
  split.
  { intros A op func Hf Hq.
    destruct (retry_exhausted op func MAX_RETRIES 2 Hf Hq self h) as [Hr Hs].
    split; [exact Hr | rewrite Hs; reflexivity]. }
  split.
  { intros Hc. rewrite increment_retention_run. cbn zeta. rewrite Hc.
    split; reflexivity. }
  split.
  { intros instance_data policy path rest Hpath Hvalid Hbuild Hdown.
    assert (Hnew : res (new env instance_data policy tt h)
                   = Raise InstanceNotFoundError)
      by (eapply new_not_found; eassumption).
    split; [exact Hnew | eapply main_loop_not_found; eassumption]. }
  split.
  { intros Hp. apply monitor_loop_poll_failed. exact Hp. }
  split.
  { apply (monitor_loop_polls env operation_url 8 8). }
  intros Hq. unfold _monitor_operation. cbn zeta.
  change (Z.to_nat 8) with 8%nat.
  rewrite (monitor_loop_patient env operation_url 8 8 Hq). cbn [res evs].
  repeat split; reflexivity.
Qed.

(** Against a service no request reaches, [_create_snapshot] gives up after
    three attempts; against one whose operation never finishes, the monitor
    gives up after eight polls. *)
Lemma remote_calls_are_bounded_witness :
  (res (retry OpCreateSnapshot
          (execute (SnapshotsCreate "i" "s")
             (fun h => Raise SocketTimeout : result (option string)))
          MAX_RETRIES 2 (Fake.filer 2) []) = Ret None)
  /\ res (_monitor_operation
            (Fake.service Fake.enterprise Fake.two_daily (Fake.running "create-1"))
            "projects/p/locations/l/operations/create-1" (Fake.filer 2) [])
     = Ret false.
Proof.
  pose proof (remote_calls_are_bounded
                (Fake.service Fake.enterprise Fake.two_daily
                   (Fake.running "create-1"))
                (Fake.filer 2)
                "projects/p/locations/l/operations/create-1" [])
    as (_ & _ & Hnone & _ & _ & _ & _ & Hpatient).
  split.
  - apply Hnone.
    + intros s h'. exists SocketTimeout. split; reflexivity.
    + intros s h'. reflexivity.
  - apply Hpatient. intros h'. eexists. split; reflexivity.
Defined.

(** ** An operation that is done but holds neither response nor error *)

Lemma verdict_hollow (details : Operation) :
  op_done details = Some true ->
  op_response details = None ->
  op_error details = None ->
  verdict details = None.
Proof.
  unfold verdict. intros -> -> ->. reflexivity.
Qed.

(** C10.  A poll that reports [done] without a [response] and without an
    [error] is not taken as final.  On any attempt before the eighth the loop
    sleeps [2 ^ attempt] seconds and enters [_get_operation] again; on the
    eighth it returns [False].  When all eight polls have this shape,
    [_monitor_operation] returns [False] after polling eight times and
    sleeping seven times, and never [True]. *)
Theorem monitor_done_without_outcome (env : Env) (operation_url : string)
    (self : FilestoreInstance) (h : list event) :
  (forall (k : nat) (details : Operation),
      (k <= 6)%nat ->
      res (_get_operation env operation_url self h) = Ret (Some details) ->
      op_done details = Some true ->
      op_response details = None ->
      op_error details = None ->
      exists rest,
        evs (monitor_loop env operation_url 8 (Datatypes.S (Datatypes.S k)) self h)
        = evs (_get_operation env operation_url self h)
          ++ Sleep (2 ^ (7 - Z.of_nat k)) :: Enter OpGetOperation :: rest)
  /\ (forall details : Operation,
         res (_get_operation env operation_url self h) = Ret (Some details) ->
         op_done details = Some true ->
         op_response details = None ->
         op_error details = None ->
         res (monitor_loop env operation_url 8 1 self h) = Ret false
         /\ evs (monitor_loop env operation_url 8 1 self h)
            = evs (_get_operation env operation_url self h))
  /\ ((forall h', exists details,
          operations_get env h' operation_url = Ret details
          /\ op_done details = Some true
          /\ op_response details = None
          /\ op_error details = None) ->
      res (_monitor_operation env operation_url self h) = Ret false
      /\ count is_poll_request
           (evs (_monitor_operation env operation_url self h)) = 8%nat
      /\ sleeps (evs (_monitor_operation env operation_url self h))
         = [2; 4; 8; 16; 32; 64; 128]).
Proof.
  split; [|split].
  - intros k details Hk Hp Hd Hr He.
    rewrite monitor_loop_step. cbn zeta.
    rewrite Hp, (verdict_hollow details Hd Hr He). cbn [evs].
    replace (8 - Z.of_nat (Datatypes.S (Datatypes.S k)) + 1)
      with (7 - Z.of_nat k) by lia.
    replace (7 - Z.of_nat k <? 8) with true by (symmetry; apply Z.ltb_lt; lia).
    destruct (monitor_loop_starts env operation_url 8 k
                (st (_get_operation env operation_url self h))
                ((h ++ evs (_get_operation env operation_url self h))
                 ++ [Sleep (2 ^ (7 - Z.of_nat k))])) as [rest Hrest].
    exists rest. rewrite Hrest. reflexivity.
  - intros details Hp Hd Hr He.
    rewrite monitor_loop_step. cbn zeta.
    rewrite Hp, (verdict_hollow details Hd Hr He). cbn [res evs monitor_loop].
    rewrite ret_run. cbn [res evs]. rewrite app_nil_r.
    split; reflexivity.
  - intros Hq. unfold _monitor_operation. cbn zeta.
    change (Z.to_nat 8) with 8%nat.
    rewrite (monitor_loop_patient env operation_url 8 8).
    + cbn [res evs]. repeat split; reflexivity.
    + intros h'. destruct (Hq h') as (details & Ha & Hd & Hr & He).
      exists details. split; [exact Ha | apply verdict_hollow; assumption].
Qed.

(** A service whose operations are always done and always hollow. *)
Lemma monitor_done_without_outcome_witness :
  res (_monitor_operation
         (Fake.service Fake.enterprise Fake.two_daily (Fake.hollow "create-1"))
         "projects/p/locations/l/operations/create-1" (Fake.filer 2) [])
  = Ret false.
Proof.
  refine (proj1 (proj2 (proj2
            (monitor_done_without_outcome
               (Fake.service Fake.enterprise Fake.two_daily
                  (Fake.hollow "create-1"))
               "projects/p/locations/l/operations/create-1"
               (Fake.filer 2) [])) _)).
  intros h'. eexists. repeat split; reflexivity.
Defined.

(** ** The scheduler snapshots and the oldest of them *)

Lemma scheduler_snapshots_loop_filter (marker : string) (l : list Snapshot) :
  scheduler_snapshots_loop marker l
  = map snap_name
      (filter (fun snapshot =>
                 contains marker (snap_name snapshot)
                 && String.eqb (snap_state snapshot) "READY") l).
Proof.
  induction l as [|snapshot l IH]; cbn [scheduler_snapshots_loop filter map].
  - reflexivity.
  - destruct (contains marker (snap_name snapshot)); cbn [andb].
    + destruct (String.eqb (snap_state snapshot) "READY"); cbn [map];
        rewrite IH; reflexivity.
    + exact IH.
Qed.

Lemma scheduler_snapshots_loop_In (marker : string) (l : list Snapshot)
    (s : string) :
  In s (scheduler_snapshots_loop marker l)
  <-> exists snapshot,
        In snapshot l /\ snap_name snapshot = s
        /\ contains marker s = true /\ snap_state snapshot = "READY".
Proof.
  rewrite scheduler_snapshots_loop_filter, in_map_iff. split.
  - intros (snapshot & <- & Hin). apply filter_In in Hin as [Hin Hb].
    apply andb_prop in Hb as [Hc Hs]. apply String.eqb_eq in Hs.
    exists snapshot. auto.
  - intros (snapshot & Hin & <- & Hc & Hs). exists snapshot.
    split; [reflexivity|]. apply filter_In. split; [exact Hin|].
    rewrite Hc, Hs. reflexivity.
Qed.

Lemma drop_append (a b : string) :
  drop (String.length a) (a ++ b)%string = b.
Proof.
  induction a as [|c a IH]; [reflexivity | exact IH].
Qed.

Lemma append_assoc' (a b c : string) :
  ((a ++ b) ++ c = a ++ (b ++ c))%string.
Proof.
  induction a as [|x a IH]; cbn; [reflexivity | rewrite IH; reflexivity].
Qed.

Lemma length_append (a b : string) :
  String.length (a ++ b)%string = (String.length a + String.length b)%nat.
Proof.
  induction a as [|x a IH]; cbn; [reflexivity | rewrite IH; reflexivity].
Qed.

(** The slice [get_oldest_scheduler_snapshot] takes from a name that follows
    the convention is its timestamp. *)
Lemma drop_marker (policy stamp : string) :
  drop (String.length (SNAP_PREFIX ++ policy)%string + 1)
    (SNAP_PREFIX ++ policy ++ "-" ++ stamp)%string = stamp.
Proof.
  replace (String.length (SNAP_PREFIX ++ policy)%string + 1)%nat
    with (String.length ((SNAP_PREFIX ++ policy) ++ "-")%string)
    by (rewrite length_append; reflexivity).
  replace (SNAP_PREFIX ++ policy ++ "-" ++ stamp)%string
    with (((SNAP_PREFIX ++ policy) ++ "-") ++ stamp)%string
    by (rewrite !append_assoc'; reflexivity).
  apply drop_append.
Qed.

Lemma dict_set_keys (k : string) (v : Z) (d : list (string * Z)) (k' : string) :
  In k' (map fst (dict_set k v d)) <-> k' = k \/ In k' (map fst d).
Proof.
  induction d as [|[k0 v0] d IH]; cbn [dict_set map fst In].
  - split; [intros [H | []]; auto | intros [H | []]; auto].
  - destruct (String.eqb_spec k k0) as [-> | Hne]; cbn [map fst In].
    + split; [intros [H | H]; auto | intros [H | [H | H]]; auto].
    + rewrite IH. split; [intros [H | [H | H]]; auto | intros [H | [H | H]]; auto].
Qed.

Lemma dict_set_entries (k : string) (v : Z) (d : list (string * Z))
    (k' : string) (v' : Z) :
  In (k', v') (dict_set k v d) -> (k', v') = (k, v) \/ In (k', v') d.
Proof.
  induction d as [|[k0 v0] d IH]; cbn [dict_set In].
  - intros [H | []]; auto.
  - destruct (String.eqb k k0); cbn [In].
    + intros [H | H]; auto.
    + intros [H | H]; auto. destruct (IH H); auto.
Qed.

(** [min] returns a key whose value no other value of the [dict] undercuts. *)
Lemma min_from_least (best : string * Z) (d : list (string * Z)) :
  exists v,
    In (min_from best d, v) (best :: d)
    /\ v <= snd best
    /\ forall k' v', In (k', v') d -> v <= v'.
Proof.
  revert best. induction d as [|[k v] d IH]; intros best; cbn [min_from].
  - exists (snd best). destruct best as [kb vb]. cbn.
    split; [left; reflexivity|]. split; [lia | intros ? ? []].
  - destruct (Z.ltb_spec v (snd best)) as [Hlt | Hge].
    + destruct (IH (k, v)) as (m & Hin & Hle & Hall). exists m. cbn [snd] in Hle.
      split; [destruct Hin as [Hin | Hin]; [right; left; exact Hin
                                           | right; right; exact Hin]|].
      split; [lia|].
      intros k' v' [[= <- <-] | Hin']; [lia | eapply Hall, Hin'].
    + destruct (IH best) as (m & Hin & Hle & Hall). exists m.
      split; [destruct Hin as [Hin | Hin]; [left; exact Hin
                                           | right; right; exact Hin]|].
      split; [lia|].
      intros k' v' [[= <- <-] | Hin']; [lia | eapply Hall, Hin'].
Qed.

Lemma dict_min_least (d : list (string * Z)) (k : string) :
  dict_min d = Ret k ->
  exists v, In (k, v) d /\ forall k' v', In (k', v') d -> v <= v'.
Proof.
  destruct d as [|first rest]; cbn [dict_min]; [discriminate|].
  intros [= <-]. destruct (min_from_least first rest) as (v & Hin & Hle & Hall).
  exists v. split; [exact Hin|].
  intros k' v' [Hfirst | Hin']; [subst first; exact Hle | eapply Hall, Hin'].
Qed.

Section Oldest.

Variable env : Env.
Variable n : nat.

Lemma epoch_loop_dated (l : list string) :
  forall d d',
    epoch_loop env n l d = Ret d' ->
    dated env n d ->
    dated env n d'
    /\ forall k, In k (map fst d') <-> In k (map fst d) \/ In k l.
Proof.
  induction l as [|s l IH]; intros d d'; cbn [epoch_loop].
  - intros [= <-] Hd. split; [exact Hd|]. intros k. cbn. tauto.
  - destruct (epoch env (drop n (get_resource_name s))) as [e | x] eqn:He;
      cbn [rbind]; [|discriminate].
    intros Hrun Hd.
    destruct (IH _ _ Hrun) as [Hd' Hkeys].
    + intros k v Hin. apply dict_set_entries in Hin as [[= -> ->] | Hin];
        [exact He | apply Hd, Hin].
    + split; [exact Hd'|]. intros k. rewrite Hkeys, dict_set_keys. cbn [In].
      split; [intros [[H | H] | H]; auto | intros [H | [H | H]]; auto].
Qed.

Lemma epoch_loop_total (l : list string) :
  (forall s, In s l -> exists e, epoch env (drop n (get_resource_name s)) = Ret e) ->
  forall d, exists d', epoch_loop env n l d = Ret d'.
Proof.
  induction l as [|s l IH]; intros Hl d; cbn [epoch_loop].
  - eauto.
  - destruct (Hl s (or_introl eq_refl)) as [e He]. rewrite He. cbn [rbind].
    apply IH. intros s' Hs'. apply Hl. right. exact Hs'.
Qed.

End Oldest.

(** What [get_oldest_scheduler_snapshot] returns, when it returns: a
    scheduler snapshot whose slice has the least epoch. *)
Lemma get_oldest_scheduler_snapshot_least (env : Env)
    (self : FilestoreInstance) (oldest : string) :
  get_oldest_scheduler_snapshot env self = Ret (Some oldest) ->
  let n := (String.length (SNAP_PREFIX ++ retention_policy self)%string + 1)%nat in
  In oldest (scheduler_snapshots self)
  /\ exists e,
       epoch env (drop n (get_resource_name oldest)) = Ret e
       /\ forall s e',
            In s (scheduler_snapshots self) ->
            epoch env (drop n (get_resource_name s)) = Ret e' ->
            e <= e'.
Proof.
  unfold get_oldest_scheduler_snapshot.
  destruct (scheduler_snapshots self) as [|s0 l] eqn:Hs; [discriminate|].
  rewrite <- Hs. cbn zeta.
  destruct (epoch_loop env _ (scheduler_snapshots self) []) as [d | x] eqn:Hd;
    cbn [rbind]; [|discriminate].
  destruct (dict_min d) as [k | x] eqn:Hk; cbn [rbind]; [|discriminate].
  intros [= <-].
  destruct (epoch_loop_dated env _ _ _ _ Hd) as [Hdated Hkeys];
    [intros ? ? []|].
  destruct (dict_min_least d k Hk) as (v & Hin & Hleast).
  split.
  - apply (in_map fst) in Hin. apply Hkeys in Hin as [[] | Hin]. exact Hin.
  - exists v. split; [apply Hdated, Hin|].
    intros s e' Hs' He'.
    assert (Hks : In s (map fst d)) by (apply Hkeys; right; exact Hs').
    apply in_map_iff in Hks as ([k' v'] & Hfst & Hin'). cbn in Hfst. subst k'.
    pose proof (Hdated _ _ Hin') as Hv'. rewrite Hv' in He'.
    injection He' as <-. eapply Hleast, Hin'.
Qed.

(** ... and it does return when every slice parses. *)
Lemma get_oldest_scheduler_snapshot_total (env : Env)
    (self : FilestoreInstance) :
  scheduler_snapshots self <> [] ->
  (forall s, In s (scheduler_snapshots self) ->
     exists e,
       epoch env
         (drop (String.length (SNAP_PREFIX ++ retention_policy self)%string + 1)
            (get_resource_name s)) = Ret e) ->
  exists oldest, get_oldest_scheduler_snapshot env self = Ret (Some oldest).
Proof.
  intros Hne Hall. unfold get_oldest_scheduler_snapshot.
  destruct (scheduler_snapshots self) as [|s0 l] eqn:Hs; [contradiction|].
  rewrite <- Hs in *. cbn zeta.
  destruct (epoch_loop_total env _ _ Hall []) as [d Hd]. rewrite Hd.
  cbn [rbind].
  destruct d as [|first rest].
  - exfalso.
    destruct (epoch_loop_dated env _ _ _ _ Hd) as [_ Hkeys]; [intros ? ? []|].
    assert (Hin : In s0 (map fst (@nil (string * Z))))
      by (apply Hkeys; right; rewrite Hs; left; reflexivity).
    exact Hin.
  - cbn [dict_min rbind]. eauto.
Qed.

(** C5.  [get_oldest_scheduler_snapshot] returns [None] when there is no
    scheduler snapshot.  Otherwise, when the scheduler snapshots are named
    [sched-<retention_policy>-<timestamp>] and their time stamps parse, it
    returns one of them whose time stamp has the least epoch of all.  Of
    [sched-daily-20220101-000000] and [sched-daily-20220102-000000] it returns
    the former. *)
Theorem get_oldest_scheduler_snapshot_is_minimum (env : Env)
    (self : FilestoreInstance) :
  (scheduler_snapshots self = [] ->
   get_oldest_scheduler_snapshot env self = Ret None)
  /\ (scheduler_snapshots self <> [] ->
      (forall s, In s (scheduler_snapshots self) ->
         exists stamp e,
           get_resource_name s
           = (SNAP_PREFIX ++ retention_policy self ++ "-" ++ stamp)%string
           /\ epoch env stamp = Ret e) ->
      exists oldest stamp e,
        get_oldest_scheduler_snapshot env self = Ret (Some oldest)
        /\ In oldest (scheduler_snapshots self)
        /\ get_resource_name oldest
           = (SNAP_PREFIX ++ retention_policy self ++ "-" ++ stamp)%string
        /\ epoch env stamp = Ret e
        /\ forall s stamp' e',
             In s (scheduler_snapshots self) ->
             get_resource_name s
             = (SNAP_PREFIX ++ retention_policy self ++ "-" ++ stamp')%string ->
             epoch env stamp' = Ret e' ->
             e <= e')
  /\ get_oldest_scheduler_snapshot
       (Fake.service Fake.enterprise Fake.two_daily (Fake.succeeded "create-1"))
       (Fake.filer 2)
     = Ret (Some (Fake.snapshot_url "sched-daily-20220101-000000")).
Proof.
  split; [|split].
  - unfold get_oldest_scheduler_snapshot. intros ->. reflexivity.
  - intros Hne Hall.
    destruct (get_oldest_scheduler_snapshot_total env self Hne) as [oldest Ho].
    { intros s Hs. destruct (Hall s Hs) as (stamp & e & Hn & He).
      exists e. rewrite Hn, drop_marker. exact He. }
    destruct (get_oldest_scheduler_snapshot_least env self oldest Ho)
      as (Hin & e & He & Hleast).
    destruct (Hall oldest Hin) as (stamp & e0 & Hn & He0).
    rewrite Hn, drop_marker in He. rewrite He0 in He. injection He as ->.
    exists oldest, stamp, e. repeat split; try assumption.
    intros s stamp' e' Hs Hn' He'. apply (Hleast s e' Hs).
    rewrite Hn', drop_marker. exact He'.
  - vm_compute. reflexivity.
Qed.

(** The two daily snapshots of the example. *)
Lemma get_oldest_scheduler_snapshot_is_minimum_witness :
  exists oldest stamp e,
    get_oldest_scheduler_snapshot
      (Fake.service Fake.enterprise Fake.two_daily (Fake.succeeded "create-1"))
      (Fake.filer 2) = Ret (Some oldest)
    /\ In oldest (scheduler_snapshots (Fake.filer 2))
    /\ get_resource_name oldest = (SNAP_PREFIX ++ "daily" ++ "-" ++ stamp)%string
    /\ epoch (Fake.service Fake.enterprise Fake.two_daily
                (Fake.succeeded "create-1")) stamp = Ret e
    /\ forall s stamp' e',
         In s (scheduler_snapshots (Fake.filer 2)) ->
         get_resource_name s = (SNAP_PREFIX ++ "daily" ++ "-" ++ stamp')%string ->
         epoch (Fake.service Fake.enterprise Fake.two_daily
                  (Fake.succeeded "create-1")) stamp' = Ret e' ->
         e <= e'.
Proof.
  refine (proj1 (proj2
            (get_oldest_scheduler_snapshot_is_minimum
               (Fake.service Fake.enterprise Fake.two_daily
                  (Fake.succeeded "create-1"))
               (Fake.filer 2))) _ _).
  - discriminate.
  - intros s [<- | [<- | []]].
    + exists "20220101-000000", 1640995200. split; vm_compute; reflexivity.
    + exists "20220102-000000", 1641081600. split; vm_compute; reflexivity.
Defined.

(** ** The filter and the naming convention *)

Lemma prefix_contains (sub s : string) :
  String.prefix sub s = true -> contains sub s = true.
Proof.
  intros H. destruct s; cbn [contains]; rewrite H; reflexivity.
Qed.

Lemma prefix_trans (a b c : string) :
  String.prefix a b = true -> String.prefix b c = true ->
  String.prefix a c = true.
Proof.
  revert b c. induction a as [|x a IH]; intros b c; [destruct c; reflexivity|].
  destruct b as [|y b]; [discriminate|]. destruct c as [|z c]; [discriminate|].
  cbn [String.prefix].
  destruct (ascii_dec x y) as [-> | Hxy]; [|discriminate].
  destruct (ascii_dec y z) as [-> | Hyz]; [|discriminate].
  apply IH.
Qed.

(** The first piece of [s.split(sep)] is a prefix of [s]. *)
Lemma split_head (sep : ascii) (s : string) :
  exists piece pieces,
    split sep s = piece :: pieces /\ String.prefix piece s = true.
Proof.
  induction s as [|c rest IH]; cbn [split].
  - exists EmptyString, []. split; reflexivity.
  - destruct IH as (piece & pieces & Hs & Hp).
    destruct (Ascii.eqb c sep).
    + exists EmptyString, (split sep rest). split; reflexivity.
    + rewrite Hs. exists (String c piece), pieces. split; [reflexivity|].
      cbn [String.prefix]. destruct (ascii_dec c c); [exact Hp | contradiction].
Qed.

(** What the last piece of [s.split(sep)] contains, [s] contains. *)
Lemma contains_last_piece (sub : string) (sep : ascii) (s : string) :
  contains sub (last (split sep s) EmptyString) = true ->
  contains sub s = true.
Proof.
  induction s as [|c rest IH]; cbn [split].
  - intros H. exact H.
  - destruct (split_head sep rest) as (piece & pieces & Hs & Hp).
    rewrite Hs in IH.
    destruct (Ascii.eqb c sep).
    + rewrite Hs.
      change (last (EmptyString :: piece :: pieces) EmptyString)
        with (last (piece :: pieces) EmptyString).
      intros H. cbn [contains]. rewrite (IH H). apply orb_true_r.
    + rewrite Hs. destruct pieces as [|next pieces].
      * cbn [last] in *. cbn [contains]. intros H.
        apply orb_prop in H as [H | H].
        -- assert (Hrest : String.prefix (String c piece) (String c rest) = true).
           { cbn [String.prefix].
             destruct (ascii_dec c c); [exact Hp | contradiction]. }
           rewrite (prefix_trans _ _ _ H Hrest). reflexivity.
        -- rewrite (IH H). apply orb_true_r.
      * cbn [last] in *. intros H. cbn [contains]. rewrite (IH H).
        apply orb_true_r.
Qed.

(** Every [READY] snapshot that follows the convention is kept by
    [get_scheduler_snapshots_list]; the converse is what fails. *)
Lemma convention_is_kept (policy : string) (l : list Snapshot)
    (snapshot : Snapshot) :
  In snapshot l ->
  Spec.is_scheduler_snapshot policy snapshot = true ->
  In (snap_name snapshot)
    (scheduler_snapshots_loop (SNAP_PREFIX ++ policy ++ "-")%string l).
Proof.
  intros Hin Hspec. unfold Spec.is_scheduler_snapshot in Hspec.
  apply andb_prop in Hspec as [Hconv Hready].
  unfold Spec.matches_convention in Hconv. cbn zeta in Hconv.
  apply andb_prop in Hconv as [Hprefix _].
  apply scheduler_snapshots_loop_In. exists snapshot.
  repeat split; try assumption.
  - apply (contains_last_piece _ "/"). apply prefix_contains. exact Hprefix.
  - apply String.eqb_eq. exact Hready.
Qed.

(** ** Construction *)

Section Construction.

Variable env : Env.

Lemma init_built (instance_data : json) (policy : string) :
  hoare (fun _ => True) (__init__ env instance_data policy)
    (fun _ self => built env self).
Proof.
  unfold __init__.
  do 8 (eapply hoare_bind; [apply hoare_any | intros ?]).
  eapply hoare_bind; [apply hoare_any | intros details].
  eapply hoare_bind; [apply hoare_any | intros ?].
  destruct details as [[|field fields]|]; try apply hoare_raise.
  eapply hoare_bind; [apply hoare_any | intros listed].
  eapply hoare_bind.
  { eapply hoare_weaken with (Q := fun _ s => snapshots s = listed);
      [|intros ? ? H; exact H].
    intros s h [] _ _. reflexivity. }
  intros ?.
  eapply hoare_bind; [apply hoare_get_self | intros self].
  eapply hoare_bind; [apply hoare_lift | intros sched].
  eapply hoare_bind.
  { eapply hoare_weaken with
      (Q := fun _ s => exists listing,
                snapshots s = Some listing
                /\ scheduler_snapshots s
                   = scheduler_snapshots_loop
                       (SNAP_PREFIX ++ retention_policy s ++ "-")%string listing);
      [|intros ? ? H; exact H].
    intros s h [] (Hsched & Heq & Hsnap) _. subst self. cbn [modify st].
    unfold get_scheduler_snapshots_list in Hsched.
    destruct (snapshots s) as [listing|] eqn:Hs; [|discriminate].
    injection Hsched as <-. exists listing. split; [exact Hs | reflexivity]. }
  intros ?.
  eapply hoare_bind; [apply hoare_get_self | intros self'].
  eapply hoare_bind; [apply hoare_lift | intros oldest].
  intros s h [] (Holdest & Heq & listing & Hsnap & Hsched) _. subst self'.
  cbn [modify st].
  exists listing. repeat split; assumption.
Qed.

(** What the constructor returns is an object [__init__] has completed on. *)
Lemma new_built (instance_data : json) (policy : string) (h : list event)
    (filer : FilestoreInstance) :
  res (new env instance_data policy tt h) = Ret filer -> built env filer.
Proof.
  unfold new. rewrite bind_run. unfold on at 1 2 3 4. cbn [res st evs].
  destruct (res (__init__ env instance_data policy blank h)) as [[]|x] eqn:Hr;
    [|discriminate].
  rewrite ret_run. cbn [res fst]. intros [= <-].
  eapply (init_built instance_data policy blank h tt I Hr).
Qed.

(** The oldest scheduler snapshot of a constructed object is one of the
    snapshots that were listed. *)
Lemma built_oldest_listed (self : FilestoreInstance) (oldest : string) :
  built env self ->
  oldest_sched_snapshot self = Some oldest ->
  exists listing snapshot,
    snapshots self = Some listing
    /\ In snapshot listing
    /\ snap_name snapshot = oldest
    /\ snap_state snapshot = "READY".
Proof.
  intros (listing & Hsnap & Hsched & Hold) Ho. rewrite Ho in Hold.
  destruct (get_oldest_scheduler_snapshot_least env self oldest Hold) as [Hin _].
  rewrite Hsched in Hin. apply scheduler_snapshots_loop_In in Hin
    as (snapshot & Hin & Hname & _ & Hstate).
  exists listing, snapshot. auto.
Qed.

End Construction.

(** ** The view of the controller *)

Section View.

Variable env : Env.

Lemma increment_retention_st (self : FilestoreInstance) (h : list event) :
  st (increment_retention env self h) = self.
Proof.
  rewrite increment_retention_run. cbn zeta.
  destruct (res (_create_snapshot env self h)) as [[operation_url|]|x];
    try reflexivity.
  destruct (res (_monitor_operation env operation_url self _)) as [[|]|x];
    try reflexivity.
  destruct (deletion_needed self); reflexivity.
Qed.

(** Every event of [increment_retention] belongs to the creation, to the
    polls of the operation, or to the deletion of [oldest_sched_snapshot]. *)
Lemma increment_retention_events (P : event -> Prop) (self : FilestoreInstance) :
  (forall z, P (Sleep z)) ->
  (forall stamp, P (Strftime stamp)) ->
  P (Enter OpCreateSnapshot) ->
  (forall parent id f, P (Request (SnapshotsCreate parent id) f)) ->
  P (Enter OpGetOperation) ->
  (forall operation_url f, P (Request (OperationsGet operation_url) f)) ->
  P (Enter OpDeleteSnapshot) ->
  (forall f, P (Request (SnapshotsDelete (oldest_sched_snapshot self)) f)) ->
  forall h, Forall P (evs (increment_retention env self h)).
Proof.
  intros Hs Ht Hec Hc Heg Hg Hed Hd h.
  rewrite increment_retention_run. cbn zeta.
  pose proof (create_snapshot_events env P Hs Hec Ht Hc self h) as Hcreate.
  destruct (res (_create_snapshot env self h)) as [[operation_url|]|x];
    cbn [evs]; try exact Hcreate.
  assert (Hmon : Forall P (evs (_monitor_operation env operation_url self
                                  (h ++ evs (_create_snapshot env self h)))))
    by (apply monitor_loop_events; auto).
  destruct (res (_monitor_operation env operation_url self _)) as [[|]|x];
    cbn [evs]; try (apply Forall_app; split; assumption).
  destruct (deletion_needed self); cbn [evs];
    try (apply Forall_app; split; assumption).
  apply Forall_app. split; [exact Hcreate|].
  apply Forall_app. split; [exact Hmon|].
  apply delete_snapshot_events; assumption.
Qed.

End View.

(** C8.  [increment_retention] leaves the object as it found it, so
    [snapshots], [scheduler_snapshots] and [oldest_sched_snapshot] keep the
    values [__init__] gave them; it fetches neither the instance nor the
    snapshot list again; and whatever it deletes is [oldest_sched_snapshot],
    which for a constructed object is one of the snapshots listed at
    construction.  A snapshot that was not in that listing, as the one created
    in this call, is therefore never the one deleted. *)
Theorem increment_retention_keeps_view (env : Env) (instance_data : json)
    (policy : string) (h0 : list event) (filer : FilestoreInstance)
    (h : list event) :
  res (new env instance_data policy tt h0) = Ret filer ->
  let run := increment_retention env filer h in
  st run = filer
  /\ snapshots (st run) = snapshots filer
  /\ scheduler_snapshots (st run) = scheduler_snapshots filer
  /\ oldest_sched_snapshot (st run) = oldest_sched_snapshot filer
  /\ count is_fetch (evs run) = 0%nat
  /\ (forall target failure,
         In (Request (SnapshotsDelete target) failure) (evs run) ->
         target = oldest_sched_snapshot filer)
  /\ (forall oldest,
         oldest_sched_snapshot filer = Some oldest ->
         exists listing snapshot,
           snapshots filer = Some listing
           /\ In snapshot listing
           /\ snap_name snapshot = oldest)
  /\ (forall listing created target failure,
         snapshots filer = Some listing ->
         ~ In created (map snap_name listing) ->
         In (Request (SnapshotsDelete (Some target)) failure) (evs run) ->
         target <> created).
Proof.
  intros Hnew run. subst run.
  pose proof (new_built env instance_data policy h0 filer Hnew) as Hbuilt.
  rewrite increment_retention_st.
  assert (Htarget : forall target failure,
             In (Request (SnapshotsDelete target) failure)
               (evs (increment_retention env filer h)) ->
             target = oldest_sched_snapshot filer).
  { intros target failure Hin.
    assert (H : Forall (fun e => forall t f, e = Request (SnapshotsDelete t) f ->
                                             t = oldest_sched_snapshot filer)
                  (evs (increment_retention env filer h))).
    { apply increment_retention_events; try discriminate.
      intros f t f' [= <- _]. reflexivity. }
    rewrite Forall_forall in H. exact (H _ Hin _ _ eq_refl). }
  repeat split; try reflexivity.
  - apply count_zero_iff. apply increment_retention_events; reflexivity.
  - exact Htarget.
  - intros oldest Ho.
    destruct (built_oldest_listed env filer oldest Hbuilt Ho)
      as (listing & snapshot & Hl & Hin & Hn & _).
    exists listing, snapshot. auto.
  - intros listing created target failure Hl Hfresh Hin ->.
    apply Htarget in Hin. symmetry in Hin.
    destruct (built_oldest_listed env filer created Hbuilt Hin)
      as (listing' & snapshot & Hl' & Hin' & Hn & _).
    rewrite Hl in Hl'. injection Hl' as <-.
    apply Hfresh. apply in_map_iff. exists snapshot. auto.
Qed.

(** The controller built on the two daily snapshots: the snapshot of the
    third day is created, the one of the first day is deleted. *)
Lemma increment_retention_keeps_view_witness :
  let env := Fake.service Fake.enterprise Fake.two_daily
               (Fake.succeeded "create-1") in
  let run := increment_retention env (Fake.filer 2) [] in
  st run = Fake.filer 2
  /\ count is_fetch (evs run) = 0%nat
  /\ forall target failure,
       In (Request (SnapshotsDelete (Some target)) failure) (evs run) ->
       target <> Fake.snapshot_url "sched-daily-20220103-000000".
Proof.
  pose proof (increment_retention_keeps_view
                (Fake.service Fake.enterprise Fake.two_daily
                   (Fake.succeeded "create-1"))
                (Fake.spec_of Fake.instance_url (JStr "2")) "daily" []
                (Fake.filer 2) []) as H.
  cbv zeta in *.
  destruct H as (Hst & _ & _ & _ & Hfetch & _ & _ & Hfresh).
  - vm_compute. reflexivity.
  - split; [exact Hst|]. split; [exact Hfetch|].
    intros target failure Hin.
    apply (Hfresh Fake.two_daily _ target failure eq_refl); [|exact Hin].
    vm_compute. intros [H | [H | []]]; discriminate.
Defined.

(** ** Where the code and its documentation part *)

(** What [validate_instance_requirements] computes on a constructed object:
    the tier is supported, the instance is [READY], and the number of
    snapshots is not 240. *)
Lemma validate_instance_requirements_computes (self : FilestoreInstance)
    (details : Instance) (listing : list Snapshot) :
  filestore_instance_json self = Some details ->
  snapshots self = Some listing ->
  validate_instance_requirements self
  = Ret (is_in (lookup "tier" details) SUPPORTED_TIERS
         && negb (Z.of_nat (List.length listing) =? MAX_NUMBER_OF_SNAPSHOTS)
         && equals (lookup "state" details) "READY").
Proof.
  intros Hd Hl.
  unfold validate_instance_requirements, tier, state, len_snapshots, rbind.
  rewrite Hd, Hl.
  destruct (is_in (lookup "tier" details) SUPPORTED_TIERS); cbn [negb andb];
    [|reflexivity].
  destruct (Z.of_nat (List.length listing) =? MAX_NUMBER_OF_SNAPSHOTS);
    cbn [negb andb]; [reflexivity|].
  destruct (equals (lookup "state" details) "READY"); reflexivity.
Qed.

(** C2.  The documentation of [validate_instance_requirements] asks that the
    instance "does not reach the number of snapshot limitation", and the
    specification that the count be strictly below 240.  The code compares
    with [==]: on a [READY] instance of a supported tier that holds 241
    snapshots it returns [True], and [main] goes on to create a snapshot on
    it. *)
Theorem validate_instance_requirements_above_limit :
  len_snapshots Fake.crowded_filer = Ret 241
  /\ validate_instance_requirements Fake.crowded_filer = Ret true
  /\ let run := main.main
                  (Fake.service Fake.enterprise Fake.crowded
                     (Fake.succeeded "create-1"))
                  (Ret Fake.plain_request) tt [] in
     res run = Ret "done" /\ count is_create (evs run) = 2%nat.
Proof.
  repeat split; vm_compute; reflexivity.
Qed.

(** C3.  [validate_instance_input] converts [snapshots] with [int] before it
    compares it, and nothing catches what [int] raises: on a request whose
    first instance asks for ["abc"] snapshots, [main] raises [ValueError]
    before the second instance is looked at and before any request is sent.
    [main] also raises when listing the snapshots fails three times:
    [_list_snapshots] returns [None], and iterating over it is a
    [TypeError]. *)
Theorem main_raises_on_unparsable_snapshots (env : Env) (h : list event) :
  main.validate_instance_input
    (Fake.spec_of Fake.instance_url (JStr "abc")) = Raise ValueError
  /\ main.main env (Ret Fake.misspelt_request) tt h
     = {| st := tt; evs := []; res := Raise ValueError |}
  /\ res (main.main Fake.listing_down (Ret Fake.plain_request) tt [])
     = Raise TypeError.
Proof.
  repeat split; vm_compute; reflexivity.
Qed.

(** C4.  [get_scheduler_snapshots_list] keeps the [READY] snapshots whose full
    name contains [sched-<retention_policy>-] anywhere.  Under the policy
    [daily] it keeps [sched-daily-eu-20220102-000000], a snapshot of the
    policy [daily-eu] that does not follow the convention
    [sched-daily-<timestamp>]; it counts towards the retention of [daily], and
    [get_oldest_scheduler_snapshot], which slices the name after
    [sched-daily-], then fails to parse [eu-20220102-000000]. *)
Theorem get_scheduler_snapshots_list_keeps_other_policy :
  get_scheduler_snapshots_list Fake.mixed_listed
  = Ret (map snap_name Fake.mixed)
  /\ map (Spec.is_scheduler_snapshot "daily") Fake.mixed = [true; false]
  /\ get_oldest_scheduler_snapshot
       (Fake.service Fake.enterprise Fake.mixed (Fake.succeeded "create-1"))
       Fake.mixed_filtered
     = Raise ValueError
  /\ res (main.main
            (Fake.service Fake.enterprise Fake.mixed (Fake.succeeded "create-1"))
            (Ret Fake.plain_request) tt [])
     = Raise ValueError.
Proof.
  repeat split; vm_compute; reflexivity.
Qed.

(** * Further properties of the code *)

(** ** Resource names *)

Lemma split_nonempty (sep : ascii) (s : string) : split sep s <> [].
Proof.
  destruct (split_head sep s) as (piece & pieces & Hs & _). congruence.
Qed.

Lemma split_no_slash (s : string) :
  has_slash s = false -> split "/" s = [s].
Proof.
  induction s as [|c rest IH]; cbn [has_slash split]; [reflexivity|].
  intros H. apply orb_false_elim in H as [Hc Hrest].
  rewrite Hc, (IH Hrest). reflexivity.
Qed.

Lemma split_append (a b : string) :
  split "/" (a ++ String "/" b)%string = split "/" a ++ split "/" b.
Proof.
  induction a as [|c a IH]; cbn [append split].
  - reflexivity.
  - rewrite IH. destruct (Ascii.eqb c "/"); [reflexivity|].
    destruct (split "/" a) as [|piece pieces] eqn:Hs;
      [exfalso; eapply split_nonempty; eassumption|].
    reflexivity.
Qed.

Lemma last_append {X} (l1 l2 : list X) (d : X) :
  l2 <> [] -> last (l1 ++ l2) d = last l2 d.
Proof.
  intros Hne. induction l1 as [|x l1 IH]; [reflexivity|].
  cbn [app]. destruct (l1 ++ l2) eqn:Happ.
  - apply app_eq_nil in Happ as [_ ->]. contradiction.
  - rewrite <- IH. reflexivity.
Qed.

Lemma last_In {X} (l : list X) (d : X) : l <> [] -> In (last l d) l.
Proof.
  induction l as [|x l IH]; [contradiction|]. intros _.
  destruct l as [|y l]; [left; reflexivity|].
  right. apply IH. discriminate.
Qed.

Lemma split_pieces (s : string) :
  Forall (fun piece => has_slash piece = false) (split "/" s).
Proof.
  induction s as [|c rest IH]; cbn [split].
  - repeat constructor.
  - destruct (Ascii.eqb c "/") eqn:Hc.
    + constructor; [reflexivity | exact IH].
    + destruct (split "/" rest) as [|piece pieces];
        [repeat constructor; cbn; rewrite Hc; reflexivity|].
      inversion IH as [|? ? Hpiece Hpieces]; subst.
      constructor; [cbn [has_slash]; rewrite Hc; exact Hpiece | exact Hpieces].
Qed.

Lemma get_resource_name_is_last_segment_lemma :
  (forall resource_url, has_slash (get_resource_name resource_url) = false)
  /\ (forall resource_url,
         has_slash resource_url = false ->
         get_resource_name resource_url = resource_url)
  /\ (forall parent id,
         has_slash id = false ->
         get_resource_name (parent ++ "/" ++ id)%string = id).
Proof.
  unfold get_resource_name. split; [|split].
  - intros s. pose proof (split_pieces s) as Hall.
    rewrite Forall_forall in Hall. apply Hall.
    apply last_In, split_nonempty.
  - intros s Hs. rewrite (split_no_slash s Hs). reflexivity.
  - intros parent id Hid. cbn [append]. rewrite split_append.
    rewrite last_append by apply split_nonempty.
    rewrite (split_no_slash id Hid). reflexivity.
Qed.

(** X1.  [get_resource_name] returns the part of a resource path after its
    last slash: the result holds no slash, a path without a slash is returned
    as it is, and the name of [parent/id] is [id] whenever [id] holds no
    slash. *)
Theorem get_resource_name_is_last_segment :
  (forall resource_url, has_slash (get_resource_name resource_url) = false)
  /\ (forall resource_url,
         has_slash resource_url = false ->
         get_resource_name resource_url = resource_url)
  /\ (forall parent id,
         has_slash id = false ->
         get_resource_name (parent ++ "/" ++ id)%string = id).
Proof.
  exact get_resource_name_is_last_segment_lemma.
Qed.

(** The name of a snapshot below an instance. *)
Lemma get_resource_name_is_last_segment_witness :
  get_resource_name
    ("projects/p/locations/l/instances/i/snapshots"
     ++ "/" ++ "sched-daily-20220101-000000")%string
  = "sched-daily-20220101-000000".
Proof.
  apply (proj2 (proj2 get_resource_name_is_last_segment)).
  reflexivity.
Defined.

(** ** The attributes of a constructed object *)

Lemma lstrip_starts (c : ascii) (s : string) :
  starts_with c (lstrip c s) = false.
Proof.
  induction s as [|c' rest IH]; cbn [lstrip]; [reflexivity|].
  destruct (Ascii.eqb c' c) eqn:Hc; [exact IH | cbn; exact Hc].
Qed.

Lemma rstrip_ends (c : ascii) (s : string) :
  ends_with c (rstrip c s) = false.
Proof.
  induction s as [|c' rest IH]; cbn [rstrip]; [reflexivity|].
  destruct (rstrip c rest) as [|x r].
  - destruct (Ascii.eqb c' c) eqn:Hc; [reflexivity | cbn; exact Hc].
  - exact IH.
Qed.

Lemma rstrip_starts (c : ascii) (s : string) :
  starts_with c s = false -> starts_with c (rstrip c s) = false.
Proof.
  destruct s as [|c' rest]; cbn [rstrip starts_with]; [reflexivity|].
  intros Hc. destruct (rstrip c rest); [rewrite Hc|]; cbn; try exact Hc.
Qed.

Lemma lstrip_kept (c : ascii) (s : string) :
  starts_with c s = false -> lstrip c s = s.
Proof.
  destruct s as [|c' rest]; cbn; [reflexivity | intros ->; reflexivity].
Qed.

Lemma rstrip_kept (c : ascii) (s : string) :
  ends_with c s = false -> rstrip c s = s.
Proof.
  induction s as [|c' rest IH]; [reflexivity|].
  cbn [rstrip]. destruct rest as [|x r].
  - cbn. intros ->. reflexivity.
  - intros He. change (ends_with c (String x r) = false) in He.
    rewrite (IH He). reflexivity.
Qed.

Section Attributes.

Variable env : Env.

Lemma filestore_build_st (s : FilestoreInstance) (h : list event) :
  st (_filestore_build env s h) = s.
Proof.
  unfold _filestore_build, execute. destruct (build env h); reflexivity.
Qed.

(** The four attributes [__init__] computes from its arguments. *)
Lemma init_attributes (instance_data : json) (policy : string) :
  hoare (fun _ => True) (__init__ env instance_data policy)
    (fun _ self =>
       exists path n,
         get instance_data "instance_path" = Ret (JStr path)
         /\ rbind (get instance_data "snapshots") int = Ret n
         /\ retention_policy self = policy
         /\ url self = strip "/" (lstrip "/" path)
         /\ name self = get_resource_name (url self)
         /\ max_snapshots self = n).
Proof.
  unfold __init__.
  eapply hoare_bind with (R := fun _ s => retention_policy s = policy).
  { intros s h [] _ _. reflexivity. }
  intros ?.
  eapply hoare_bind; [apply hoare_lift | intros path].
  eapply hoare_bind with
    (R := fun _ s =>
            get instance_data "instance_path" = Ret (JStr path)
            /\ retention_policy s = policy
            /\ url s = strip "/" (lstrip "/" path)).
  { intros s h [] (Hpath & Hpol) _. cbn [modify st]. repeat split; try assumption.
    destruct (get instance_data "instance_path") as [v|]; [|discriminate].
    destruct v; try discriminate. cbn in Hpath. congruence. }
  intros ?.
  eapply hoare_bind; [apply hoare_get_self | intros self].
  eapply hoare_bind with
    (R := fun _ s =>
            get instance_data "instance_path" = Ret (JStr path)
            /\ retention_policy s = policy
            /\ url s = strip "/" (lstrip "/" path)
            /\ name s = get_resource_name (url s)).
  { intros s h [] (-> & Hpath & Hpol & Hurl) _. cbn [modify st].
    repeat split; assumption. }
  intros ?.
  eapply hoare_bind; [apply hoare_lift | intros n].
  set (Inv := fun s : FilestoreInstance =>
                get instance_data "instance_path" = Ret (JStr path)
                /\ rbind (get instance_data "snapshots") int = Ret n
                /\ retention_policy s = policy
                /\ url s = strip "/" (lstrip "/" path)
                /\ name s = get_resource_name (url s)
                /\ max_snapshots s = n).
  assert (Hmodify : forall (f : FilestoreInstance -> FilestoreInstance),
             (forall s, retention_policy (f s) = retention_policy s
                        /\ url (f s) = url s /\ name (f s) = name s
                        /\ max_snapshots (f s) = max_snapshots s) ->
             hoare Inv (modify f) (fun _ s => Inv s)).
  { intros f Hf s h [] (H1 & H2 & H3 & H4 & H5 & H6) _. cbn [modify st].
    destruct (Hf s) as (E1 & E2 & E3 & E4). unfold Inv.
    rewrite E1, E2, E3, E4. repeat split; assumption. }
  eapply hoare_bind with (R := fun _ s => Inv s).
  { intros s h [] (Hn & Hpath & Hpol & Hurl & Hname) _. cbn [modify st].
    repeat split; assumption. }
  intros ?.
  eapply hoare_bind; [apply hoare_frame; apply filestore_build_st | intros ?].
  eapply hoare_bind; [apply hoare_frame; apply get_instance_st | intros details].
  eapply hoare_bind; [apply Hmodify; intros; repeat split | intros ?].
  destruct details as [[|field fields]|]; try apply hoare_raise.
  eapply hoare_bind; [apply hoare_frame; apply list_snapshots_st | intros ?].
  eapply hoare_bind; [apply Hmodify; intros; repeat split | intros ?].
  eapply hoare_bind; [apply hoare_frame; reflexivity | intros ?].
  eapply hoare_bind; [apply hoare_frame; reflexivity | intros ?].
  eapply hoare_bind; [apply Hmodify; intros; repeat split | intros ?].
  eapply hoare_bind; [apply hoare_frame; reflexivity | intros ?].
  eapply hoare_bind; [apply hoare_frame; reflexivity | intros ?].
  eapply hoare_weaken; [apply Hmodify; intros; repeat split|].
  intros [] s (H1 & H2 & H3 & H4 & H5 & H6). exists path, n.
  repeat split; assumption.
Qed.

(** The instance details of a constructed object are there, and not empty. *)
Lemma init_found (instance_data : json) (policy : string) :
  hoare (fun _ => True) (__init__ env instance_data policy)
    (fun _ self =>
       exists field fields,
         filestore_instance_json self = Some (field :: fields)).
Proof.
  unfold __init__.
  do 9 (eapply hoare_bind; [apply hoare_any | intros ?]).
  rename a7 into details.
  eapply hoare_bind with
    (R := fun _ s => filestore_instance_json s = details).
  { intros s h [] _ _. reflexivity. }
  intros ?.
  destruct details as [[|field fields]|]; try apply hoare_raise.
  set (Inv := fun s : FilestoreInstance =>
                filestore_instance_json s = Some (field :: fields)).
  eapply hoare_bind; [apply hoare_frame; apply list_snapshots_st | intros ?].
  eapply hoare_bind with (R := fun _ s => Inv s).
  { intros s h [] Hi _. exact Hi. }
  intros ?.
  eapply hoare_bind; [apply hoare_frame; reflexivity | intros ?].
  eapply hoare_bind; [apply hoare_frame; reflexivity | intros ?].
  eapply hoare_bind with (R := fun _ s => Inv s).
  { intros s h [] Hi _. exact Hi. }
  intros ?.
  eapply hoare_bind; [apply hoare_frame; reflexivity | intros ?].
  eapply hoare_bind; [apply hoare_frame; reflexivity | intros ?].
  intros s h [] Hi _. exists field, fields. exact Hi.
Qed.

(** From [__init__] to the constructor call. *)
Lemma new_hoare (Q : FilestoreInstance -> Prop) (instance_data : json)
    (policy : string) (h : list event) (filer : FilestoreInstance) :
  hoare (fun _ => True) (__init__ env instance_data policy) (fun _ s => Q s) ->
  res (new env instance_data policy tt h) = Ret filer -> Q filer.
Proof.
  intros Hinit. unfold new. rewrite bind_run. unfold on at 1 2 3 4.
  cbn [res st evs].
  destruct (res (__init__ env instance_data policy blank h)) as [[]|x] eqn:Hr;
    [|discriminate].
  rewrite ret_run. cbn [res fst]. intros [= <-].
  exact (Hinit blank h tt I Hr).
Qed.

End Attributes.

(** X2.  A constructed object carries the policy it was given, a [url] that
    is the [instance_path] without its leading and trailing slashes (so it
    neither starts nor ends with one, and a path without such slashes is kept
    as it is), a [name] that is the last segment of the [url], and a
    [max_snapshots] that is [int] of the [snapshots] entry. *)
Theorem constructed_attributes (env : Env) (instance_data : json)
    (policy : string) (h : list event) (filer : FilestoreInstance) :
  res (new env instance_data policy tt h) = Ret filer ->
  exists path n,
    get instance_data "instance_path" = Ret (JStr path)
    /\ rbind (get instance_data "snapshots") int = Ret n
    /\ retention_policy filer = policy
    /\ url filer = strip "/" path
    /\ starts_with "/" (url filer) = false
    /\ ends_with "/" (url filer) = false
    /\ (starts_with "/" path = false -> ends_with "/" path = false ->
        url filer = path)
    /\ name filer = get_resource_name (url filer)
    /\ has_slash (name filer) = false
    /\ max_snapshots filer = n.
Proof.
  intros Hnew.
  destruct (new_hoare env _ instance_data policy h filer
              (init_attributes env instance_data policy) Hnew)
    as (path & n & Hpath & Hn & Hpol & Hurl & Hname & Hmax).
  assert (Hstrip : strip "/" (lstrip "/" path) = strip "/" path).
  { unfold strip. rewrite (lstrip_kept "/" (lstrip "/" path)); [reflexivity|].
    apply lstrip_starts. }
  rewrite Hstrip in Hurl.
  exists path, n. repeat split; try assumption.
  - rewrite Hurl. unfold strip. apply rstrip_starts, lstrip_starts.
  - rewrite Hurl. unfold strip. apply rstrip_ends.
  - intros Hs He. rewrite Hurl. unfold strip.
    rewrite (lstrip_kept _ _ Hs). apply rstrip_kept, He.
  - rewrite Hname.
    apply (proj1 get_resource_name_is_last_segment_lemma).
Qed.

(** A path given with slashes around it. *)
Lemma constructed_attributes_witness :
  exists path n,
    get (Fake.spec_of "/projects/p/locations/l/instances/i/" (JStr "2"))
      "instance_path" = Ret (JStr path)
    /\ url (Fake.filer 2) = strip "/" path
    /\ max_snapshots (Fake.filer 2) = n.
Proof.
  destruct (constructed_attributes
              (Fake.service Fake.enterprise Fake.two_daily
                 (Fake.succeeded "create-1"))
              (Fake.spec_of "/projects/p/locations/l/instances/i/" (JStr "2"))
              "daily" [] (Fake.filer 2))
    as (path & n & Hpath & _ & _ & Hurl & _ & _ & _ & _ & _ & Hmax).
  - vm_compute. reflexivity.
  - exists path, n. repeat split; assumption.
Defined.

(** X3.  On a constructed object [validate_instance_requirements] never
    raises: the instance details and the snapshot list are there, and the
    answer is [True] exactly when the tier is one of [SUPPORTED_TIERS], the
    number of listed snapshots is not 240, and the state is [READY]. *)
Theorem constructed_requirements (env : Env) (instance_data : json)
    (policy : string) (h : list event) (filer : FilestoreInstance) :
  res (new env instance_data policy tt h) = Ret filer ->
  exists details listing,
    filestore_instance_json filer = Some details
    /\ details <> []
    /\ snapshots filer = Some listing
    /\ validate_instance_requirements filer
       = Ret (is_in (lookup "tier" details) SUPPORTED_TIERS
              && negb (Z.of_nat (List.length listing) =? MAX_NUMBER_OF_SNAPSHOTS)
              && equals (lookup "state" details) "READY").
Proof.
  intros Hnew.
  destruct (new_hoare env _ instance_data policy h filer
              (init_found env instance_data policy) Hnew)
    as (field & fields & Hd).
  destruct (new_built env instance_data policy h filer Hnew)
    as (listing & Hl & _).
  exists (field :: fields), listing. repeat split; try assumption.
  - discriminate.
  - apply validate_instance_requirements_computes; assumption.
Qed.

Lemma constructed_requirements_witness :
  exists details listing,
    filestore_instance_json (Fake.filer 2) = Some details
    /\ details <> []
    /\ snapshots (Fake.filer 2) = Some listing
    /\ validate_instance_requirements (Fake.filer 2)
       = Ret (is_in (lookup "tier" details) SUPPORTED_TIERS
              && negb (Z.of_nat (List.length listing) =? MAX_NUMBER_OF_SNAPSHOTS)
              && equals (lookup "state" details) "READY").
Proof.
  apply (constructed_requirements
           (Fake.service Fake.enterprise Fake.two_daily
              (Fake.succeeded "create-1"))
           (Fake.spec_of Fake.instance_url (JStr "2")) "daily" []).
  vm_compute. reflexivity.
Defined.

(** ** The per-instance input *)


(** ** More on [retry] *)

Section RetrySchedule.

Context {S A : Type}.
Variable func : M S (option A).
Variables retries backoff : Z.

(** The sleeps of the loop follow the backoff schedule, one per failed run. *)
Lemma retry_loop_sleeps (k : nat) :
  (forall s h, sleeps (evs (func s h)) = []) ->
  forall s h,
    exists j,
      (j <= k)%nat
      /\ sleeps (evs (retry_loop func retries backoff k s h))
         = map (fun i => backoff ^ (retries - Z.of_nat k + Z.of_nat i)) (seq 1 j)
      /\ (j = k -> res (retry_loop func retries backoff k s h) = Ret None).
Proof.
  intros Hq. induction k as [|k IH]; intros s h.
  - exists 0%nat. repeat split; reflexivity || lia.
  - rewrite retry_loop_step.
    destruct (res (func s h)) as [a | x]; cbn [evs res].
    + exists 0%nat. rewrite app_nil_r, Hq. repeat split; try lia; reflexivity.
    + destruct (caught x); cbn [evs res].
      * destruct (IH (st (func s h))
                    ((h ++ evs (func s h))
                     ++ [Sleep (backoff ^ (retries - Z.of_nat (Datatypes.S k) + 1))]))
          as (j & Hj & Hs & Hr).
        exists (Datatypes.S j). split; [lia|]. split.
        -- rewrite sleeps_app, Hq. cbn [app].
           change (?e :: ?l) with ([e] ++ l). rewrite sleeps_app, Hs.
           cbn [sleeps flat_map app seq map].
           apply f_equal2.
           ++ f_equal; lia.
           ++ rewrite <- (seq_shift j 1), map_map. apply map_ext. intros i.
              f_equal; lia.
        -- intros Hjk. apply Hr. lia.
      * exists 0%nat. rewrite Hq. repeat split; try lia; reflexivity.
Qed.

End RetrySchedule.

(** X5.  [retry_wrapper] ends with the first run of the function that does
    not fail with a caught exception: the outcome of that run, be it a result
    or another exception, is the outcome of the call, and nothing is slept.
    With [retries <= 0] the function is not run at all and the call returns
    [None]. *)
Theorem retry_ends_with_first_outcome (S A : Type) (op : opname)
    (func : M S (option A)) (retries backoff : Z) (s : S) (h : list event) :
  (retries <= 0 ->
   retry op func retries backoff s h
   = {| st := s; evs := [Enter op]; res := Ret None |})
  /\ (0 < retries ->
      (forall x, res (func s (h ++ [Enter op])) = Raise x -> caught x = false) ->
      retry op func retries backoff s h
      = {| st := st (func s (h ++ [Enter op]));
           evs := Enter op :: evs (func s (h ++ [Enter op]));
           res := res (func s (h ++ [Enter op])) |}).
Proof.
  split.
  - intros Hr. rewrite retry_run.
    replace (Z.to_nat retries) with 0%nat by lia. reflexivity.
  - intros Hr Hx. rewrite retry_run.
    destruct (Z.to_nat retries) as [|k] eqn:Hk; [lia|].
    cbn zeta. rewrite retry_loop_step.
    destruct (res (func s (h ++ [Enter op]))) as [a | x] eqn:Hres;
      cbn [st evs res].
    + rewrite app_nil_r. reflexivity.
    + rewrite (Hx x eq_refl). reflexivity.
Qed.

(** A request that fails with an exception [retry] does not catch. *)
Lemma retry_ends_with_first_outcome_witness :
  retry OpGetInstance
    (execute (InstancesGet "i")
       (fun _ => Raise (OtherException "ssl") : result (option Instance)))
    MAX_RETRIES 2 (Fake.filer 2) []
  = {| st := Fake.filer 2;
       evs := [Enter OpGetInstance;
               Request (InstancesGet "i") (Some (OtherException "ssl"))];
       res := Raise (OtherException "ssl") |}.
Proof.
  refine (proj2 (retry_ends_with_first_outcome FilestoreInstance Instance
                   OpGetInstance
                   (execute (InstancesGet "i")
                      (fun _ => Raise (OtherException "ssl")))
                   MAX_RETRIES 2 (Fake.filer 2) []) _ _).
  - reflexivity.
  - intros x [= <-]. reflexivity.
Defined.

(** X6.  The sleeps of a retried call follow the backoff schedule: after the
    [i]-th failed run it sleeps [backoff ^ i] seconds, so the sleeps are
    [backoff ^ 1, ..., backoff ^ j] for some [j <= retries]; when [j] is
    [retries], every run has failed and the call returns [None]. *)
Theorem retry_sleeps_follow_schedule (S A : Type) (op : opname)
    (func : M S (option A)) (retries backoff : Z) (s : S) (h : list event) :
  0 <= retries ->
  (forall s' h', sleeps (evs (func s' h')) = []) ->
  exists j,
    (j <= Z.to_nat retries)%nat
    /\ sleeps (evs (retry op func retries backoff s h))
       = map (fun i => backoff ^ Z.of_nat i) (seq 1 j)
    /\ (j = Z.to_nat retries ->
        res (retry op func retries backoff s h) = Ret None).
Proof.
  intros Hr Hq. rewrite retry_run. cbn [evs res].
  destruct (retry_loop_sleeps func retries backoff (Z.to_nat retries) Hq s
              (h ++ [Enter op])) as (j & Hj & Hs & Hres).
  exists j. split; [exact Hj|]. split; [|exact Hres].
  change (?e :: ?l) with ([e] ++ l). rewrite sleeps_app. cbn [sleeps flat_map app].
  rewrite Hs. apply map_ext. intros i. f_equal. lia.
Qed.

(** Three failed attempts to list the snapshots. *)
Lemma retry_sleeps_follow_schedule_witness :
  exists j,
    (j <= 3)%nat
    /\ sleeps (evs (retry OpListSnapshots
                      (execute (SnapshotsList "i")
                         (fun _ => Raise SocketTimeout
                                   : result (option (list Snapshot))))
                      MAX_RETRIES 2 (Fake.filer 2) []))
       = map (fun i => 2 ^ Z.of_nat i) (seq 1 j)
    /\ (j = 3%nat ->
        res (retry OpListSnapshots
               (execute (SnapshotsList "i")
                  (fun _ => Raise SocketTimeout
                            : result (option (list Snapshot))))
               MAX_RETRIES 2 (Fake.filer 2) []) = Ret None).
Proof.
  apply (retry_sleeps_follow_schedule FilestoreInstance (list Snapshot)
           OpListSnapshots
           (execute (SnapshotsList "i") (fun _ => Raise SocketTimeout))
           MAX_RETRIES 2 (Fake.filer 2) []).
  - unfold MAX_RETRIES. lia.
  - intros s' h'. reflexivity.
Defined.

(** ** More on the monitor *)

Section MonitorVerdict.

Variable env : Env.
Variable operation_url : string.

(** What a poll returns is what the service answered. *)
Lemma get_operation_answer (s : FilestoreInstance) (h : list event)
    (details : Operation) :
  res (_get_operation env operation_url s h) = Ret (Some details) ->
  exists h', operations_get env h' operation_url = Ret details.
Proof.
  unfold _get_operation. intros Hres.
  refine (retry_res OpGetOperation _ MAX_RETRIES 2
            (fun a => a = Some details ->
                      exists h', operations_get env h' operation_url = Ret details)
            _ _ s h _ Hres eq_refl); [|discriminate].
  clear s h Hres. intros s h a. unfold bind, execute, ret. cbn [res st evs].
  destruct (operations_get env h operation_url) as [d | x] eqn:Hd;
    cbn [res]; [|discriminate].
  intros [= <-] [= ->]. eauto.
Qed.

Lemma monitor_loop_true (monitor_attempts : Z) (k : nat) :
  forall s h,
    res (monitor_loop env operation_url monitor_attempts k s h) = Ret true ->
    exists h' details,
      operations_get env h' operation_url = Ret details
      /\ verdict details = Some true.
Proof.
  induction k as [|k IH]; intros s h.
  - cbn. discriminate.
  - rewrite monitor_loop_step. cbn zeta.
    pose proof (get_operation_answer s h) as Hans.
    destruct (res (_get_operation env operation_url s h)) as [[details|]|x];
      cbn [res]; try discriminate.
    destruct (verdict details) as [b|] eqn:Hv; cbn [res].
    + intros [= ->]. destruct (Hans details eq_refl) as [h' Hh']. eauto.
    + apply IH.
Qed.

End MonitorVerdict.

(** X7.  [_monitor_operation] returns [True] only if the service answered a
    poll with an operation that is done and holds a non-empty response. *)
Theorem monitor_success_was_reported (env : Env) (operation_url : string)
    (self : FilestoreInstance) (h : list event) :
  res (_monitor_operation env operation_url self h) = Ret true ->
  exists h' details field fields,
    operations_get env h' operation_url = Ret details
    /\ op_done details = Some true
    /\ op_response details = Some (field :: fields).
Proof.
  intros Hres.
  destruct (monitor_loop_true env operation_url 8 (Z.to_nat 8) self h Hres)
    as (h' & details & Hans & Hv).
  unfold verdict in Hv.
  destruct (op_done details) as [[|]|] eqn:Hd; try discriminate.
  destruct (op_response details) as [[|field fields]|] eqn:Hr.
  - destruct (op_error details); discriminate.
  - exists h', details, field, fields. auto.
  - destruct (op_error details); discriminate.
Qed.

Lemma monitor_success_was_reported_witness :
  exists h' details field fields,
    operations_get
      (Fake.service Fake.enterprise Fake.two_daily (Fake.succeeded "create-1"))
      h' "projects/p/locations/l/operations/create-1" = Ret details
    /\ op_done details = Some true
    /\ op_response details = Some (field :: fields).
Proof.
  apply (monitor_success_was_reported
           (Fake.service Fake.enterprise Fake.two_daily
              (Fake.succeeded "create-1"))
           "projects/p/locations/l/operations/create-1" (Fake.filer 2) []).
  vm_compute. reflexivity.
Defined.

(** X8.  The first poll that reaches a verdict ends the monitoring: when the
    first answer is done with a response the result is [True], when it is done
    with an error (and no response) the result is [False], and in both cases
    one request was sent and nothing was slept. *)
Theorem monitor_stops_at_verdict (env : Env) (operation_url : string)
    (self : FilestoreInstance) (h : list event) (details : Operation)
    (outcome : bool) :
  operations_get env (h ++ [Enter OpGetOperation]) operation_url = Ret details ->
  verdict details = Some outcome ->
  _monitor_operation env operation_url self h
  = {| st := self;
       evs := [Enter OpGetOperation; Request (OperationsGet operation_url) None];
       res := Ret outcome |}.
Proof.
  intros Hans Hv. unfold _monitor_operation. cbn zeta.
  change (Z.to_nat 8) with 8%nat. rewrite monitor_loop_step. cbn zeta.
  rewrite (get_operation_answered env operation_url self h details Hans).
  cbn [res st evs]. rewrite Hv. reflexivity.
Qed.

Lemma monitor_stops_at_verdict_witness :
  _monitor_operation
    (Fake.service Fake.enterprise Fake.two_daily (Fake.succeeded "create-1"))
    "projects/p/locations/l/operations/create-1" (Fake.filer 2) []
  = {| st := Fake.filer 2;
       evs := [Enter OpGetOperation;
               Request (OperationsGet
                          "projects/p/locations/l/operations/create-1") None];
       res := Ret true |}.
Proof.
  apply (monitor_stops_at_verdict
           (Fake.service Fake.enterprise Fake.two_daily
              (Fake.succeeded "create-1"))
           "projects/p/locations/l/operations/create-1" (Fake.filer 2) []
           (Fake.succeeded "create-1") true); reflexivity.
Defined.

(** ** Weights of traces: seconds slept, requests sent *)

Lemma total_app (w : event -> Z) (l1 l2 : list event) :
  total w (l1 ++ l2) = total w l1 + total w l2.
Proof.
  unfold total. induction l1 as [|e l1 IH]; cbn [app fold_right]; lia.
Qed.

Lemma total_count (p : event -> bool) (l : list event) :
  total (one_if p) l = Z.of_nat (count p l).
Proof.
  unfold total, count, one_if.
  induction l as [|e l IH]; cbn [fold_right filter]; [reflexivity|].
  destruct (p e); cbn [List.length]; lia.
Qed.

Lemma slept_sleeps (l : list event) :
  slept l = fold_right Z.add 0 (sleeps l).
Proof.
  unfold slept, total, sleeps.
  induction l as [|e l IH]; cbn [fold_right flat_map]; [reflexivity|].
  rewrite IH. destruct e; reflexivity.
Qed.

Section Weights.

Context {S : Type}.

Lemma bounded_bind {A B} (P : S -> Prop) (R : A -> S -> Prop) (w : event -> Z)
    (n1 n2 : Z) (m : M S A) (k : A -> M S B) :
  0 <= n2 ->
  bounded P m w n1 -> hoare P m R -> (forall a, bounded (R a) (k a) w n2) ->
  bounded P (bind m k) w (n1 + n2).
Proof.
  intros Hn Hm Hr Hk s h Hp. rewrite bind_run. specialize (Hm s h Hp).
  destruct (res (m s h)) as [a | x] eqn:Hres; cbn [evs].
  - rewrite total_app.
    assert (total w (evs (k a (st (m s h)) (h ++ evs (m s h)))) <= n2)
      by (apply Hk; eapply Hr; eassumption).
    lia.
  - lia.
Qed.

Lemma bounded_silent {A} (P : S -> Prop) (w : event -> Z) (m : M S A) :
  (forall s h, evs (m s h) = []) -> bounded P m w 0.
Proof.
  intros Hm s h _. rewrite Hm. reflexivity.
Qed.

Lemma bounded_weaken {A} (P : S -> Prop) (w : event -> Z) (n n' : Z)
    (m : M S A) :
  n <= n' -> bounded P m w n -> bounded P m w n'.
Proof.
  intros Hn Hm s h Hp. specialize (Hm s h Hp). lia.
Qed.

(** A silent step in front of code changes nothing of its weight. *)
Lemma bounded_after {A B} (P : S -> Prop) (w : event -> Z) (n : Z)
    (m : M S A) (k : A -> M S B) :
  0 <= n ->
  (forall s h, evs (m s h) = []) ->
  (forall a, bounded (fun _ => True) (k a) w n) ->
  bounded P (bind m k) w n.
Proof.
  intros Hn Hm Hk.
  replace n with (0 + n) by lia.
  eapply bounded_bind; [exact Hn | apply bounded_silent, Hm | apply hoare_any |].
  exact Hk.
Qed.

End Weights.

(** ** The seconds slept *)

Section Slept.

Variable env : Env.

(** A decorated method sleeps at most [2 + 4 + 8] seconds. *)
Lemma retry_slept {A} (op : opname) (func : M FilestoreInstance (option A))
    (s : FilestoreInstance) (h : list event) :
  (forall s' h', sleeps (evs (func s' h')) = []) ->
  0 <= slept (evs (retry op func MAX_RETRIES 2 s h)) <= 14.
Proof.
  intros Hq. rewrite retry_run. cbn [evs].
  change (?e :: ?l) with ([e] ++ l).
  rewrite slept_sleeps, sleeps_app. cbn [sleeps flat_map app].
  destruct (retry_loop_sleeps func MAX_RETRIES 2 (Z.to_nat MAX_RETRIES) Hq s
              (h ++ [Enter op])) as (j & Hj & Hs & _).
  rewrite Hs. change (Z.to_nat MAX_RETRIES) with 3%nat in Hj.
  destruct j as [|[|[|[|j]]]]; try lia; vm_compute; split; discriminate.
Qed.

Lemma get_instance_slept (s : FilestoreInstance) (h : list event) :
  0 <= slept (evs (_get_instance env s h)) <= 14.
Proof.
  apply retry_slept. run_body; reflexivity.
Qed.

Lemma get_operation_slept (operation_url : string) (s : FilestoreInstance)
    (h : list event) :
  0 <= slept (evs (_get_operation env operation_url s h)) <= 14.
Proof.
  apply retry_slept. run_body; reflexivity.
Qed.

Lemma list_snapshots_slept (s : FilestoreInstance) (h : list event) :
  0 <= slept (evs (_list_snapshots env s h)) <= 14.
Proof.
  apply retry_slept. run_body; reflexivity.
Qed.

Lemma create_snapshot_slept (s : FilestoreInstance) (h : list event) :
  0 <= slept (evs (_create_snapshot env s h)) <= 14.
Proof.
  apply retry_slept. run_body; reflexivity.
Qed.

Lemma delete_snapshot_slept (s : FilestoreInstance) (h : list event) :
  0 <= slept (evs (_delete_snapshot env s h)) <= 14.
Proof.
  apply retry_slept. run_body; reflexivity.
Qed.

Lemma monitor_pauses_nonneg (monitor_attempts : Z) (k : nat) :
  0 <= monitor_pauses monitor_attempts k.
Proof.
  induction k as [|k IH]; [reflexivity|].
  cbn [monitor_pauses]. cbn zeta.
  destruct (_ <? _); [|lia].
  assert (0 <= 2 ^ (monitor_attempts - Z.of_nat (Datatypes.S k) + 1))
    by (apply Z.pow_nonneg; lia).
  lia.
Qed.

(** The loop of the monitor sleeps at most its own pauses and, per poll, what
    a decorated method sleeps. *)
Lemma monitor_loop_slept (operation_url : string) (monitor_attempts : Z)
    (k : nat) :
  forall s h,
    0 <= slept (evs (monitor_loop env operation_url monitor_attempts k s h))
    <= 14 * Z.of_nat k + monitor_pauses monitor_attempts k.
Proof.
  induction k as [|k IH]; intros s h.
  - cbn. lia.
  - rewrite monitor_loop_step. cbn zeta.
    pose proof (get_operation_slept operation_url s h) as Hp.
    pose proof (monitor_pauses_nonneg monitor_attempts (Datatypes.S k)) as Hn.
    pose proof (monitor_pauses_nonneg monitor_attempts k) as Hn'.
    destruct (res (_get_operation env operation_url s h)) as [[details|]|x];
      cbn [evs]; try lia.
    destruct (verdict details); cbn [evs]; try lia.
    unfold slept in *. rewrite !total_app.
    specialize (IH (st (_get_operation env operation_url s h))
                  ((h ++ evs (_get_operation env operation_url s h))
                   ++ (if monitor_attempts - Z.of_nat (Datatypes.S k) + 1
                          <? monitor_attempts
                       then [Sleep (2 ^ (monitor_attempts
                                         - Z.of_nat (Datatypes.S k) + 1))]
                       else []))).
    cbn [monitor_pauses] in *. cbn zeta in *.
    assert (0 <= 2 ^ (monitor_attempts - Z.of_nat (Datatypes.S k) + 1))
      by (apply Z.pow_nonneg; lia).
    destruct (_ <? _); cbn [total fold_right seconds] in *; lia.
Qed.

Lemma monitor_operation_slept (operation_url : string) (s : FilestoreInstance)
    (h : list event) :
  0 <= slept (evs (_monitor_operation env operation_url s h)) <= 366.
Proof.
  apply (monitor_loop_slept operation_url 8 8).
Qed.

Lemma increment_retention_slept (s : FilestoreInstance) (h : list event) :
  0 <= slept (evs (increment_retention env s h)) <= 394.
Proof.
  rewrite increment_retention_run. cbn zeta.
  pose proof (create_snapshot_slept s h) as Hc.
  destruct (res (_create_snapshot env s h)) as [[operation_url|]|x];
    cbn [evs]; try lia.
  pose proof (monitor_operation_slept operation_url s
                (h ++ evs (_create_snapshot env s h))) as Hm.
  pose proof (delete_snapshot_slept s
                ((h ++ evs (_create_snapshot env s h))
                 ++ evs (_monitor_operation env operation_url s
                           (h ++ evs (_create_snapshot env s h))))) as Hd.
  unfold slept in *.
  destruct (res (_monitor_operation env operation_url s _)) as [[|]|x];
    cbn [evs]; rewrite ?total_app; try lia.
  destruct (deletion_needed s); cbn [evs]; rewrite ?total_app; lia.
Qed.

End Slept.

(** X9.  The time one call can spend asleep is bounded: each decorated method
    sleeps at most [2 + 4 + 8 = 14] seconds, [_monitor_operation] at most
    [8 * 14 + (2 + 4 + ... + 128) = 366] seconds, and [increment_retention]
    at most [14 + 366 + 14 = 394] seconds. *)
Theorem sleeping_is_bounded (env : Env) (self : FilestoreInstance)
    (operation_url : string) (h : list event) :
  slept (evs (_get_instance env self h)) <= 14
  /\ slept (evs (_get_operation env operation_url self h)) <= 14
  /\ slept (evs (_list_snapshots env self h)) <= 14
  /\ slept (evs (_create_snapshot env self h)) <= 14
  /\ slept (evs (_delete_snapshot env self h)) <= 14
  /\ slept (evs (_monitor_operation env operation_url self h)) <= 366
  /\ slept (evs (increment_retention env self h)) <= 394.
Proof.
  repeat split.
  - apply get_instance_slept.
  - apply get_operation_slept.
  - apply list_snapshots_slept.
  - apply create_snapshot_slept.
  - apply delete_snapshot_slept.
  - apply monitor_operation_slept.
  - apply increment_retention_slept.
Qed.

(** ** Whole requests *)

Section MainRun.

Variable env : Env.

(** What [main] does to an accepted request: it runs the loop over the
    instances and answers ["done"]. *)
Lemma main_run (request_json : json) (h : list event) :
  main.validate_json request_json = Ret true ->
  exists fields policy items,
    request_json = JObj fields
    /\ lookup "retention_policy" fields = Some (JStr policy)
    /\ lookup "instances" fields = Some (JArr items)
    /\ (1 <= List.length items <= 8)%nat
    /\ main.main env (Ret request_json) tt h
       = {| st := tt;
            evs := evs (main.main_loop env policy items tt h);
            res := match res (main.main_loop env policy items tt h) with
                   | Ret _ => Ret "done"
                   | Raise x => Raise x
                   end |}.
Proof.
  intros Hv. pose proof Hv as Hvalid.
  apply validate_json_true_iff in Hvalid
    as (fields & policy & items & -> & Hp & _ & Hi & Hlen).
  exists fields, policy, items. repeat split; try assumption; try lia.
  unfold main.main. rewrite bind_run, !lift_run. cbn [res st evs].
  rewrite Hv. cbn [negb]. unfold get, getitem. rewrite Hp, Hi.
  rewrite bind_run, !lift_run. cbn [res st evs].
  rewrite bind_run, !lift_run. cbn [res st evs app].
  rewrite !app_nil_r. rewrite bind_run.
  destruct (res (main.main_loop env policy items tt h)) as [[]|x];
    rewrite ?ret_run; cbn [res st evs]; rewrite ?app_nil_r;
    destruct (st (main.main_loop env policy items tt h)); reflexivity.
Qed.

(** [main] either sends nothing, or runs the loop over at most
    [MAX_INSTANCES] entries. *)
Lemma main_events (request : result json) (h : list event) :
  evs (main.main env request tt h) = []
  \/ exists policy items,
       (List.length items <= 8)%nat
       /\ evs (main.main env request tt h)
          = evs (main.main_loop env policy items tt h).
Proof.
  destruct request as [request_json | x].
  - destruct (validate_json_total request_json) as [Hv | Hv].
    + right. destruct (main_run request_json h Hv)
        as (fields & policy & items & _ & _ & _ & Hlen & Hrun).
      exists policy, items. rewrite Hrun. split; [lia | reflexivity].
    + left. rewrite (main_rejects env request_json h Hv). reflexivity.
  - left. destruct x; reflexivity.
Qed.

End MainRun.

Section MainWeights.

Variable env : Env.
Variable w : event -> Z.
Variables nb ng nl ni : Z.

Hypothesis Hnb : 0 <= nb.
Hypothesis Hng : 0 <= ng.
Hypothesis Hnl : 0 <= nl.
Hypothesis Hni : 0 <= ni.
Hypothesis Hbuild : forall s h, total w (evs (_filestore_build env s h)) <= nb.
Hypothesis Hget : forall s h, total w (evs (_get_instance env s h)) <= ng.
Hypothesis Hlist : forall s h, total w (evs (_list_snapshots env s h)) <= nl.
Hypothesis Hincr : forall s h, total w (evs (increment_retention env s h)) <= ni.

Lemma init_bounded (instance_data : json) (policy : string) :
  bounded (fun _ => True) (__init__ env instance_data policy) w (nb + ng + nl).
Proof.
  unfold __init__.
  do 7 (apply bounded_after; [lia | reflexivity | intros ?]).
  apply (bounded_weaken _ _ (nb + (ng + nl))); [lia|].
  eapply bounded_bind;
    [lia | intros s h _; apply Hbuild | apply hoare_any | intros ?].
  eapply bounded_bind;
    [lia | intros s h _; apply Hget | apply hoare_any | intros details].
  apply bounded_after; [lia | reflexivity | intros ?].
  destruct details as [[|field fields]|];
    try (apply (bounded_weaken _ _ 0); [lia | apply bounded_silent; reflexivity]).
  apply (bounded_weaken _ _ (nl + 0)); [lia|].
  eapply bounded_bind;
    [lia | intros s h _; apply Hlist | apply hoare_any | intros listed].
  do 6 (apply bounded_after; [lia | reflexivity | intros ?]).
  apply bounded_silent. reflexivity.
Qed.

Lemma new_total (instance_data : json) (policy : string) (h : list event) :
  total w (evs (new env instance_data policy tt h)) <= nb + ng + nl.
Proof.
  unfold new. rewrite bind_run. unfold on at 1 2 3.
  cbn [res st evs].
  pose proof (init_bounded instance_data policy blank h I) as Hinit.
  destruct (res (__init__ env instance_data policy blank h)); cbn [evs];
    [rewrite ret_run; cbn [evs]; rewrite app_nil_r|]; exact Hinit.
Qed.

(** One entry of the request costs at most a construction and one
    [increment_retention]. *)
Lemma main_loop_bounded (policy : string) (instances : list json) :
  bounded (fun _ => True) (main.main_loop env policy instances) w
    ((nb + ng + nl + ni) * Z.of_nat (List.length instances)).
Proof.
  induction instances as [|instance_data rest IH]; cbn [main.main_loop].
  - apply (bounded_weaken _ _ 0); [cbn; lia | apply bounded_silent; reflexivity].
  - apply (bounded_weaken _ _
             ((nb + ng + nl + ni)
              + (nb + ng + nl + ni) * Z.of_nat (List.length rest)));
      [cbn [List.length]; lia|].
    apply bounded_after; [nia | reflexivity | intros valid].
    eapply bounded_bind; [nia | | apply hoare_any | intros ?; exact IH].
    destruct valid;
      [|apply (bounded_weaken _ _ 0); [lia | apply bounded_silent; reflexivity]].
    apply bounded_after; [lia | reflexivity | intros instance_path].
    eapply bounded_bind; [lia | | apply hoare_any | intros r].
    + intros [] h _. rewrite try_run. cbn [evs]. apply new_total.
    + destruct r as [filer | x];
        [|apply (bounded_weaken _ _ 0); [lia | apply bounded_silent; reflexivity]].
      apply bounded_after; [lia | reflexivity | intros meets].
      destruct meets;
        [|apply (bounded_weaken _ _ 0); [lia | apply bounded_silent; reflexivity]].
      apply (bounded_weaken _ _ (ni + 0)); [lia|].
      eapply bounded_bind; [lia | | apply hoare_any | intros ?].
      * intros [] h _. unfold on. cbn [evs]. apply Hincr.
      * apply bounded_silent. reflexivity.
Qed.

Lemma main_bounded (request : result json) (h : list event) :
  total w (evs (main.main env request tt h)) <= (nb + ng + nl + ni) * 8.
Proof.
  destruct (main_events env request h) as [-> | (policy & items & Hlen & ->)].
  - cbn. lia.
  - pose proof (main_loop_bounded policy items tt h I). nia.
Qed.

End MainWeights.

Section MainSlept.

Variable env : Env.

Lemma filestore_build_slept (s : FilestoreInstance) (h : list event) :
  total seconds (evs (_filestore_build env s h)) <= 0.
Proof.
  unfold _filestore_build, execute. destruct (build env h); cbn; lia.
Qed.

Lemma filestore_build_requests (s : FilestoreInstance) (h : list event) :
  total (one_if is_request) (evs (_filestore_build env s h)) <= 1.
Proof.
  unfold _filestore_build, execute. destruct (build env h); cbn; lia.
Qed.

Lemma monitor_operation_requests (operation_url : string)
    (s : FilestoreInstance) (h : list event) :
  (count is_request (evs (_monitor_operation env operation_url s h)) <= 24)%nat.
Proof.
  apply (monitor_loop_polls env operation_url 8 8).
Qed.

Lemma increment_retention_requests (s : FilestoreInstance) (h : list event) :
  (count is_request (evs (increment_retention env s h)) <= 30)%nat.
Proof.
  rewrite increment_retention_run. cbn zeta.
  pose proof (create_snapshot_requests env s h) as Hc.
  destruct (res (_create_snapshot env s h)) as [[operation_url|]|x];
    cbn [evs]; try lia.
  pose proof (monitor_operation_requests operation_url s
                (h ++ evs (_create_snapshot env s h))) as Hm.
  pose proof (delete_snapshot_requests env s
                ((h ++ evs (_create_snapshot env s h))
                 ++ evs (_monitor_operation env operation_url s
                           (h ++ evs (_create_snapshot env s h))))) as Hd.
  destruct (res (_monitor_operation env operation_url s _)) as [[|]|x];
    cbn [evs]; rewrite ?count_app; try lia.
  destruct (deletion_needed s); cbn [evs]; rewrite ?count_app; lia.
Qed.

End MainSlept.

(** X10.  A whole request sleeps at most 3376 seconds: 422 seconds per entry
    of [instances] (28 while the object is built, 394 in
    [increment_retention]), and [validate_json] lets at most 8 entries
    through. *)
Theorem main_sleep_is_bounded (env : Env) (request : result json)
    (policy : string) (instances : list json) (h : list event) :
  slept (evs (main.main_loop env policy instances tt h))
  <= 422 * Z.of_nat (List.length instances)
  /\ slept (evs (main.main env request tt h)) <= 3376.
Proof.
  assert (Hget : forall s h', total seconds (evs (_get_instance env s h')) <= 14)
    by (intros; apply get_instance_slept).
  assert (Hlist : forall s h',
             total seconds (evs (_list_snapshots env s h')) <= 14)
    by (intros; apply list_snapshots_slept).
  assert (Hincr : forall s h',
             total seconds (evs (increment_retention env s h')) <= 394)
    by (intros; apply increment_retention_slept).
  split.
  - pose proof (main_loop_bounded env seconds 0 14 14 394
                  ltac:(lia) ltac:(lia) ltac:(lia) ltac:(lia)
                  (filestore_build_slept env) Hget Hlist Hincr
                  policy instances tt h I) as H.
    unfold slept. lia.
  - pose proof (main_bounded env seconds 0 14 14 394
                  ltac:(lia) ltac:(lia) ltac:(lia) ltac:(lia)
                  (filestore_build_slept env) Hget Hlist Hincr
                  request h) as H.
    unfold slept. lia.
Qed.

(** X11.  A whole request sends at most 296 requests to the service: 37 per
    entry of [instances] (one to build the client, three each to fetch the
    instance, list the snapshots, create and delete, 24 to poll the
    operation), for at most 8 entries. *)
Theorem main_requests_are_bounded (env : Env) (request : result json)
    (policy : string) (instances : list json) (h : list event) :
  (count is_request (evs (main.main_loop env policy instances tt h))
   <= 37 * List.length instances)%nat
  /\ (count is_request (evs (main.main env request tt h)) <= 296)%nat.
Proof.
  assert (Hget : forall s h',
             total (one_if is_request) (evs (_get_instance env s h')) <= 3)
    by (intros; rewrite total_count;
        pose proof (get_instance_requests env s h'); lia).
  assert (Hlist : forall s h',
             total (one_if is_request) (evs (_list_snapshots env s h')) <= 3)
    by (intros; rewrite total_count;
        pose proof (list_snapshots_requests env s h'); lia).
  assert (Hincr : forall s h',
             total (one_if is_request) (evs (increment_retention env s h')) <= 30)
    by (intros; rewrite total_count;
        pose proof (increment_retention_requests env s h'); lia).
  split.
  - pose proof (main_loop_bounded env (one_if is_request) 1 3 3 30
                  ltac:(lia) ltac:(lia) ltac:(lia) ltac:(lia)
                  (filestore_build_requests env) Hget Hlist Hincr
                  policy instances tt h I) as H.
    rewrite total_count in H. lia.
  - pose proof (main_bounded env (one_if is_request) 1 3 3 30
                  ltac:(lia) ltac:(lia) ltac:(lia) ltac:(lia)
                  (filestore_build_requests env) Hget Hlist Hincr
                  request h) as H.
    rewrite total_count in H. lia.
Qed.

(** ** Creations and deletions *)

Section RetryReturned.

Context {S A : Type}.
Variable func : M S (option A).
Variables retries backoff : Z.

(** What is counted in every run that returns a value is counted in a call
    that returns one. *)
Lemma retry_loop_count_returned (p : event -> bool) (k : nat) :
  (forall s h a, res (func s h) = Ret (Some a) ->
                 (1 <= count p (evs (func s h)))%nat) ->
  forall s h a,
    res (retry_loop func retries backoff k s h) = Ret (Some a) ->
    (1 <= count p (evs (retry_loop func retries backoff k s h)))%nat.
Proof.
  intros Hf. induction k as [|k IH]; intros s h a.
  - cbn. discriminate.
  - rewrite retry_loop_step.
    destruct (res (func s h)) as [a' | x] eqn:Hr; cbn [res evs].
    + intros [= ->]. rewrite app_nil_r. eapply Hf, Hr.
    + destruct (caught x); cbn [res evs]; [|discriminate].
      intros Hres. rewrite count_app.
      change (?e :: ?l) with ([e] ++ l). rewrite count_app.
      apply IH in Hres. lia.
Qed.

End RetryReturned.

Section Net.

Variable env : Env.

Lemma quiet_counts (l : list event) :
  Forall (fun e => is_acked_create e = false /\ is_acked_delete e = false) l ->
  count is_acked_create l = 0%nat /\ count is_acked_delete l = 0%nat.
Proof.
  intros H. split; apply count_zero_iff; eapply Forall_impl; try exact H;
    cbn beta; tauto.
Qed.

Lemma filestore_build_quiet (s : FilestoreInstance) (h : list event) :
  count is_acked_create (evs (_filestore_build env s h)) = 0%nat
  /\ count is_acked_delete (evs (_filestore_build env s h)) = 0%nat.
Proof.
  unfold _filestore_build, execute. destruct (build env h); split; reflexivity.
Qed.

Lemma get_instance_quiet (s : FilestoreInstance) (h : list event) :
  count is_acked_create (evs (_get_instance env s h)) = 0%nat
  /\ count is_acked_delete (evs (_get_instance env s h)) = 0%nat.
Proof.
  apply quiet_counts. apply get_instance_events; intros; split; reflexivity.
Qed.

Lemma list_snapshots_quiet (s : FilestoreInstance) (h : list event) :
  count is_acked_create (evs (_list_snapshots env s h)) = 0%nat
  /\ count is_acked_delete (evs (_list_snapshots env s h)) = 0%nat.
Proof.
  apply quiet_counts. apply list_snapshots_events; intros; split; reflexivity.
Qed.

Lemma monitor_operation_quiet (operation_url : string) (s : FilestoreInstance)
    (h : list event) :
  count is_acked_create (evs (_monitor_operation env operation_url s h)) = 0%nat
  /\ count is_acked_delete (evs (_monitor_operation env operation_url s h))
     = 0%nat.
Proof.
  apply quiet_counts. apply monitor_loop_events; intros; split; reflexivity.
Qed.

(** [_create_snapshot] has at most one request answered, and exactly one when
    it returns a handle. *)
Lemma create_snapshot_acked (s : FilestoreInstance) (h : list event) :
  (count is_acked_create (evs (_create_snapshot env s h)) <= 1)%nat
  /\ count is_acked_delete (evs (_create_snapshot env s h)) = 0%nat
  /\ (forall operation_url,
         res (_create_snapshot env s h) = Ret (Some operation_url) ->
         count is_acked_create (evs (_create_snapshot env s h)) = 1%nat).
Proof.
  assert (Hle : (count is_acked_create (evs (_create_snapshot env s h)) <= 1)%nat).
  { unfold _create_snapshot. apply retry_count_last; try reflexivity.
    - run_body; cbn; lia.
    - intros s' h' x.
      unfold bind, get_self, read_clock, execute, ret. cbn [res st evs].
      destruct (snapshots_create env _ _ _); cbn [res st evs app].
      + destruct (negb _); discriminate.
      + reflexivity. }
  split; [exact Hle|]. split.
  - apply count_zero_iff. apply create_snapshot_events; reflexivity.
  - intros operation_url Hres.
    assert (1 <= count is_acked_create (evs (_create_snapshot env s h)))%nat;
      [|lia].
    revert Hres. unfold _create_snapshot. rewrite retry_run. cbn [res evs].
    intros Hres. change (?e :: ?l) with ([e] ++ l). rewrite count_app.
    eapply (retry_loop_count_returned _ _ _ is_acked_create) in Hres; [lia|].
    clear. intros s h a.
    unfold bind, get_self, read_clock, execute, ret. cbn [res st evs].
    destruct (snapshots_create env _ _ _); cbn [res st evs app].
    + destruct (negb _); cbn [res evs]; intros [=]; cbn; lia.
    + discriminate.
Qed.

Lemma delete_snapshot_acked (s : FilestoreInstance) (h : list event) :
  count is_acked_create (evs (_delete_snapshot env s h)) = 0%nat
  /\ (count is_acked_delete (evs (_delete_snapshot env s h)) <= 1)%nat.
Proof.
  split.
  - apply count_zero_iff. apply delete_snapshot_events; reflexivity.
  - apply delete_snapshot_counts.
Qed.

(** One [increment_retention]: at most one creation is accepted, and a
    deletion only after it. *)
Lemma increment_retention_acked (s : FilestoreInstance) (h : list event) :
  (count is_acked_delete (evs (increment_retention env s h))
   <= count is_acked_create (evs (increment_retention env s h)))%nat
  /\ (count is_acked_create (evs (increment_retention env s h)) <= 1)%nat.
Proof.
  rewrite increment_retention_run. cbn zeta.
  destruct (create_snapshot_acked s h) as (Hc1 & Hc2 & Hc3).
  destruct (res (_create_snapshot env s h)) as [[operation_url|]|x];
    cbn [evs]; try lia.
  specialize (Hc3 operation_url eq_refl).
  destruct (monitor_operation_quiet operation_url s
              (h ++ evs (_create_snapshot env s h))) as [Hm1 Hm2].
  destruct (delete_snapshot_acked s
              ((h ++ evs (_create_snapshot env s h))
               ++ evs (_monitor_operation env operation_url s
                         (h ++ evs (_create_snapshot env s h)))))
    as [Hd1 Hd2].
  destruct (res (_monitor_operation env operation_url s _)) as [[|]|x];
    cbn [evs]; rewrite ?count_app; try lia.
  destruct (deletion_needed s); cbn [evs]; rewrite ?count_app; lia.
Qed.

Lemma total_net (l : list event) :
  total (fun e => one_if is_acked_delete e - one_if is_acked_create e) l
  = Z.of_nat (count is_acked_delete l) - Z.of_nat (count is_acked_create l).
Proof.
  rewrite <- !total_count. unfold total.
  induction l as [|e l IH]; cbn [fold_right]; lia.
Qed.

End Net.

(** X12.  A request never has more deletions accepted than creations, and at
    most one creation per entry of [instances], so at most 8 of each. *)
Theorem deletions_never_exceed_creations (env : Env) (request : result json)
    (policy : string) (instances : list json) (h : list event) :
  ((count is_acked_delete (evs (main.main_loop env policy instances tt h))
    <= count is_acked_create (evs (main.main_loop env policy instances tt h)))%nat
   /\ (count is_acked_create (evs (main.main_loop env policy instances tt h))
       <= List.length instances)%nat)
  /\ ((count is_acked_delete (evs (main.main env request tt h))
       <= count is_acked_create (evs (main.main env request tt h)))%nat
      /\ (count is_acked_create (evs (main.main env request tt h)) <= 8)%nat).
Proof.
  assert (Hnet : forall l,
             total (fun e => one_if is_acked_delete e - one_if is_acked_create e)
               l <= 0 * 8 ->
             (count is_acked_delete l <= count is_acked_create l)%nat)
    by (intros l; rewrite total_net; lia).
  assert (Hb1 : forall s h',
             total (fun e => one_if is_acked_delete e - one_if is_acked_create e)
               (evs (_filestore_build env s h')) <= 0)
    by (intros; rewrite total_net;
        destruct (filestore_build_quiet env s h'); lia).
  assert (Hg1 : forall s h',
             total (fun e => one_if is_acked_delete e - one_if is_acked_create e)
               (evs (_get_instance env s h')) <= 0)
    by (intros; rewrite total_net;
        destruct (get_instance_quiet env s h'); lia).
  assert (Hl1 : forall s h',
             total (fun e => one_if is_acked_delete e - one_if is_acked_create e)
               (evs (_list_snapshots env s h')) <= 0)
    by (intros; rewrite total_net;
        destruct (list_snapshots_quiet env s h'); lia).
  assert (Hi1 : forall s h',
             total (fun e => one_if is_acked_delete e - one_if is_acked_create e)
               (evs (increment_retention env s h')) <= 0)
    by (intros; rewrite total_net;
        destruct (increment_retention_acked env s h'); lia).
  assert (Hb2 : forall s h',
             total (one_if is_acked_create) (evs (_filestore_build env s h')) <= 0)
    by (intros; rewrite total_count;
        destruct (filestore_build_quiet env s h'); lia).
  assert (Hg2 : forall s h',
             total (one_if is_acked_create) (evs (_get_instance env s h')) <= 0)
    by (intros; rewrite total_count;
        destruct (get_instance_quiet env s h'); lia).
  assert (Hl2 : forall s h',
             total (one_if is_acked_create) (evs (_list_snapshots env s h')) <= 0)
    by (intros; rewrite total_count;
        destruct (list_snapshots_quiet env s h'); lia).
  assert (Hi2 : forall s h',
             total (one_if is_acked_create) (evs (increment_retention env s h'))
             <= 1)
    by (intros; rewrite total_count;
        destruct (increment_retention_acked env s h'); lia).
  split; split.
  - apply Hnet.
    pose proof (main_loop_bounded env _ 0 0 0 0
                  ltac:(lia) ltac:(lia) ltac:(lia) ltac:(lia)
                  Hb1 Hg1 Hl1 Hi1 policy instances tt h I) as H.
    lia.
  - pose proof (main_loop_bounded env _ 0 0 0 1
                  ltac:(lia) ltac:(lia) ltac:(lia) ltac:(lia)
                  Hb2 Hg2 Hl2 Hi2 policy instances tt h I) as H.
    rewrite total_count in H. lia.
  - apply Hnet.
    apply (main_bounded env _ 0 0 0 0
             ltac:(lia) ltac:(lia) ltac:(lia) ltac:(lia) Hb1 Hg1 Hl1 Hi1).
  - pose proof (main_bounded env _ 0 0 0 1
                  ltac:(lia) ltac:(lia) ltac:(lia) ltac:(lia)
                  Hb2 Hg2 Hl2 Hi2 request h) as H.
    rewrite total_count in H. lia.
Qed.

(** ** Below the retention count *)

Lemma increment_retention_not_needed (env : Env) (self : FilestoreInstance)
    (h : list event) :
  deletion_needed self = false ->
  count is_delete (evs (increment_retention env self h)) = 0%nat.
Proof.
  intros Hd. rewrite increment_retention_run. cbn zeta. rewrite Hd.
  pose proof (create_snapshot_no_delete env self h) as Hc.
  destruct (res (_create_snapshot env self h)) as [[operation_url|]|x];
    cbn [evs]; try exact Hc.
  pose proof (monitor_operation_no_delete env operation_url self
                (h ++ evs (_create_snapshot env self h))) as Hm.
  destruct (res (_monitor_operation env operation_url self _)) as [[|]|x];
    cbn [evs]; rewrite count_app; lia.
Qed.

(** X13.  While the scheduler snapshots are fewer than [max_snapshots],
    [increment_retention] deletes nothing, whatever creation and monitoring
    come to. *)
Theorem increment_retention_keeps_below_retention (env : Env)
    (self : FilestoreInstance) (h : list event) :
  Z.of_nat (List.length (scheduler_snapshots self)) < max_snapshots self ->
  count is_delete (evs (increment_retention env self h)) = 0%nat.
Proof.
  intros Hlt. apply increment_retention_not_needed.
  destruct (deletion_needed self) eqn:E; [|reflexivity].
  apply deletion_needed_iff in E. lia.
Qed.

(** Two scheduler snapshots against a retention count of three. *)
Lemma increment_retention_keeps_below_retention_witness :
  count is_delete
    (evs (increment_retention
            (Fake.service Fake.enterprise Fake.two_daily
               (Fake.succeeded "create-1"))
            (Fake.filer 3) [])) = 0%nat.
Proof.
  apply (increment_retention_keeps_below_retention
           (Fake.service Fake.enterprise Fake.two_daily
              (Fake.succeeded "create-1"))
           (Fake.filer 3) []).
  vm_compute. reflexivity.
Defined.

(** ** The name of the snapshot created *)

Section Naming.

Variable env : Env.

(** Every run of the body of [_create_snapshot] reads the clock and asks for
    a snapshot named after the policy and that reading. *)
Lemma create_snapshot_named (s : FilestoreInstance) (h : list event) :
  Forall (fun e =>
            forall parent id failure,
              e = Request (SnapshotsCreate parent id) failure ->
              parent = url s
              /\ exists h',
                   id = (SNAP_PREFIX ++ retention_policy s ++ "-"
                         ++ strftime env h')%string)
    (evs (_create_snapshot env s h)).
Proof.
  unfold _create_snapshot. apply retry_Forall.
  - run_body; reflexivity.
  - intros h'. unfold bind, get_self, read_clock, execute, ret.
    cbn [res st evs].
    destruct (snapshots_create env _ _ _) as [response | x];
      cbn [res st evs app].
    + destruct (negb _); cbn [evs app];
        repeat (apply Forall_cons || apply Forall_nil);
        try discriminate; intros parent id failure [= <- <- _];
        (split; [reflexivity | eexists; reflexivity]).
    + repeat (apply Forall_cons || apply Forall_nil); try discriminate;
        intros parent id failure [= <- <- _];
        (split; [reflexivity | eexists; reflexivity]).
  - discriminate.
  - discriminate.
Qed.

End Naming.

Lemma has_slash_append (a b : string) :
  has_slash (a ++ b)%string = has_slash a || has_slash b.
Proof.
  induction a as [|c a IH]; [reflexivity|].
  cbn [String.append has_slash]. rewrite IH.
  destruct (Ascii.eqb c "/"); reflexivity.
Qed.

Lemma prefix_append (a b : string) : String.prefix a (a ++ b) = true.
Proof.
  induction a as [|c a IH]; cbn [String.append String.prefix].
  - destruct b; reflexivity.
  - destruct (ascii_dec c c); [exact IH | contradiction].
Qed.

(** X14.  Every request [_create_snapshot] sends asks, on the instance
    [url], for a snapshot whose id is [sched-<retention_policy>-<stamp>],
    where [stamp] is a reading of the clock. *)
Theorem create_snapshot_names_after_clock (env : Env)
    (self : FilestoreInstance) (h : list event) (parent id : string)
    (failure : option exn) :
  In (Request (SnapshotsCreate parent id) failure)
    (evs (_create_snapshot env self h)) ->
  parent = url self
  /\ exists h',
       id = (SNAP_PREFIX ++ retention_policy self ++ "-"
             ++ strftime env h')%string.
Proof.
  intros Hin. pose proof (create_snapshot_named env self h) as H.
  rewrite Forall_forall in H. exact (H _ Hin parent id failure eq_refl).
Qed.

Lemma create_snapshot_names_after_clock_witness :
  Fake.instance_url = url (Fake.filer 2)
  /\ exists h',
       "sched-daily-20220103-000000"
       = (SNAP_PREFIX ++ retention_policy (Fake.filer 2) ++ "-"
          ++ strftime (Fake.service Fake.enterprise Fake.two_daily
                         (Fake.succeeded "create-1")) h')%string.
Proof.
  apply (create_snapshot_names_after_clock
           (Fake.service Fake.enterprise Fake.two_daily
              (Fake.succeeded "create-1"))
           (Fake.filer 2) [] Fake.instance_url "sched-daily-20220103-000000"
           None).
  vm_compute. right. right. left. reflexivity.
Defined.

(** X15.  Round trip of a name: a snapshot the service lists as
    [<parent>/sched-<policy>-<stamp>] in state [READY], where neither the
    policy nor the stamp holds a slash, is kept by
    [get_scheduler_snapshots_list], and [get_oldest_scheduler_snapshot]
    slices exactly [stamp] out of it: alone in the list, it is the oldest
    when [stamp] parses, and what the parser raises is raised otherwise. *)
Theorem created_name_round_trip (env : Env) (self : FilestoreInstance)
    (parent stamp : string) :
  has_slash (retention_policy self) = false ->
  has_slash stamp = false ->
  let snapshot_id :=
    (SNAP_PREFIX ++ retention_policy self ++ "-" ++ stamp)%string in
  let listed :=
    {| snap_name := (parent ++ "/" ++ snapshot_id)%string;
       snap_state := "READY" |} in
  get_resource_name (snap_name listed) = snapshot_id
  /\ get_scheduler_snapshots_list (set_snapshots (Some [listed]) self)
     = Ret [snap_name listed]
  /\ drop (String.length (SNAP_PREFIX ++ retention_policy self)%string + 1)
       (get_resource_name (snap_name listed)) = stamp
  /\ get_oldest_scheduler_snapshot env
       (set_scheduler_snapshots [snap_name listed] self)
     = match epoch env stamp with
       | Ret _ => Ret (Some (snap_name listed))
       | Raise x => Raise x
       end.
Proof.
  intros Hp Hs snapshot_id listed. subst listed. cbn [snap_name].
  assert (Hid : has_slash snapshot_id = false).
  { subst snapshot_id. rewrite !has_slash_append, Hp, Hs. reflexivity. }
  assert (Hname : get_resource_name (parent ++ "/" ++ snapshot_id)%string
                  = snapshot_id)
    by (apply get_resource_name_is_last_segment_lemma; exact Hid).
  assert (Hdrop : drop (String.length (SNAP_PREFIX ++ retention_policy self)%string
                        + 1)
                    (get_resource_name (parent ++ "/" ++ snapshot_id)%string)
                  = stamp)
    by (rewrite Hname; apply drop_marker).
  split; [exact Hname|]. split; [|split; [exact Hdrop|]].
  - unfold get_scheduler_snapshots_list, set_snapshots.
    cbn [snapshots retention_policy scheduler_snapshots_loop snap_name
         snap_state].
    replace (contains _ _) with true; [reflexivity|].
    symmetry. apply (contains_last_piece _ "/").
    change (last (split "/" ?s) EmptyString) with (get_resource_name s).
    rewrite Hname. apply prefix_contains. subst snapshot_id.
    replace (SNAP_PREFIX ++ retention_policy self ++ "-" ++ stamp)%string
      with ((SNAP_PREFIX ++ retention_policy self ++ "-") ++ stamp)%string
      by (rewrite !append_assoc'; reflexivity).
    apply prefix_append.
  - unfold get_oldest_scheduler_snapshot, set_scheduler_snapshots.
    cbn [scheduler_snapshots retention_policy epoch_loop]. cbn zeta.
    rewrite Hdrop. destruct (epoch env stamp); reflexivity.
Qed.

(** The snapshot of the third day, as the service lists it afterwards. *)
Lemma created_name_round_trip_witness :
  get_resource_name (Fake.snapshot_url "sched-daily-20220103-000000")
  = "sched-daily-20220103-000000"
  /\ get_oldest_scheduler_snapshot
       (Fake.service Fake.enterprise Fake.two_daily (Fake.succeeded "create-1"))
       (set_scheduler_snapshots
          [Fake.snapshot_url "sched-daily-20220103-000000"] (Fake.filer 2))
     = Ret (Some (Fake.snapshot_url "sched-daily-20220103-000000")).
Proof.
  destruct (created_name_round_trip
              (Fake.service Fake.enterprise Fake.two_daily
                 (Fake.succeeded "create-1"))
              (Fake.filer 2) "projects/p/locations/l/instances/i/snapshots"
              "20220103-000000" eq_refl eq_refl) as (H1 & _ & _ & H4).
  split; [exact H1 | exact H4].
Defined.

(** ** The filter and the choice of the oldest, in general *)

(** X16.  [get_scheduler_snapshots_list] returns the names of exactly the
    listed snapshots that are [READY] and whose name contains
    [sched-<retention_policy>-], in the order of the listing, so never more
    names than snapshots listed; on an object whose [snapshots] is [None] it
    raises [TypeError]. *)
Theorem get_scheduler_snapshots_list_filters (self : FilestoreInstance) :
  let marker := (SNAP_PREFIX ++ retention_policy self ++ "-")%string in
  match snapshots self with
  | None => get_scheduler_snapshots_list self = Raise TypeError
  | Some listing =>
      get_scheduler_snapshots_list self
      = Ret (map snap_name
               (filter (fun snapshot =>
                          contains marker (snap_name snapshot)
                          && String.eqb (snap_state snapshot) "READY")
                  listing))
      /\ forall kept,
           get_scheduler_snapshots_list self = Ret kept ->
           (List.length kept <= List.length listing)%nat
           /\ forall snapshot_name,
                In snapshot_name kept
                <-> exists snapshot,
                      In snapshot listing
                      /\ snap_name snapshot = snapshot_name
                      /\ contains marker snapshot_name = true
                      /\ snap_state snapshot = "READY"
  end.
Proof.
  cbn zeta. unfold get_scheduler_snapshots_list.
  destruct (snapshots self) as [listing|]; [|reflexivity].
  split.
  - rewrite scheduler_snapshots_loop_filter. reflexivity.
  - intros kept [= <-]. split.
    + rewrite scheduler_snapshots_loop_filter, length_map. apply filter_length_le.
    + intros snapshot_name. apply scheduler_snapshots_loop_In.
Qed.

Section OldestFails.

Variable env : Env.
Variable n : nat.

Lemma epoch_loop_raises (pre : list string) (snapshot : string)
    (post : list string) (x : exn) :
  (forall s, In s pre ->
     exists e, epoch env (drop n (get_resource_name s)) = Ret e) ->
  epoch env (drop n (get_resource_name snapshot)) = Raise x ->
  forall d, epoch_loop env n (pre ++ snapshot :: post) d = Raise x.
Proof.
  intros Hpre Hx. induction pre as [|s pre IH]; intros d; cbn [app epoch_loop].
  - rewrite Hx. reflexivity.
  - destruct (Hpre s (or_introl eq_refl)) as [e He]. rewrite He. cbn [rbind].
    apply IH. intros s' Hs'. apply Hpre. right. exact Hs'.
Qed.

End OldestFails.

(** X17.  [get_oldest_scheduler_snapshot] dates every scheduler snapshot
    before it chooses: the first one whose slice after
    [sched-<retention_policy>-] does not parse makes the call raise what the
    parser raised, wherever it stands in the list and whatever the others
    are. *)
Theorem get_oldest_scheduler_snapshot_needs_every_date (env : Env)
    (self : FilestoreInstance) (pre : list string) (snapshot : string)
    (post : list string) (x : exn) :
  let n := (String.length (SNAP_PREFIX ++ retention_policy self)%string + 1)%nat in
  scheduler_snapshots self = pre ++ snapshot :: post ->
  (forall s, In s pre ->
     exists e, epoch env (drop n (get_resource_name s)) = Ret e) ->
  epoch env (drop n (get_resource_name snapshot)) = Raise x ->
  get_oldest_scheduler_snapshot env self = Raise x.
Proof.
  intros n Hl Hpre Hx. unfold get_oldest_scheduler_snapshot.
  destruct (scheduler_snapshots self) as [|s0 l] eqn:Hs.
  - destruct pre; discriminate.
  - cbn zeta. rewrite Hl.
    rewrite (epoch_loop_raises env _ pre snapshot post x Hpre Hx).
    reflexivity.
Qed.

(** The snapshot of the policy [daily-eu], after one of [daily]. *)
Lemma get_oldest_scheduler_snapshot_needs_every_date_witness :
  get_oldest_scheduler_snapshot
    (Fake.service Fake.enterprise Fake.mixed (Fake.succeeded "create-1"))
    Fake.mixed_filtered = Raise ValueError.
Proof.
  apply (get_oldest_scheduler_snapshot_needs_every_date
           (Fake.service Fake.enterprise Fake.mixed (Fake.succeeded "create-1"))
           Fake.mixed_filtered
           [Fake.snapshot_url "sched-daily-20220101-000000"]
           (Fake.snapshot_url "sched-daily-eu-20220102-000000") []
           ValueError).
  - reflexivity.
  - intros s [<- | []]. eexists. vm_compute. reflexivity.
  - vm_compute. reflexivity.
Defined.

(** ** Entries that are skipped *)

Section Skips.

Variable env : Env.

Lemma bind_ext {S A B} (m : M S A) (k k' : A -> M S B) (s : S)
    (h : list event) :
  (forall a s' h', k a s' h' = k' a s' h') ->
  bind m k s h = bind m k' s h.
Proof.
  intros Hk. rewrite !bind_run.
  destruct (res (m s h)); [rewrite Hk|]; reflexivity.
Qed.

Lemma main_loop_skips_within (policy : string) (before : list json)
    (instance_data : json) (after : list json) :
  main.validate_instance_input instance_data = Ret false ->
  forall s h,
    main.main_loop env policy (before ++ instance_data :: after) s h
    = main.main_loop env policy (before ++ after) s h.
Proof.
  intros Hv. induction before as [|first before IH]; intros [] h.
  - apply main_loop_skips, Hv.
  - cbn [app main.main_loop].
    apply bind_ext. intros valid s' h'.
    apply bind_ext. intros ? s'' h''. apply IH.
Qed.

End Skips.

(** X18.  An entry that [validate_instance_input] refuses leaves no trace:
    wherever it stands in the list, the loop of [main] behaves as on the list
    without it. *)
Theorem refused_entries_leave_no_trace (env : Env) (policy : string)
    (before : list json) (instance_data : json) (after : list json)
    (h : list event) :
  main.validate_instance_input instance_data = Ret false ->
  main.main_loop env policy (before ++ instance_data :: after) tt h
  = main.main_loop env policy (before ++ after) tt h.
Proof.
  intros Hv. apply main_loop_skips_within, Hv.
Qed.

(** An entry that asks for no snapshots, between two that ask for two. *)
Lemma refused_entries_leave_no_trace_witness :
  main.main_loop
    (Fake.service Fake.enterprise Fake.two_daily (Fake.succeeded "create-1"))
    "daily"
    ([Fake.spec_of Fake.instance_url (JStr "2")]
     ++ Fake.spec_of Fake.other_url (JInt 0)
     :: [Fake.spec_of Fake.other_url (JStr "2")]) tt []
  = main.main_loop
      (Fake.service Fake.enterprise Fake.two_daily (Fake.succeeded "create-1"))
      "daily"
      ([Fake.spec_of Fake.instance_url (JStr "2")]
       ++ [Fake.spec_of Fake.other_url (JStr "2")]) tt [].
Proof.
  apply (refused_entries_leave_no_trace
           (Fake.service Fake.enterprise Fake.two_daily
              (Fake.succeeded "create-1"))
           "daily" [Fake.spec_of Fake.instance_url (JStr "2")]
           (Fake.spec_of Fake.other_url (JInt 0))
           [Fake.spec_of Fake.other_url (JStr "2")] []).
  reflexivity.
Defined.

(** ** The answers of [main] *)

(** X19.  When [main] returns, it returns one of two strings.  It answers
    ["done with error"] only when the body could not be parsed or
    [validate_json] refused it, and then it has sent nothing; it answers
    ["done"] only for a request [validate_json] accepted, after the loop over
    its instances has come to its end. *)
Theorem main_answers (env : Env) (request : result json) (h : list event)
    (answer : string) :
  res (main.main env request tt h) = Ret answer ->
  (answer = "done with error"
   /\ evs (main.main env request tt h) = []
   /\ (request = Raise BadRequest
       \/ exists request_json,
            request = Ret request_json
            /\ main.validate_json request_json = Ret false))
  \/ (answer = "done"
      /\ exists request_json policy items,
           request = Ret request_json
           /\ main.validate_json request_json = Ret true
           /\ get request_json "retention_policy" = Ret (JStr policy)
           /\ getitem request_json "instances" = Ret (JArr items)
           /\ res (main.main_loop env policy items tt h) = Ret tt
           /\ evs (main.main env request tt h)
              = evs (main.main_loop env policy items tt h)).
Proof.
  destruct request as [request_json | x].
  - destruct (validate_json_total request_json) as [Hv | Hv].
    + destruct (main_run env request_json h Hv)
        as (fields & policy & items & -> & Hp & Hi & _ & Hrun).
      rewrite Hrun. cbn [res evs].
      destruct (res (main.main_loop env policy items tt h)) as [[]|x] eqn:Hl;
        [|discriminate].
      intros [= <-]. right. split; [reflexivity|].
      exists (JObj fields), policy, items. unfold get, getitem.
      rewrite Hp, Hi. repeat split; assumption.
    + rewrite (main_rejects env request_json h Hv). cbn [res evs].
      intros [= <-]. left. repeat split. right. eauto.
  - destruct x; try discriminate. cbn. intros [= <-]. left. auto.
Qed.

(** A body that is no JSON. *)
Lemma main_answers_witness :
  ("done with error" = "done with error"
   /\ evs (main.main Fake.unreachable (Raise BadRequest) tt []) = []
   /\ ((Raise BadRequest : result json) = Raise BadRequest
       \/ exists request_json,
            Raise BadRequest = Ret request_json
            /\ main.validate_json request_json = Ret false))
  \/ ("done with error" = "done"
      /\ exists request_json policy items,
           Raise BadRequest = Ret request_json
           /\ main.validate_json request_json = Ret true
           /\ get request_json "retention_policy" = Ret (JStr policy)
           /\ getitem request_json "instances" = Ret (JArr items)
           /\ res (main.main_loop Fake.unreachable policy items tt []) = Ret tt
           /\ evs (main.main Fake.unreachable (Raise BadRequest) tt [])
              = evs (main.main_loop Fake.unreachable policy items tt [])).
Proof.
  apply (main_answers Fake.unreachable (Raise BadRequest) [] "done with error").
  reflexivity.
Defined.

(** ** Instances that do not meet the requirements *)

Section Requirements.

Variable env : Env.

Lemma validate_instance_input_range (instance_data : json) :
  main.validate_instance_input instance_data = Ret true ->
  exists path n,
    getitem instance_data "instance_path" = Ret path
    /\ rbind (get instance_data "snapshots") int = Ret n
    /\ 1 <= n <= 240.
Proof.
  unfold main.validate_instance_input.
  destruct (get instance_data "instance_path") as [path | x]; cbn [rbind];
    [|discriminate].
  destruct (truthy path); cbn [negb]; [|discriminate].
  destruct (getitem instance_data "instance_path") as [path' | x];
    cbn [rbind]; [|discriminate].
  destruct (get instance_data "snapshots") as [requested | x]; cbn [rbind];
    [|discriminate].
  destruct (truthy requested); cbn [negb]; [|discriminate].
  destruct (int requested) as [n | x]; cbn [rbind]; [|discriminate].
  destruct (Z.leb_spec n 0); [discriminate|].
  rewrite Z.gtb_ltb. unfold MAX_NUMBER_OF_SNAPSHOTS.
  destruct (Z.ltb_spec 240 n); [discriminate|].
  intros _. exists path', n. repeat split; lia.
Qed.

(** One turn of the loop on an instance that was constructed and does not
    meet the requirements. *)
Lemma main_loop_not_met (policy : string) (instance_data : json)
    (rest : list json) (h : list event) (filer : FilestoreInstance) :
  main.validate_instance_input instance_data = Ret true ->
  res (new env instance_data policy tt h) = Ret filer ->
  validate_instance_requirements filer = Ret false ->
  main.main_loop env policy (instance_data :: rest) tt h
  = let built := evs (new env instance_data policy tt h) in
    let o := main.main_loop env policy rest tt (h ++ built) in
    {| st := st o; evs := built ++ evs o; res := res o |}.
Proof.
  intros Hvalid Hnew Hreq.
  destruct (validate_instance_input_range instance_data Hvalid)
    as (path & n & Hitem & _).
  cbn [main.main_loop].
  rewrite bind_run, lift_run. cbn [res st evs]. rewrite Hvalid.
  rewrite bind_run, bind_run, lift_run. cbn [res st evs]. rewrite Hitem.
  rewrite !app_nil_r.
  rewrite bind_run, !try_run. cbn [res st evs].
  rewrite Hnew. cbn [res st evs].
  rewrite bind_run, !lift_run. cbn [res st evs]. rewrite Hreq.
  rewrite !ret_run. cbn [res st evs app]. rewrite !app_nil_r.
  destruct (st (new env instance_data policy tt h)). reflexivity.
Qed.

End Requirements.

(** X20.  An instance that was found but does not meet the requirements
    (tier, number of snapshots, state) is left alone: the turn of the loop
    consists of the construction, which creates and deletes nothing, and the
    loop goes on with the next entry. *)
Theorem unmet_requirements_skip_the_instance (env : Env) (policy : string)
    (instance_data : json) (rest : list json) (h : list event)
    (filer : FilestoreInstance) :
  main.validate_instance_input instance_data = Ret true ->
  res (new env instance_data policy tt h) = Ret filer ->
  validate_instance_requirements filer = Ret false ->
  let built := evs (new env instance_data policy tt h) in
  let o := main.main_loop env policy rest tt (h ++ built) in
  main.main_loop env policy (instance_data :: rest) tt h
  = {| st := st o; evs := built ++ evs o; res := res o |}
  /\ count is_create built = 0%nat
  /\ count is_delete built = 0%nat.
Proof.
  intros Hvalid Hnew Hreq built o. subst built o.
  split; [apply (main_loop_not_met env policy instance_data rest h filer);
          assumption|].
  pose proof (new_emits env instance_data policy h) as Hq.
  split; apply count_zero_iff; eapply Forall_impl; try exact Hq;
    intros e He; apply fetch_is_quiet in He; tauto.
Qed.

(** An instance of the tier [BASIC_HDD]. *)
Lemma unmet_requirements_skip_the_instance_witness :
  count is_create
    (evs (main.main_loop
            (Fake.service [("tier", "BASIC_HDD"); ("state", "READY")]
               Fake.two_daily (Fake.succeeded "create-1"))
            "daily" [Fake.spec_of Fake.instance_url (JStr "2")] tt []))
  = 0%nat.
Proof.
  destruct (unmet_requirements_skip_the_instance
              (Fake.service [("tier", "BASIC_HDD"); ("state", "READY")]
                 Fake.two_daily (Fake.succeeded "create-1"))
              "daily" (Fake.spec_of Fake.instance_url (JStr "2")) [] []
              (set_filestore_instance_json
                 (Some [("tier", "BASIC_HDD"); ("state", "READY")])
                 (Fake.filer 2)))
    as (Hrun & Hc & _).
  - vm_compute. reflexivity.
  - vm_compute. reflexivity.
  - vm_compute. reflexivity.
  - rewrite Hrun. cbn [evs main.main_loop]. rewrite ret_run. cbn [evs].
    rewrite app_nil_r. exact Hc.
Defined.

(** ** What is deleted *)

Section Targets.

Variable env : Env.

(** On a constructed object that asks for at least one snapshot, a deletion
    that is needed has a snapshot to delete. *)
Lemma built_target (filer : FilestoreInstance) :
  built env filer ->
  1 <= max_snapshots filer ->
  deletion_needed filer = true ->
  exists oldest, oldest_sched_snapshot filer = Some oldest.
Proof.
  intros (listing & _ & _ & Hold) Hmax Hd.
  apply deletion_needed_iff in Hd.
  unfold get_oldest_scheduler_snapshot in Hold.
  destruct (scheduler_snapshots filer) as [|s0 l] eqn:Hs.
  - cbn [List.length] in Hd. lia.
  - cbn zeta in Hold.
    destruct (epoch_loop env _ (s0 :: l) []) as [d | x]; cbn [rbind] in Hold;
      [|discriminate].
    destruct (dict_min d) as [oldest | x]; cbn [rbind] in Hold;
      [|discriminate].
    injection Hold as <-. eauto.
Qed.

Lemma new_accepted (instance_data : json) (policy : string) (h : list event)
    (filer : FilestoreInstance) :
  main.validate_instance_input instance_data = Ret true ->
  res (new env instance_data policy tt h) = Ret filer ->
  1 <= max_snapshots filer <= 240.
Proof.
  intros Hvalid Hnew.
  destruct (validate_instance_input_range instance_data Hvalid)
    as (path & n & _ & Hn & Hrange).
  destruct (new_hoare env _ instance_data policy h filer
              (init_attributes env instance_data policy) Hnew)
    as (path' & n' & _ & Hn' & _ & _ & _ & Hmax).
  rewrite Hn in Hn'. injection Hn' as <-. lia.
Qed.

Lemma increment_retention_targets (filer : FilestoreInstance) (h : list event) :
  (deletion_needed filer = true ->
   exists oldest, oldest_sched_snapshot filer = Some oldest) ->
  Forall (fun e => forall failure, e <> Request (SnapshotsDelete None) failure)
    (evs (increment_retention env filer h)).
Proof.
  intros Hgood. destruct (deletion_needed filer) eqn:Hd.
  - destruct (Hgood eq_refl) as [oldest Ho].
    apply increment_retention_events; try discriminate.
    rewrite Ho. discriminate.
  - pose proof (increment_retention_not_needed env filer h Hd) as H0.
    apply count_zero_iff in H0. eapply Forall_impl; [|exact H0].
    intros e He failure ->. discriminate.
Qed.

Lemma main_loop_targets (policy : string) (instances : list json) :
  emits (fun _ => True) (main.main_loop env policy instances)
    (fun e => forall failure, e <> Request (SnapshotsDelete None) failure).
Proof.
  assert (Hsilent : forall A (m : M unit A),
             (forall s h, evs (m s h) = []) ->
             forall P, emits P m
               (fun e => forall failure,
                  e <> Request (SnapshotsDelete None) failure))
    by (intros; apply emits_silent; assumption).
  induction instances as [|instance_data rest IH]; cbn [main.main_loop].
  - apply Hsilent. reflexivity.
  - eapply emits_bind with
      (R := fun valid _ => main.validate_instance_input instance_data = Ret valid).
    { apply Hsilent. reflexivity. }
    { intros s h valid _ Hr. exact Hr. }
    intros valid.
    eapply emits_bind; [|apply hoare_any | intros ?; exact IH].
    destruct valid; [|apply Hsilent; reflexivity].
    eapply emits_bind with
      (R := fun _ _ => main.validate_instance_input instance_data = Ret true).
    { apply Hsilent. reflexivity. }
    { intros s h a Hv _. exact Hv. }
    intros instance_path.
    eapply emits_bind with
      (R := fun r _ =>
              match r with
              | inl filer =>
                  deletion_needed filer = true ->
                  exists oldest, oldest_sched_snapshot filer = Some oldest
              | inr _ => True
              end).
    + intros [] h _. rewrite try_run. cbn [evs].
      eapply Forall_impl; [|apply new_emits].
      intros e [He | [z ->]] failure; [|discriminate].
      intros ->. discriminate.
    + intros [] h r Hvalid. rewrite try_run. cbn [res st].
      destruct (res (new env instance_data policy tt h)) as [filer | x] eqn:Hn.
      * intros [= <-]. apply built_target.
        -- eapply new_built, Hn.
        -- eapply new_accepted; eassumption.
      * destruct (main.is_instance_not_found x); [|discriminate].
        intros [= <-]. exact I.
    + intros [filer | x]; [|apply Hsilent; reflexivity].
      eapply emits_bind with
        (R := fun _ _ =>
                deletion_needed filer = true ->
                exists oldest, oldest_sched_snapshot filer = Some oldest).
      * apply Hsilent. reflexivity.
      * intros s h a Hg _. exact Hg.
      * intros meets. destruct meets; [|apply Hsilent; reflexivity].
        eapply emits_bind; [|apply hoare_any
                           | intros ?; apply Hsilent; reflexivity].
        intros [] h Hgood. unfold on. cbn [evs].
        apply increment_retention_targets. exact Hgood.
Qed.

End Targets.

(** X21.  Every delete request [main] sends names a snapshot: since an
    accepted entry asks for at least one snapshot, a deletion is needed only
    when there is a scheduler snapshot, and [oldest_sched_snapshot] is then not
    [None]. *)
Theorem main_deletes_named_snapshots (env : Env) (request : result json)
    (h : list event) (target : option string) (failure : option exn) :
  In (Request (SnapshotsDelete target) failure)
    (evs (main.main env request tt h)) ->
  exists snapshot_name, target = Some snapshot_name.
Proof.
  intros Hin. destruct target as [snapshot_name|]; [eauto | exfalso].
  destruct (main_events env request h) as [H0 | (policy & items & _ & Hev)].
  - rewrite H0 in Hin. exact Hin.
  - rewrite Hev in Hin.
    pose proof (main_loop_targets env policy items tt h I) as H.
    rewrite Forall_forall in H. exact (H _ Hin failure eq_refl).
Qed.

(** The request that keeps two daily snapshots: the one of the first day is
    deleted. *)
Lemma main_deletes_named_snapshots_witness :
  exists snapshot_name,
    Some (Fake.snapshot_url "sched-daily-20220101-000000") = Some snapshot_name.
Proof.
  apply (main_deletes_named_snapshots
           (Fake.service Fake.enterprise Fake.two_daily
              (Fake.succeeded "create-1"))
           (Ret Fake.plain_request) []
           (Some (Fake.snapshot_url "sched-daily-20220101-000000")) None).
  vm_compute. repeat (first [left; reflexivity | right]).
Defined.

(** ** Where the view of the controller comes from *)

Section RetryAnswer.

Context {S A : Type}.
Variable func : M S (option A).
Variables retries backoff : Z.

(** [retry_loop_res] for a property that depends on the object, when the
    function leaves the object alone. *)
Lemma retry_loop_res_on (s : S) (Q : option A -> Prop) (k : nat) :
  (forall s' h, st (func s' h) = s') ->
  (forall h a, res (func s h) = Ret a -> Q a) ->
  Q None ->
  forall h a, res (retry_loop func retries backoff k s h) = Ret a -> Q a.
Proof.
  intros Hst Hf Hn. induction k as [|k IH]; intros h a.
  - cbn. intros [= <-]. exact Hn.
  - rewrite retry_loop_step.
    destruct (res (func s h)) as [a' | x] eqn:Hr; cbn [res].
    + intros [= <-]. eapply Hf, Hr.
    + destruct (caught x); cbn [res]; [|discriminate].
      rewrite Hst. apply IH.
Qed.

End RetryAnswer.

Section Answered.

Variable env : Env.

Lemma get_instance_answer_on (s : FilestoreInstance) (h : list event)
    (details : Instance) :
  res (_get_instance env s h) = Ret (Some details) ->
  exists h', instances_get env h' (url s) = Ret details.
Proof.
  unfold _get_instance. rewrite retry_run. cbn [res]. intros Hres.
  refine (retry_loop_res_on _ MAX_RETRIES 2 s
            (fun a => a = Some details ->
                      exists h', instances_get env h' (url s) = Ret details)
            _ _ _ _ _ _ Hres eq_refl); [| |discriminate].
  - run_body; reflexivity.
  - intros h' a. unfold bind, get_self, execute, ret. cbn [res st evs].
    destruct (instances_get env (h' ++ []) (url s)) as [d | x] eqn:Hd;
      cbn [res]; [|discriminate].
    intros [= <-] [= ->]. eauto.
Qed.

Lemma list_snapshots_answer_on (s : FilestoreInstance) (h : list event)
    (listing : list Snapshot) :
  res (_list_snapshots env s h) = Ret (Some listing) ->
  exists h',
    snapshots_list env h' (url s) = Ret (Some listing)
    \/ (snapshots_list env h' (url s) = Ret None /\ listing = []).
Proof.
  unfold _list_snapshots. rewrite retry_run. cbn [res]. intros Hres.
  refine (retry_loop_res_on _ MAX_RETRIES 2 s
            (fun a => a = Some listing ->
                      exists h',
                        snapshots_list env h' (url s) = Ret (Some listing)
                        \/ (snapshots_list env h' (url s) = Ret None
                            /\ listing = []))
            _ _ _ _ _ _ Hres eq_refl); [| |discriminate].
  - run_body; reflexivity.
  - intros h' a. unfold bind, get_self, execute, ret. cbn [res st evs].
    destruct (snapshots_list env (h' ++ []) (url s)) as [[l|] | x] eqn:Hl;
      cbn [res]; try discriminate; intros [= <-] [= <-]; eauto.
Qed.

(** The details and the listing [__init__] stores are what the service
    answered for the [url] of the object. *)
Lemma init_view (instance_data : json) (policy : string) :
  hoare (fun _ => True) (__init__ env instance_data policy)
    (fun _ self =>
       (exists details h',
           filestore_instance_json self = Some details
           /\ instances_get env h' (url self) = Ret details)
       /\ (forall listing,
              snapshots self = Some listing ->
              exists h',
                snapshots_list env h' (url self) = Ret (Some listing)
                \/ (snapshots_list env h' (url self) = Ret None
                    /\ listing = []))).
Proof.
  unfold __init__.
  do 8 (eapply hoare_bind; [apply hoare_any | intros ?]).
  eapply hoare_bind with
    (R := fun details s =>
            forall d, details = Some d ->
                      exists h', instances_get env h' (url s) = Ret d).
  { intros s h details _ Hres d ->. rewrite get_instance_st.
    eapply get_instance_answer_on, Hres. }
  intros details.
  set (Found := fun s : FilestoreInstance =>
                  exists d h',
                    filestore_instance_json s = Some d
                    /\ instances_get env h' (url s) = Ret d).
  destruct details as [[|field fields]|];
    try (eapply hoare_bind; [apply hoare_any | intros ?; apply hoare_raise]).
  eapply hoare_bind with (R := fun _ s => Found s).
  { intros s h [] Hd _. cbn [modify st].
    destruct (Hd _ eq_refl) as [h' Hh']. exists (field :: fields), h'.
    split; [reflexivity | exact Hh']. }
  intros ?.
  set (Listed := fun s : FilestoreInstance =>
                   forall listing,
                     snapshots s = Some listing ->
                     exists h',
                       snapshots_list env h' (url s) = Ret (Some listing)
                       \/ (snapshots_list env h' (url s) = Ret None
                           /\ listing = [])).
  eapply hoare_bind with
    (R := fun listed s =>
            Found s
            /\ forall listing, listed = Some listing ->
                 exists h',
                   snapshots_list env h' (url s) = Ret (Some listing)
                   \/ (snapshots_list env h' (url s) = Ret None
                       /\ listing = [])).
  { intros s h listed Hf Hres. rewrite list_snapshots_st. split; [exact Hf|].
    intros listing ->. eapply list_snapshots_answer_on, Hres. }
  intros listed.
  assert (Hmodify : forall (f : FilestoreInstance -> FilestoreInstance),
             (forall s, url (f s) = url s
                        /\ filestore_instance_json (f s)
                           = filestore_instance_json s
                        /\ snapshots (f s) = snapshots s) ->
             hoare (fun s => Found s /\ Listed s) (modify f)
               (fun _ s => Found s /\ Listed s)).
  { intros f Hf s h [] [(d & h' & Hd & Hh') Hl] _. cbn [modify st].
    destruct (Hf s) as (E1 & E2 & E3). split.
    - exists d, h'. rewrite E1, E2. split; assumption.
    - intros listing Hs. rewrite E3 in Hs. rewrite E1. apply Hl, Hs. }
  eapply hoare_bind with (R := fun _ s => Found s /\ Listed s).
  { intros s h [] [(d & h' & Hd & Hh') Hl] _. cbn [modify st]. split.
    - exists d, h'. split; assumption.
    - intros listing Hs. apply Hl. exact Hs. }
  intros ?.
  eapply hoare_bind; [apply hoare_frame; reflexivity | intros ?].
  eapply hoare_bind; [apply hoare_frame; reflexivity | intros ?].
  eapply hoare_bind; [apply Hmodify; intros; repeat split | intros ?].
  eapply hoare_bind; [apply hoare_frame; reflexivity | intros ?].
  eapply hoare_bind; [apply hoare_frame; reflexivity | intros ?].
  eapply hoare_weaken; [apply Hmodify; intros; repeat split|].
  intros [] s H. exact H.
Qed.

End Answered.

(** X22.  The view of a constructed object is what the service answered for
    its [url]: the instance details are an answer to [instances.get] on that
    url, and the snapshots are the list an answer to [snapshots.list] on it
    held, or the empty list when the answer held none. *)
Theorem constructed_view_is_the_answer (env : Env) (instance_data : json)
    (policy : string) (h : list event) (filer : FilestoreInstance) :
  res (new env instance_data policy tt h) = Ret filer ->
  exists details listing,
    filestore_instance_json filer = Some details
    /\ (exists h', instances_get env h' (url filer) = Ret details)
    /\ snapshots filer = Some listing
    /\ (exists h',
          snapshots_list env h' (url filer) = Ret (Some listing)
          \/ (snapshots_list env h' (url filer) = Ret None /\ listing = [])).
Proof.
  intros Hnew.
  destruct (new_hoare env _ instance_data policy h filer
              (init_view env instance_data policy) Hnew)
    as [(details & h1 & Hd & Hh1) Hlisted].
  destruct (new_built env instance_data policy h filer Hnew)
    as (listing & Hl & _).
  exists details, listing. repeat split; eauto.
Qed.

Lemma constructed_view_is_the_answer_witness :
  exists details listing,
    filestore_instance_json (Fake.filer 2) = Some details
    /\ (exists h',
          instances_get
            (Fake.service Fake.enterprise Fake.two_daily
               (Fake.succeeded "create-1")) h' (url (Fake.filer 2))
          = Ret details)
    /\ snapshots (Fake.filer 2) = Some listing
    /\ (exists h',
          snapshots_list
            (Fake.service Fake.enterprise Fake.two_daily
               (Fake.succeeded "create-1")) h' (url (Fake.filer 2))
          = Ret (Some listing)
          \/ (snapshots_list
                (Fake.service Fake.enterprise Fake.two_daily
                   (Fake.succeeded "create-1")) h' (url (Fake.filer 2))
              = Ret None /\ listing = [])).
Proof.
  apply (constructed_view_is_the_answer
           (Fake.service Fake.enterprise Fake.two_daily
              (Fake.succeeded "create-1"))
           (Fake.spec_of Fake.instance_url (JStr "2")) "daily" []).
  vm_compute. reflexivity.
Defined.

(** ** The entries of a request, in order *)

Section InOrder.

Variable env : Env.



End InOrder.

